(** * A shallow embedding of the [edi] terminal text editor

    The development follows the richest variant of the editor (the one
    with syntax highlighting and incremental search).  C [int]s are
    modelled as [Z]; the editor only ever stores sizes, indices and
    cursor positions in them, and every quantity is bounded by eight
    times a row length (see [editorRowCxToRx_bounds]), so the model
    covers every document whose rows stay below [INT_MAX / 8] bytes.
    Arrays are lists; an access outside an array, which is undefined
    behaviour in C, makes the embedded function return [None].
    The bytes drawn for the text area and the status bar are functions
    of the state.  The status message and its clock are not modelled:
    no function studied here reads them back. *)

From Stdlib Require Import ZArith Lia Ascii String DecimalString.
From stdpp Require Import base option list numbers strings.

Local Open Scope Z_scope.

(** ** Bytes and C strings *)

Definition len {A} (l : list A) : Z := Z.of_nat (List.length l).

Definition NUL : ascii := "000"%char.
Definition TAB : ascii := "009"%char.
Definition SPACE : ascii := " "%char.
Definition NEWLINE : ascii := "010"%char.

Definition Z_of_char (c : ascii) : Z := Z.of_N (N_of_ascii c).
Definition char_of_Z (z : Z) : ascii := ascii_of_N (Z.to_N (z mod 256)).

(** A string literal as the byte array it denotes (without terminator). *)
Definition bytes (s : string) : list ascii := list_ascii_of_string s.

(** The part of a buffer a C string function sees: up to the first NUL. *)
Fixpoint c_str (l : list ascii) : list ascii :=
  match l with
  | [] => []
  | c :: l' => if Ascii.eqb c NUL then [] else c :: c_str l'
  end.

Definition strlen (l : list ascii) : Z := len (c_str l).

(** ** Constants and enumerations *)

Definition EDI_TAB_STOP : Z := 8.
Definition EDI_QUIT_TIMES : Z := 3.

Definition CTRL_KEY (k : ascii) : Z := Z.land (Z_of_char k) 31.

Definition BACKSPACE : Z := 127.
Definition ARROW_UP : Z := 1000.
Definition ARROW_DOWN : Z := 1001.
Definition ARROW_LEFT : Z := 1002.
Definition ARROW_RIGHT : Z := 1003.
Definition DEL_KEY : Z := 1004.
Definition HOME_KEY : Z := 1005.
Definition END_KEY : Z := 1006.
Definition PAGE_UP : Z := 1007.
Definition PAGE_DOWN : Z := 1008.
Definition ESC_KEY : Z := 27.
Definition ENTER_KEY : Z := 13.

Inductive editorHighlight : Type :=
| HL_NORMAL
| HL_COMMENT
| HL_STRING
| HL_NUMBER
| HL_MATCH.

Definition editorHighlight_eqb (a b : editorHighlight) : bool :=
  match a, b with
  | HL_NORMAL, HL_NORMAL | HL_COMMENT, HL_COMMENT | HL_STRING, HL_STRING
  | HL_NUMBER, HL_NUMBER | HL_MATCH, HL_MATCH => true
  | _, _ => false
  end.

Definition HL_HIGHLIGHT_NUMBERS : Z := 1.
Definition HL_HIGHLIGHT_STRINGS : Z := 2.

(** ** Data *)

Record editorSyntax : Type := {
  file_type : list ascii;
  file_match : list (list ascii);
  singleline_comment_start : option (list ascii);
  flags : Z
}.

(** [size] and [rsize] are the lengths of [chars] and [render]. *)
Record erow : Type := {
  chars : list ascii;
  render : list ascii;
  hl : list editorHighlight
}.

Definition size (r : erow) : Z := len (chars r).
Definition rsize (r : erow) : Z := len (render r).

(** ** Row operations: coordinate conversion *)

(** [row->chars[j]]: the bytes of the row, then its NUL terminator. *)
Definition char_at (r : erow) (j : Z) : option ascii :=
  if j <? 0 then None
  else if j <? size r then chars r !! Z.to_nat j
  else if j =? size r then Some NUL
  else None.

(** One step of the shared column rule: a tab first moves the column to
    the last cell before the next tab stop, then every byte advances by
    one. *)
Definition advance (c : ascii) (rx : Z) : Z :=
  (if Ascii.eqb c TAB
   then rx + ((EDI_TAB_STOP - 1) - Z.rem rx EDI_TAB_STOP)
   else rx) + 1.

(** The body of [for (j = 0; j < cx; j++)], with [n] iterations left. *)
Fixpoint editorRowCxToRx_loop (r : erow) (n : nat) (j rx : Z) : option Z :=
  match n with
  | O => Some rx
  | S n' =>
      c ← char_at r j;
      editorRowCxToRx_loop r n' (j + 1) (advance c rx)
  end.

Definition editorRowCxToRx (r : erow) (cx : Z) : option Z :=
  editorRowCxToRx_loop r (Z.to_nat cx) 0 0.

(** The loop of [editorRowRxToCx] over the bytes [chars[cx..size)]. *)
Fixpoint editorRowRxToCx_loop (cs : list ascii) (cx curr_rx rx : Z) : Z :=
  match cs with
  | [] => cx
  | c :: cs' =>
      let curr_rx := advance c curr_rx in
      if curr_rx >? rx then cx
      else editorRowRxToCx_loop cs' (cx + 1) curr_rx rx
  end.

Definition editorRowRxToCx (r : erow) (rx : Z) : Z :=
  editorRowRxToCx_loop (chars r) 0 0 rx.

(** The render column reached after walking the bytes [cs] from column
    [rx]: the closed form of both conversion loops. *)
Definition width_from (cs : list ascii) (rx : Z) : Z :=
  fold_left (fun rx c => advance c rx) cs rx.

(** ** Checked array accesses

    Reads and writes outside the array are undefined behaviour in C and
    yield [None] here. *)

Definition load {A} (l : list A) (i : Z) : option A :=
  if i <? 0 then None else l !! Z.to_nat i.

Definition store {A} (l : list A) (i : Z) (v : A) : option (list A) :=
  if (0 <=? i) && (i <? len l) then Some (<[Z.to_nat i := v]> l) else None.

(** [memset(&l[off], v, n)] *)
Definition memset {A} (l : list A) (off : Z) (v : A) (n : Z)
  : option (list A) :=
  if (0 <=? off) && (0 <=? n) && (off + n <=? len l)
  then Some (take (Z.to_nat off) l ++ replicate (Z.to_nat n) v
             ++ drop (Z.to_nat (off + n)) l)
  else None.

(** [memcpy(dst, src, n)] *)
Definition memcpy {A} (dst src : list A) (n : Z) : option (list A) :=
  if (0 <=? n) && (n <=? len dst) && (n <=? len src)
  then Some (take (Z.to_nat n) src ++ drop (Z.to_nat n) dst)
  else None.

(** ** The C library on bytes (C locale)

    A [char] above 127 belongs to none of the classes below. *)

Definition isspace (c : Z) : bool := (c =? 32) || ((9 <=? c) && (c <=? 13)).
Definition isdigit (c : Z) : bool := (48 <=? c) && (c <=? 57).
Definition iscntrl (c : Z) : bool := ((0 <=? c) && (c <? 32)) || (c =? 127).

(** [strchr(s, c) != NULL]; the terminator itself is found when [c] is 0. *)
Definition strchr (s : list ascii) (c : ascii) : bool :=
  Ascii.eqb c NUL || existsb (Ascii.eqb c) (c_str s).

(** [strncmp(a, b, n) == 0], both buffers being followed by a NUL. *)
Fixpoint strncmp_eq (a b : list ascii) (n : nat) : bool :=
  match n with
  | O => true
  | S n' =>
      let ca := hd NUL a in
      let cb := hd NUL b in
      if negb (Ascii.eqb ca cb) then false
      else if Ascii.eqb ca NUL then true
      else strncmp_eq (tl a) (tl b) n'
  end.

Fixpoint starts_with (needle hay : list ascii) : bool :=
  match needle, hay with
  | [], _ => true
  | _ :: _, [] => false
  | a :: needle', b :: hay' => Ascii.eqb a b && starts_with needle' hay'
  end.

Fixpoint strstr_from (hay needle : list ascii) (off : Z) : option Z :=
  if starts_with needle hay then Some off
  else match hay with
       | [] => None
       | _ :: hay' => strstr_from hay' needle (off + 1)
       end.

(** [strstr(hay, needle)], as the offset of the match from [hay]. *)
Definition strstr (hay needle : list ascii) : option Z :=
  strstr_from (c_str hay) (c_str needle) 0.

(** [strrchr(s, c)] for a non-NUL [c]: the suffix from the last [c]. *)
Fixpoint strrchr (s : list ascii) (c : ascii) : option (list ascii) :=
  match s with
  | [] => None
  | a :: s' =>
      match strrchr s' c with
      | Some t => Some t
      | None => if Ascii.eqb a c then Some s else None
      end
  end.

(** [strcmp(a, b) == 0] *)
Definition strcmp_eq (a b : list ascii) : bool :=
  bool_decide (c_str a = c_str b).

(** ** Syntax highlighting *)

Definition is_separator (c : ascii) : bool :=
  isspace (Z_of_char c) || Ascii.eqb c NUL
  || strchr (bytes ",.()+-/*=~%<>[];") c.

Definition BACKSLASH : ascii := "092"%char.
Definition DQUOTE : ascii := "034"%char.
Definition SQUOTE : ascii := "039"%char.
Definition DOT : ascii := "."%char.

Definition has_flag (syn : editorSyntax) (f : Z) : bool :=
  negb (Z.land (flags syn) f =? 0).

(** The scanning loop of [editorUpdateSyntax].  Every iteration moves
    [i] forward, so [rsize] iterations are always enough
    (see [editorUpdateSyntax_loop_defined]); [in_string] is 0 or the
    opening quote. *)
Fixpoint editorUpdateSyntax_loop (fuel : nat) (syn : editorSyntax)
    (rnd : list ascii) (i : Z) (prev_sep : bool) (in_string : Z)
    (hl : list editorHighlight) : option (list editorHighlight) :=
  if negb (i <? len rnd) then Some hl
  else
    match fuel with
    | O => None
    | S fuel' =>
        c ← load rnd i;
        prev_hl ← (if 0 <? i then load hl (i - 1) else Some HL_NORMAL);
        let scs := default [] (singleline_comment_start syn) in
        let scs_len := strlen scs in
        let numbers_and_rest (_ : unit) :=
          if has_flag syn HL_HIGHLIGHT_NUMBERS
             && ((isdigit (Z_of_char c)
                  && (prev_sep || editorHighlight_eqb prev_hl HL_NUMBER))
                 || (Ascii.eqb c DOT && editorHighlight_eqb prev_hl HL_NUMBER))
          then
            hl1 ← store hl i HL_NUMBER;
            editorUpdateSyntax_loop fuel' syn rnd (i + 1) false in_string hl1
          else
            editorUpdateSyntax_loop fuel' syn rnd (i + 1) (is_separator c)
              in_string hl in
        if negb (scs_len =? 0) && (in_string =? 0)
           && strncmp_eq (drop (Z.to_nat i) rnd) scs (Z.to_nat scs_len)
        then memset hl i HL_COMMENT (len rnd - i)
        else if has_flag syn HL_HIGHLIGHT_STRINGS then
          if negb (in_string =? 0) then
            hl1 ← store hl i HL_STRING;
            if Ascii.eqb c BACKSLASH && (i + 1 <? len rnd) then
              hl2 ← store hl1 (i + 1) HL_STRING;
              editorUpdateSyntax_loop fuel' syn rnd (i + 2) prev_sep
                in_string hl2
            else
              let in_string' :=
                if Z_of_char c =? in_string then 0 else in_string in
              editorUpdateSyntax_loop fuel' syn rnd (i + 1) true
                in_string' hl1
          else if Ascii.eqb c DQUOTE || Ascii.eqb c SQUOTE then
            hl1 ← store hl i HL_STRING;
            editorUpdateSyntax_loop fuel' syn rnd (i + 1) prev_sep
              (Z_of_char c) hl1
          else numbers_and_rest tt
        else numbers_and_rest tt
    end.

Definition set_hl (r : erow) (h : list editorHighlight) : erow :=
  {| chars := chars r; render := render r; hl := h |}.

Definition set_render (r : erow) (rnd : list ascii) : erow :=
  {| chars := chars r; render := rnd; hl := hl r |}.

Definition set_chars (r : erow) (cs : list ascii) : erow :=
  {| chars := cs; render := render r; hl := hl r |}.

(** [realloc] to [rsize] entries, all reset to [HL_NORMAL], then the scan
    when a syntax profile is active. *)
Definition editorUpdateSyntax (syn : option editorSyntax) (r : erow)
  : option erow :=
  let hl0 := replicate (length (render r)) HL_NORMAL in
  match syn with
  | None => Some (set_hl r hl0)
  | Some s =>
      h ← editorUpdateSyntax_loop (length (render r)) s (render r)
            0 true 0 hl0;
      Some (set_hl r h)
  end.

(** ** Row operations: rendering *)

(** [while (idx % EDI_TAB_STOP != 0) render[idx++] = ' ';] runs at most
    [EDI_TAB_STOP - 1] times (see [tab_fill_aligned]). *)
Fixpoint tab_fill (fuel : nat) (rnd : list ascii) : list ascii :=
  match fuel with
  | O => rnd
  | S fuel' =>
      if Z.rem (len rnd) EDI_TAB_STOP =? 0 then rnd
      else tab_fill fuel' (rnd ++ [SPACE])
  end.

Fixpoint count_tabs (cs : list ascii) : Z :=
  match cs with
  | [] => 0
  | c :: cs' => (if Ascii.eqb c TAB then 1 else 0) + count_tabs cs'
  end.

(** The second loop of [editorUpdateRow]; [rnd] is [render[0..idx)]. *)
Fixpoint editorUpdateRow_loop (cs rnd : list ascii) : list ascii :=
  match cs with
  | [] => rnd
  | c :: cs' =>
      if Ascii.eqb c TAB
      then editorUpdateRow_loop cs'
             (tab_fill (Z.to_nat (EDI_TAB_STOP - 1)) (rnd ++ [SPACE]))
      else editorUpdateRow_loop cs' (rnd ++ [c])
  end.

Definition editorUpdateRow (syn : option editorSyntax) (r : erow)
  : option erow :=
  editorUpdateSyntax syn (set_render r (editorUpdateRow_loop (chars r) [])).

(** ** The editor state

    The global [struct editorConfig E], together with the function-local
    [static] variables of [editorProcessKeypress] ([quit_times]) and of
    [editorFindCallback] ([last_match], [direction], [saved_hl_line],
    [saved_hl]); [num_rows] is the length of [row]. *)

Module E.

Record editorConfig : Type := {
  cx : Z;
  cy : Z;
  rx : Z;
  row_offset : Z;
  col_offset : Z;
  screen_rows : Z;
  screen_cols : Z;
  row : list erow;
  dirty : Z;
  filename : option (list ascii);
  syntax : option editorSyntax;
  quit_times : Z;
  last_match : Z;
  direction : Z;
  saved_hl_line : Z;
  saved_hl : option (list editorHighlight)
}.

Definition num_rows (e : editorConfig) : Z := len (row e).

Definition set_cx (v : Z) (e : editorConfig) : editorConfig :=
  {| cx := v;
     cy := cy e;
     rx := rx e;
     row_offset := row_offset e;
     col_offset := col_offset e;
     screen_rows := screen_rows e;
     screen_cols := screen_cols e;
     row := row e;
     dirty := dirty e;
     filename := filename e;
     syntax := syntax e;
     quit_times := quit_times e;
     last_match := last_match e;
     direction := direction e;
     saved_hl_line := saved_hl_line e;
     saved_hl := saved_hl e |}.

Definition set_cy (v : Z) (e : editorConfig) : editorConfig :=
  {| cx := cx e;
     cy := v;
     rx := rx e;
     row_offset := row_offset e;
     col_offset := col_offset e;
     screen_rows := screen_rows e;
     screen_cols := screen_cols e;
     row := row e;
     dirty := dirty e;
     filename := filename e;
     syntax := syntax e;
     quit_times := quit_times e;
     last_match := last_match e;
     direction := direction e;
     saved_hl_line := saved_hl_line e;
     saved_hl := saved_hl e |}.

Definition set_rx (v : Z) (e : editorConfig) : editorConfig :=
  {| cx := cx e;
     cy := cy e;
     rx := v;
     row_offset := row_offset e;
     col_offset := col_offset e;
     screen_rows := screen_rows e;
     screen_cols := screen_cols e;
     row := row e;
     dirty := dirty e;
     filename := filename e;
     syntax := syntax e;
     quit_times := quit_times e;
     last_match := last_match e;
     direction := direction e;
     saved_hl_line := saved_hl_line e;
     saved_hl := saved_hl e |}.

Definition set_row_offset (v : Z) (e : editorConfig) : editorConfig :=
  {| cx := cx e;
     cy := cy e;
     rx := rx e;
     row_offset := v;
     col_offset := col_offset e;
     screen_rows := screen_rows e;
     screen_cols := screen_cols e;
     row := row e;
     dirty := dirty e;
     filename := filename e;
     syntax := syntax e;
     quit_times := quit_times e;
     last_match := last_match e;
     direction := direction e;
     saved_hl_line := saved_hl_line e;
     saved_hl := saved_hl e |}.

Definition set_col_offset (v : Z) (e : editorConfig) : editorConfig :=
  {| cx := cx e;
     cy := cy e;
     rx := rx e;
     row_offset := row_offset e;
     col_offset := v;
     screen_rows := screen_rows e;
     screen_cols := screen_cols e;
     row := row e;
     dirty := dirty e;
     filename := filename e;
     syntax := syntax e;
     quit_times := quit_times e;
     last_match := last_match e;
     direction := direction e;
     saved_hl_line := saved_hl_line e;
     saved_hl := saved_hl e |}.

Definition set_row (v : list erow) (e : editorConfig) : editorConfig :=
  {| cx := cx e;
     cy := cy e;
     rx := rx e;
     row_offset := row_offset e;
     col_offset := col_offset e;
     screen_rows := screen_rows e;
     screen_cols := screen_cols e;
     row := v;
     dirty := dirty e;
     filename := filename e;
     syntax := syntax e;
     quit_times := quit_times e;
     last_match := last_match e;
     direction := direction e;
     saved_hl_line := saved_hl_line e;
     saved_hl := saved_hl e |}.

Definition set_dirty (v : Z) (e : editorConfig) : editorConfig :=
  {| cx := cx e;
     cy := cy e;
     rx := rx e;
     row_offset := row_offset e;
     col_offset := col_offset e;
     screen_rows := screen_rows e;
     screen_cols := screen_cols e;
     row := row e;
     dirty := v;
     filename := filename e;
     syntax := syntax e;
     quit_times := quit_times e;
     last_match := last_match e;
     direction := direction e;
     saved_hl_line := saved_hl_line e;
     saved_hl := saved_hl e |}.

Definition set_filename (v : option (list ascii)) (e : editorConfig) : editorConfig :=
  {| cx := cx e;
     cy := cy e;
     rx := rx e;
     row_offset := row_offset e;
     col_offset := col_offset e;
     screen_rows := screen_rows e;
     screen_cols := screen_cols e;
     row := row e;
     dirty := dirty e;
     filename := v;
     syntax := syntax e;
     quit_times := quit_times e;
     last_match := last_match e;
     direction := direction e;
     saved_hl_line := saved_hl_line e;
     saved_hl := saved_hl e |}.

Definition set_syntax (v : option editorSyntax) (e : editorConfig) : editorConfig :=
  {| cx := cx e;
     cy := cy e;
     rx := rx e;
     row_offset := row_offset e;
     col_offset := col_offset e;
     screen_rows := screen_rows e;
     screen_cols := screen_cols e;
     row := row e;
     dirty := dirty e;
     filename := filename e;
     syntax := v;
     quit_times := quit_times e;
     last_match := last_match e;
     direction := direction e;
     saved_hl_line := saved_hl_line e;
     saved_hl := saved_hl e |}.

Definition set_quit_times (v : Z) (e : editorConfig) : editorConfig :=
  {| cx := cx e;
     cy := cy e;
     rx := rx e;
     row_offset := row_offset e;
     col_offset := col_offset e;
     screen_rows := screen_rows e;
     screen_cols := screen_cols e;
     row := row e;
     dirty := dirty e;
     filename := filename e;
     syntax := syntax e;
     quit_times := v;
     last_match := last_match e;
     direction := direction e;
     saved_hl_line := saved_hl_line e;
     saved_hl := saved_hl e |}.

Definition set_last_match (v : Z) (e : editorConfig) : editorConfig :=
  {| cx := cx e;
     cy := cy e;
     rx := rx e;
     row_offset := row_offset e;
     col_offset := col_offset e;
     screen_rows := screen_rows e;
     screen_cols := screen_cols e;
     row := row e;
     dirty := dirty e;
     filename := filename e;
     syntax := syntax e;
     quit_times := quit_times e;
     last_match := v;
     direction := direction e;
     saved_hl_line := saved_hl_line e;
     saved_hl := saved_hl e |}.

Definition set_direction (v : Z) (e : editorConfig) : editorConfig :=
  {| cx := cx e;
     cy := cy e;
     rx := rx e;
     row_offset := row_offset e;
     col_offset := col_offset e;
     screen_rows := screen_rows e;
     screen_cols := screen_cols e;
     row := row e;
     dirty := dirty e;
     filename := filename e;
     syntax := syntax e;
     quit_times := quit_times e;
     last_match := last_match e;
     direction := v;
     saved_hl_line := saved_hl_line e;
     saved_hl := saved_hl e |}.

Definition set_saved_hl_line (v : Z) (e : editorConfig) : editorConfig :=
  {| cx := cx e;
     cy := cy e;
     rx := rx e;
     row_offset := row_offset e;
     col_offset := col_offset e;
     screen_rows := screen_rows e;
     screen_cols := screen_cols e;
     row := row e;
     dirty := dirty e;
     filename := filename e;
     syntax := syntax e;
     quit_times := quit_times e;
     last_match := last_match e;
     direction := direction e;
     saved_hl_line := v;
     saved_hl := saved_hl e |}.

Definition set_saved_hl (v : option (list editorHighlight)) (e : editorConfig) : editorConfig :=
  {| cx := cx e;
     cy := cy e;
     rx := rx e;
     row_offset := row_offset e;
     col_offset := col_offset e;
     screen_rows := screen_rows e;
     screen_cols := screen_cols e;
     row := row e;
     dirty := dirty e;
     filename := filename e;
     syntax := syntax e;
     quit_times := quit_times e;
     last_match := last_match e;
     direction := direction e;
     saved_hl_line := saved_hl_line e;
     saved_hl := v |}.

End E.

Abbreviation editorConfig := E.editorConfig.

(** [E.row[i]], read and written through a pointer into the array. *)
Definition row_at (e : editorConfig) (i : Z) : option erow :=
  load (E.row e) i.

Definition put_row (e : editorConfig) (i : Z) (r : erow)
  : option editorConfig :=
  rows ← store (E.row e) i r;
  Some (E.set_row rows e).

Definition bump_dirty (e : editorConfig) : editorConfig :=
  E.set_dirty (E.dirty e + 1) e.

(** ** File types *)

Definition C_HL_extensions : list (list ascii) :=
  [bytes ".c"; bytes ".h"; bytes ".cpp"].

Definition HLDB : list editorSyntax :=
  [ {| file_type := bytes "c";
       file_match := C_HL_extensions;
       singleline_comment_start := Some (bytes "//");
       flags := Z.lor HL_HIGHLIGHT_NUMBERS HL_HIGHLIGHT_STRINGS |} ].

Definition pattern_matches (fname : list ascii) (ext : option (list ascii))
    (pat : list ascii) : bool :=
  let is_ext := Ascii.eqb (hd NUL pat) DOT in
  (is_ext && match ext with Some x => strcmp_eq x pat | None => false end)
  || (negb is_ext && bool_decide (is_Some (strstr fname pat))).

Definition editorSelectSyntaxHighlight (e : editorConfig)
  : option editorConfig :=
  let e0 := E.set_syntax None e in
  match E.filename e with
  | None => Some e0
  | Some fname =>
      let ext := strrchr (c_str fname) DOT in
      match List.find (fun s => existsb (pattern_matches fname ext)
                                  (file_match s)) HLDB with
      | None => Some e0
      | Some s =>
          rows ← mapM (editorUpdateSyntax (Some s)) (E.row e0);
          Some (E.set_row rows (E.set_syntax (Some s) e0))
      end
  end.

(** ** Row operations on the document *)

(** [s] is the [len] bytes the caller passes. *)
Definition editorInsertRow (at_ : Z) (s : list ascii) (e : editorConfig)
  : option editorConfig :=
  if (at_ <? 0) || (at_ >? E.num_rows e) then Some e
  else
    r ← editorUpdateRow (E.syntax e) {| chars := s; render := []; hl := [] |};
    Some (bump_dirty
            (E.set_row (take (Z.to_nat at_) (E.row e) ++ r
                        :: drop (Z.to_nat at_) (E.row e)) e)).

Definition editorDelRow (at_ : Z) (e : editorConfig) : editorConfig :=
  if (at_ <? 0) || (at_ >=? E.num_rows e) then e
  else bump_dirty (E.set_row (delete (Z.to_nat at_) (E.row e)) e).

(** The row functions take [&E.row[idx]]; [c] is converted to [char]. *)
Definition editorRowInsertChar (idx at_ c : Z) (e : editorConfig)
  : option editorConfig :=
  r ← row_at e idx;
  let at_ := if (at_ <? 0) || (at_ >? size r) then size r else at_ in
  r' ← editorUpdateRow (E.syntax e)
         (set_chars r (take (Z.to_nat at_) (chars r) ++ char_of_Z c
                       :: drop (Z.to_nat at_) (chars r)));
  e' ← put_row e idx r';
  Some (bump_dirty e').

Definition editorRowAppendString (idx : Z) (s : list ascii)
    (e : editorConfig) : option editorConfig :=
  r ← row_at e idx;
  r' ← editorUpdateRow (E.syntax e) (set_chars r (chars r ++ s));
  e' ← put_row e idx r';
  Some (bump_dirty e').

Definition editorRowDelChar (idx at_ : Z) (e : editorConfig)
  : option editorConfig :=
  r ← row_at e idx;
  if (at_ <? 0) || (at_ >=? size r) then Some e
  else
    r' ← editorUpdateRow (E.syntax e)
           (set_chars r (delete (Z.to_nat at_) (chars r)));
    e' ← put_row e idx r';
    Some (bump_dirty e').

(** ** Editor operations *)

Definition editorInsertChar (c : Z) (e : editorConfig)
  : option editorConfig :=
  e1 ← (if E.cy e =? E.num_rows e
        then editorInsertRow (E.num_rows e) [] e else Some e);
  e2 ← editorRowInsertChar (E.cy e1) (E.cx e1) c e1;
  Some (E.set_cx (E.cx e2 + 1) e2).

(** In the split branch the tail [&row->chars[cx]] of [size - cx] bytes
    must lie inside the row. *)
Definition editorInsertNewline (e : editorConfig) : option editorConfig :=
  e1 ← (if E.cx e =? 0 then editorInsertRow (E.cy e) [] e
        else
          r ← row_at e (E.cy e);
          if (E.cx e <? 0) || (E.cx e >? size r) then None
          else
            e1 ← editorInsertRow (E.cy e + 1)
                   (drop (Z.to_nat (E.cx e)) (chars r)) e;
            r1 ← row_at e1 (E.cy e1);
            r2 ← editorUpdateRow (E.syntax e1)
                   (set_chars r1 (take (Z.to_nat (E.cx e1)) (chars r1)));
            put_row e1 (E.cy e1) r2);
  Some (E.set_cx 0 (E.set_cy (E.cy e1 + 1) e1)).

Definition editorDelChar (e : editorConfig) : option editorConfig :=
  if E.cy e =? E.num_rows e then Some e
  else if (E.cx e =? 0) && (E.cy e =? 0) then Some e
  else
    r ← row_at e (E.cy e);
    if E.cx e >? 0 then
      e1 ← editorRowDelChar (E.cy e) (E.cx e - 1) e;
      Some (E.set_cx (E.cx e1 - 1) e1)
    else
      prev ← row_at e (E.cy e - 1);
      let e1 := E.set_cx (size prev) e in
      e2 ← editorRowAppendString (E.cy e1 - 1) (chars r) e1;
      let e3 := editorDelRow (E.cy e2) e2 in
      Some (E.set_cy (E.cy e3 - 1) e3).

(** ** File I/O *)

Fixpoint editorRowsToString_len (rows : list erow) (total_len : Z) : Z :=
  match rows with
  | [] => total_len
  | r :: rows' => editorRowsToString_len rows' (total_len + (size r + 1))
  end.

Fixpoint editorRowsToString_copy (rows : list erow) (buff : list ascii)
  : list ascii :=
  match rows with
  | [] => buff
  | r :: rows' => editorRowsToString_copy rows' (buff ++ chars r ++ [NEWLINE])
  end.

(** The buffer written so far and the value stored in [*buff_len]. *)
Definition editorRowsToString (e : editorConfig) : list ascii * Z :=
  (editorRowsToString_copy (E.row e) [], editorRowsToString_len (E.row e) 0).

Definition CR : ascii := "013"%char.




(** ** Find *)

(** [malloc(n)] followed by [memcpy] of [n] entries of [src]. *)
Definition memdup {A} (src : list A) (n : Z) : option (list A) :=
  if (0 <=? n) && (n <=? len src) then Some (take (Z.to_nat n) src)
  else None.

(** The scan of [editorFindCallback], with [n] iterations left. *)
Fixpoint editorFindCallback_loop (n : nat) (query : list ascii)
    (current : Z) (e : editorConfig) : option editorConfig :=
  match n with
  | O => Some e
  | S n' =>
      let current := current + E.direction e in
      let current :=
        if current =? -1 then E.num_rows e - 1
        else if current =? E.num_rows e then 0
        else current in
      r ← row_at e current;
      match strstr (render r) query with
      | Some off =>
          let e1 := E.set_last_match current e in
          let e2 := E.set_cy current e1 in
          let e3 := E.set_cx (editorRowRxToCx r off) e2 in
          let e4 := E.set_row_offset (E.num_rows e3) e3 in
          let e5 := E.set_saved_hl_line current e4 in
          saved ← memdup (hl r) (rsize r);
          let e6 := E.set_saved_hl (Some saved) e5 in
          h ← memset (hl r) off HL_MATCH (strlen query);
          put_row e6 current (set_hl r h)
      | None => editorFindCallback_loop n' query current e
      end
  end.

(** The head of [editorFindCallback]: undo the overlay of the last
    match, if one was saved. *)
Definition editorFindCallback_restore (e : editorConfig)
  : option editorConfig :=
  match E.saved_hl e with
  | Some saved =>
      r ← row_at e (E.saved_hl_line e);
      h ← memcpy (hl r) saved (rsize r);
      e' ← put_row e (E.saved_hl_line e) (set_hl r h);
      Some (E.set_saved_hl None e')
  | None => Some e
  end.

(** The key decides where the scan starts and which way it goes. *)
Definition editorFindCallback_direction (key : Z) (e : editorConfig)
  : editorConfig :=
  let e :=
    if (key =? ARROW_RIGHT) || (key =? ARROW_DOWN) then E.set_direction 1 e
    else if (key =? ARROW_LEFT) || (key =? ARROW_UP)
         then E.set_direction (-1) e
    else E.set_direction 1 (E.set_last_match (-1) e) in
  if E.last_match e =? -1 then E.set_direction 1 e else e.

Definition editorFindCallback (query : list ascii) (key : Z)
    (e : editorConfig) : option editorConfig :=
  e ← editorFindCallback_restore e;
  if (key =? ENTER_KEY) || (key =? ESC_KEY) then
    Some (E.set_direction 1 (E.set_last_match (-1) e))
  else
    let e := editorFindCallback_direction key e in
    editorFindCallback_loop (Z.to_nat (E.num_rows e)) query
      (E.last_match e) e.

(** ** Output: the viewport *)

Definition editorScroll (e : editorConfig) : option editorConfig :=
  rx ← (if E.cy e <? E.num_rows e
        then r ← row_at e (E.cy e); editorRowCxToRx r (E.cx e)
        else Some 0);
  let e := E.set_rx rx e in
  let e := if E.cy e <? E.row_offset e
           then E.set_row_offset (E.cy e) e else e in
  let e := if E.cy e >=? E.row_offset e + E.screen_rows e
           then E.set_row_offset (E.cy e - E.screen_rows e + 1) e else e in
  let e := if E.rx e <? E.col_offset e
           then E.set_col_offset (E.rx e) e else e in
  let e := if E.rx e >=? E.col_offset e + E.screen_cols e
           then E.set_col_offset (E.rx e - E.screen_cols e + 1) e else e in
  Some e.

(** Of [editorRefreshScreen] only the scroll changes the state. *)
Definition editorRefreshScreen (e : editorConfig) : option editorConfig :=
  editorScroll e.

(** ** Input: cursor movement *)

(** The [switch] of [editorMoveCursor]. *)
Definition editorMoveCursor_switch (key : Z) (e : editorConfig)
  : option editorConfig :=
  if key =? ARROW_LEFT then
    if negb (E.cx e =? 0) then Some (E.set_cx (E.cx e - 1) e)
    else if E.cy e >? 0 then
      let e' := E.set_cy (E.cy e - 1) e in
      r ← row_at e' (E.cy e');
      Some (E.set_cx (size r) e')
    else Some e
  else if key =? ARROW_RIGHT then
    if E.cy e >=? E.num_rows e then Some e
    else
      r ← row_at e (E.cy e);
      if E.cx e <? size r then Some (E.set_cx (E.cx e + 1) e)
      else if E.cx e =? size r
           then Some (E.set_cx 0 (E.set_cy (E.cy e + 1) e))
      else Some e
  else if key =? ARROW_UP then
    if negb (E.cy e =? 0) then Some (E.set_cy (E.cy e - 1) e)
    else Some e
  else if key =? ARROW_DOWN then
    if E.cy e <? E.num_rows e then Some (E.set_cy (E.cy e + 1) e)
    else Some e
  else Some e.

(** The switch, then the clamp of [cx] to the length of the new row. *)
Definition editorMoveCursor (key : Z) (e : editorConfig)
  : option editorConfig :=
  e1 ← editorMoveCursor_switch key e;
  row_len ← (if E.cy e1 >=? E.num_rows e1 then Some 0
             else r ← row_at e1 (E.cy e1); Some (size r));
  Some (if E.cx e1 >? row_len then E.set_cx row_len e1 else e1).

(** ** Terminal input: the key decoder

    Each call of [read(STDIN_FILENO, &c, 1)] yields one byte, nothing
    (a timeout, or [EAGAIN]), or fails with another error.  Once the
    recorded input is used up every further read times out. *)

Inductive read_result : Type :=
| ReadByte (c : ascii)
| ReadNone
| ReadFail.

(** What a call of [editorReadKey] comes to: a key and the unread input,
    [die("read")], or still waiting for the first byte. *)
Inductive key_result : Type :=
| Key (k : Z) (rest : list read_result)
| Die
| Waiting.

Definition read1 (inp : list read_result) : read_result * list read_result :=
  match inp with
  | [] => (ReadNone, [])
  | r :: inp' => (r, inp')
  end.

(** A [char] converted to [int] ([char] is signed on the usual ABIs). *)
Definition int_of_char (c : ascii) : Z :=
  if Z_of_char c <? 128 then Z_of_char c else Z_of_char c - 256.

Definition ESC : ascii := "027"%char.

(** The part of [editorReadKey] that follows an escape byte. *)
Definition editorReadKey_escape (inp : list read_result) : key_result :=
  match read1 inp with
  | (ReadByte s0, inp1) =>
      match read1 inp1 with
      | (ReadByte s1, inp2) =>
          if Ascii.eqb s0 "["%char then
            if (Z_of_char "0" <=? Z_of_char s1)
               && (Z_of_char s1 <=? Z_of_char "9") then
              match read1 inp2 with
              | (ReadByte s2, inp3) =>
                  if Ascii.eqb s2 "~"%char then
                    if Ascii.eqb s1 "1" then Key HOME_KEY inp3
                    else if Ascii.eqb s1 "3" then Key DEL_KEY inp3
                    else if Ascii.eqb s1 "4" then Key END_KEY inp3
                    else if Ascii.eqb s1 "5" then Key PAGE_UP inp3
                    else if Ascii.eqb s1 "6" then Key PAGE_DOWN inp3
                    else if Ascii.eqb s1 "7" then Key HOME_KEY inp3
                    else if Ascii.eqb s1 "8" then Key END_KEY inp3
                    else Key ESC_KEY inp3
                  else Key ESC_KEY inp3
              | (_, inp3) => Key ESC_KEY inp3
              end
            else if Ascii.eqb s1 "A" then Key ARROW_UP inp2
            else if Ascii.eqb s1 "B" then Key ARROW_DOWN inp2
            else if Ascii.eqb s1 "C" then Key ARROW_RIGHT inp2
            else if Ascii.eqb s1 "D" then Key ARROW_LEFT inp2
            else if Ascii.eqb s1 "H" then Key HOME_KEY inp2
            else if Ascii.eqb s1 "F" then Key END_KEY inp2
            else Key ESC_KEY inp2
          else if Ascii.eqb s0 "O"%char then
            if Ascii.eqb s1 "H" then Key HOME_KEY inp2
            else if Ascii.eqb s1 "F" then Key END_KEY inp2
            else Key ESC_KEY inp2
          else Key ESC_KEY inp2
      | (_, inp2) => Key ESC_KEY inp2
      end
  | (_, inp1) => Key ESC_KEY inp1
  end.

Fixpoint editorReadKey (inp : list read_result) : key_result :=
  match inp with
  | [] => Waiting
  | ReadNone :: inp' => editorReadKey inp'
  | ReadFail :: _ => Die
  | ReadByte c :: inp' =>
      if Ascii.eqb c ESC then editorReadKey_escape inp'
      else Key (int_of_char c) inp'
  end.

(** ** Input: prompts and key dispatch

    The functions below consume [keys], the successive results of
    [editorReadKey]. *)

Inductive outcome (A : Type) : Type :=
| Ret (a : A) (e : editorConfig) (keys : list Z)  (* returned *)
| AwaitKey (e : editorConfig)   (* blocked in editorReadKey, no key left *)
| Exited (e : editorConfig)     (* exit(0) *)
| Undefined.                    (* undefined behaviour *)

Arguments Ret {A} a e keys.
Arguments AwaitKey {A} e.
Arguments Exited {A} e.
Arguments Undefined {A}.

Definition callback_t : Type :=
  list ascii -> Z -> editorConfig -> option editorConfig.

Definition run_callback (callback : option callback_t) (buff : list ascii)
    (c : Z) (e : editorConfig) : option editorConfig :=
  match callback with
  | Some f => f buff c e
  | None => Some e
  end.

(** [editorPrompt]; [buff] starts empty.  Returns the text, or [None]
    for the [NULL] of a cancelled prompt. *)
Fixpoint editorPrompt_loop (callback : option callback_t) (keys : list Z)
    (buff : list ascii) (e : editorConfig) : outcome (option (list ascii)) :=
  match editorRefreshScreen e with
  | None => Undefined
  | Some e =>
      match keys with
      | [] => AwaitKey e
      | c :: keys' =>
          (* the call of the callback that ends an iteration *)
          let next (buff : list ascii) :=
            match run_callback callback buff c e with
            | None => Undefined
            | Some e => editorPrompt_loop callback keys' buff e
            end in
          if (c =? DEL_KEY) || (c =? CTRL_KEY "h") || (c =? BACKSPACE) then
            next (removelast buff)
          else if c =? ESC_KEY then
            match run_callback callback buff c e with
            | None => Undefined
            | Some e => Ret None e keys'
            end
          else if c =? ENTER_KEY then
            if negb (len buff =? 0) then
              match run_callback callback buff c e with
              | None => Undefined
              | Some e => Ret (Some buff) e keys'
              end
            else next buff
          else if negb (iscntrl c) && (c <? 128) then
            next (buff ++ [char_of_Z c])
          else next buff
      end
  end.

Definition editorPrompt (callback : option callback_t) (keys : list Z)
    (e : editorConfig) : outcome (option (list ascii)) :=
  editorPrompt_loop callback keys [] e.

Definition editorFind (keys : list Z) (e : editorConfig) : outcome unit :=
  let saved_cx := E.cx e in
  let saved_cy := E.cy e in
  let saved_col_offset := E.col_offset e in
  let saved_row_offset := E.row_offset e in
  match editorPrompt (Some editorFindCallback) keys e with
  | Ret (Some _) e' keys' => Ret tt e' keys'
  | Ret None e' keys' =>
      Ret tt (E.set_row_offset saved_row_offset
                (E.set_col_offset saved_col_offset
                   (E.set_cy saved_cy (E.set_cx saved_cx e')))) keys'
  | AwaitKey e' => AwaitKey e'
  | Exited e' => Exited e'
  | Undefined => Undefined
  end.

Fixpoint repeat_move (n : nat) (key : Z) (e : editorConfig)
  : option editorConfig :=
  match n with
  | O => Some e
  | S n' => e' ← editorMoveCursor key e; repeat_move n' key e'
  end.

Section Editor.

(** The file collaborator: whether writing these bytes to this path
    (open, truncate, write) succeeds. *)
Variable file_write : list ascii -> list ascii -> bool.

Definition editorSave_write (keys : list Z) (e : editorConfig)
  : outcome unit :=
  let '(buff, _) := editorRowsToString e in
  if file_write (default [] (E.filename e)) buff
  then Ret tt (E.set_dirty 0 e) keys
  else Ret tt e keys.

Definition editorSave (keys : list Z) (e : editorConfig) : outcome unit :=
  match E.filename e with
  | Some _ => editorSave_write keys e
  | None =>
      match editorPrompt None keys e with
      | Ret None e' keys' => Ret tt e' keys'
      | Ret (Some name) e' keys' =>
          match editorSelectSyntaxHighlight
                  (E.set_filename (Some name) e') with
          | None => Undefined
          | Some e'' => editorSave_write keys' e''
          end
      | AwaitKey e' => AwaitKey e'
      | Exited e' => Exited e'
      | Undefined => Undefined
      end
  end.

(** The cases of the [switch] that neither prompt nor exit. *)
Definition editorProcessKeypress_edit (c : Z) (e : editorConfig)
  : option editorConfig :=
  if c =? ENTER_KEY then editorInsertNewline e
  else if c =? HOME_KEY then Some (E.set_cx 0 e)
  else if c =? END_KEY then
    if E.cy e <? E.num_rows e
    then r ← row_at e (E.cy e); Some (E.set_cx (size r) e)
    else Some e
  else if (c =? BACKSPACE) || (c =? CTRL_KEY "h") || (c =? DEL_KEY) then
    e1 ← (if c =? DEL_KEY then editorMoveCursor ARROW_RIGHT e else Some e);
    editorDelChar e1
  else if (c =? PAGE_UP) || (c =? PAGE_DOWN) then
    let e1 :=
      if c =? PAGE_UP then E.set_cy (E.row_offset e) e
      else
        let e' := E.set_cy (E.row_offset e + E.screen_rows e - 1) e in
        if E.cy e' >? E.num_rows e' then E.set_cy (E.num_rows e') e'
        else e' in
    (* [while (rows--)] overflows when it starts below zero *)
    if E.screen_rows e1 <? 0 then None
    else repeat_move (Z.to_nat (E.screen_rows e1))
           (if c =? PAGE_UP then ARROW_UP else ARROW_DOWN) e1
  else if (c =? ARROW_UP) || (c =? ARROW_DOWN) || (c =? ARROW_LEFT)
          || (c =? ARROW_RIGHT) then editorMoveCursor c e
  else if (c =? CTRL_KEY "l") || (c =? ESC_KEY) then Some e
  else editorInsertChar c e.

Definition editorProcessKeypress (keys : list Z) (e : editorConfig)
  : outcome unit :=
  match keys with
  | [] => AwaitKey e
  | c :: keys' =>
      let finish (o : outcome unit) : outcome unit :=
        match o with
        | Ret _ e' keys'' => Ret tt (E.set_quit_times EDI_QUIT_TIMES e') keys''
        | _ => o
        end in
      if c =? CTRL_KEY "q" then
        if negb (E.dirty e =? 0) && (E.quit_times e >? 0)
        then Ret tt (E.set_quit_times (E.quit_times e - 1) e) keys'
        else Exited e
      else if c =? CTRL_KEY "s" then finish (editorSave keys' e)
      else if c =? CTRL_KEY "f" then finish (editorFind keys' e)
      else
        match editorProcessKeypress_edit c e with
        | None => Undefined
        | Some e' => Ret tt (E.set_quit_times EDI_QUIT_TIMES e') keys'
        end
  end.

(** [while (1) { editorRefreshScreen(); editorProcessKeypress(); }],
    unrolled [fuel] times; every iteration consumes a key, so a run
    with as many iterations as keys ends waiting for input, exited or
    undefined (see [main_loop_consumes]). *)
Fixpoint main_loop (fuel : nat) (keys : list Z) (e : editorConfig)
  : outcome unit :=
  match fuel with
  | O => Ret tt e keys
  | S fuel' =>
      match editorRefreshScreen e with
      | None => Undefined
      | Some e1 =>
          match editorProcessKeypress keys e1 with
          | Ret _ e2 keys' => main_loop fuel' keys' e2
          | o => o
          end
      end
  end.

End Editor.

(** ** Init *)

(** [ws_row] and [ws_col] are the terminal size [getWindowSize] found. *)
Definition initEditor (ws_row ws_col : Z) : editorConfig :=
  {| E.cx := 0; E.cy := 0; E.rx := 0;
     E.row_offset := 0; E.col_offset := 0;
     E.screen_rows := ws_row - 2; E.screen_cols := ws_col;
     E.row := []; E.dirty := 0; E.filename := None; E.syntax := None;
     E.quit_times := EDI_QUIT_TIMES;
     E.last_match := -1; E.direction := 1;
     E.saved_hl_line := 0; E.saved_hl := None |}.

(** ** Invariants of the editor state *)

(** One highlight class per byte of the render string. *)
Definition row_hl_ok (r : erow) : Prop := length (hl r) = length (render r).

Definition rows_hl_ok (e : editorConfig) : Prop := Forall row_hl_ok (E.row e).

(** The length [editorMoveCursor] clamps the column to: the size of the
    row under the cursor, 0 on the virtual row past the last one. *)
Definition row_len (e : editorConfig) (i : Z) : Z :=
  match row_at e i with
  | Some r => size r
  | None => 0
  end.

Definition cursor_ok (e : editorConfig) : Prop :=
  0 <= E.cy e <= E.num_rows e /\ 0 <= E.cx e <= row_len e (E.cy e).

(** The cursor bounds of the data model: [0 <= cy <= num_rows], and on a
    real row [0 <= cx <= row.size]. *)
Definition cursor_bounds (e : editorConfig) : Prop :=
  0 <= E.cy e <= E.num_rows e /\
  (E.cy e < E.num_rows e ->
   exists r, row_at e (E.cy e) = Some r /\ 0 <= E.cx e <= size r).

(** The statics of [editorFindCallback] during a search: the last match
    is a row or -1, and a saved highlight belongs to an existing row. *)
Definition search_ok (e : editorConfig) : Prop :=
  -1 <= E.last_match e < E.num_rows e /\
  match E.saved_hl e with
  | None => True
  | Some saved =>
      exists r, row_at e (E.saved_hl_line e) = Some r /\ len saved = rsize r
  end.

(** Outside a search the statics are back to their initial values. *)
Definition search_idle (e : editorConfig) : Prop :=
  E.last_match e = -1 /\ E.direction e = 1 /\ E.saved_hl e = None.


(** ** The operations that change a row or its highlighting *)

Inductive mutation : Type :=
| InsertRow (at_ : Z) (s : list ascii)
| DelRow (at_ : Z)
| RowInsertChar (idx at_ c : Z)
| RowDelChar (idx at_ : Z)
| RowAppendString (idx : Z) (s : list ascii)
| InsertChar (c : Z)
| DelChar
| InsertNewline
| SelectSyntaxHighlight
| FindStep (query : list ascii) (key : Z).

Definition apply_mutation (m : mutation) (e : editorConfig)
  : option editorConfig :=
  match m with
  | InsertRow at_ s => editorInsertRow at_ s e
  | DelRow at_ => Some (editorDelRow at_ e)
  | RowInsertChar idx at_ c => editorRowInsertChar idx at_ c e
  | RowDelChar idx at_ => editorRowDelChar idx at_ e
  | RowAppendString idx s => editorRowAppendString idx s e
  | InsertChar c => editorInsertChar c e
  | DelChar => editorDelChar e
  | InsertNewline => editorInsertNewline e
  | SelectSyntaxHighlight => editorSelectSyntaxHighlight e
  | FindStep query key => editorFindCallback query key e
  end.

(** What each operation needs for its array accesses to be in range. *)
Definition mutation_defined (m : mutation) (e : editorConfig) : Prop :=
  match m with
  | InsertRow _ _ | DelRow _ | SelectSyntaxHighlight => True
  | RowInsertChar idx _ _ | RowDelChar idx _ | RowAppendString idx _ =>
      0 <= idx < E.num_rows e
  | InsertChar _ | DelChar | InsertNewline => cursor_ok e
  | FindStep _ _ => search_ok e
  end.

(** The row [editorUpdateRow] leaves behind for the bytes [cs]: its
    render string and highlighting depend on [cs] and the profile only. *)
Definition blank_row (cs : list ascii) : erow :=
  {| chars := cs; render := []; hl := [] |}.

Definition make_row (syn : option editorSyntax) (cs : list ascii) : erow :=
  default (blank_row cs) (editorUpdateRow syn (blank_row cs)).

(** Every row is the rendering of its bytes under the active profile. *)
Definition rows_fresh (e : editorConfig) : Prop :=
  Forall (fun r => r = make_row (E.syntax e) (chars r)) (E.row e).

(** [e'] differs from [e] at most in the cursor, the rows and the dirty
    counter. *)
Definition same_frame (e e' : editorConfig) : Prop :=
  E.rx e' = E.rx e /\
  E.row_offset e' = E.row_offset e /\
  E.col_offset e' = E.col_offset e /\
  E.screen_rows e' = E.screen_rows e /\
  E.screen_cols e' = E.screen_cols e /\
  E.filename e' = E.filename e /\
  E.syntax e' = E.syntax e /\
  E.quit_times e' = E.quit_times e /\
  E.last_match e' = E.last_match e /\
  E.direction e' = E.direction e /\
  E.saved_hl_line e' = E.saved_hl_line e /\
  E.saved_hl e' = E.saved_hl e.

(** ** Sample documents *)

(** A document of 100 empty rows on a terminal of 22 lines, that is a
    viewport of 20 rows. *)
Definition hundred_rows : editorConfig :=
  E.set_row (replicate 100 (make_row None [])) (initEditor 22 80).

(** The decoding table as the specification words it: the bytes that
    follow the escape byte, and the key they stand for. *)
Definition spec_decoding_table : list (list ascii * Z) :=
  [ (bytes "[A", ARROW_UP); (bytes "[B", ARROW_DOWN);
    (bytes "[C", ARROW_RIGHT); (bytes "[D", ARROW_LEFT);
    (bytes "[H", HOME_KEY); (bytes "OH", HOME_KEY);
    (bytes "[F", END_KEY); (bytes "OF", END_KEY);
    (bytes "[1~", HOME_KEY); (bytes "[7~", HOME_KEY);
    (bytes "[3~", DEL_KEY);
    (bytes "[4~", END_KEY); (bytes "[8~", END_KEY);
    (bytes "[5~", PAGE_UP); (bytes "[6~", PAGE_DOWN) ].

(** ** The search, as the specification words it *)

(** Where a search step starts and which way it goes: the arrow keys
    continue from the last match, forward for Right and Down, backward
    for Left and Up; any other key starts afresh, forward; without a
    last match the search goes forward. *)
Definition search_start (key : Z) (e : editorConfig) : Z :=
  if (key =? ARROW_RIGHT) || (key =? ARROW_DOWN)
     || (key =? ARROW_LEFT) || (key =? ARROW_UP)
  then E.last_match e else -1.

Definition search_direction (key : Z) (e : editorConfig) : Z :=
  if search_start key e =? -1 then 1
  else if (key =? ARROW_LEFT) || (key =? ARROW_UP) then -1
  else 1.

(** The [k]-th row visited by a scan of [n] rows that starts next to
    [last] and moves by [dir], wrapping past either end. *)
Definition scan_index (n last dir k : Z) : Z := (last + dir * k) mod n.

(** Row [i] does not contain the query. *)
Definition no_match (query : list ascii) (e : editorConfig) (i : Z) : Prop :=
  forall r, row_at e i = Some r -> strstr (render r) query = None.

(** [e'] is [e] after a match of the query in row [i]: the cursor is on
    the match, the row's classes are saved and overlaid with
    [HL_MATCH], and nothing else changes. *)
Definition match_found (query : list ascii) (e e' : editorConfig) (i : Z)
  : Prop :=
  exists r off h,
    row_at e i = Some r /\
    strstr (render r) query = Some off /\
    memset (hl r) off HL_MATCH (strlen query) = Some h /\
    E.last_match e' = i /\ E.cy e' = i /\
    E.cx e' = editorRowRxToCx r off /\
    E.row_offset e' = E.num_rows e /\
    E.saved_hl_line e' = i /\ E.saved_hl e' = Some (hl r) /\
    E.row e' = <[Z.to_nat i := set_hl r h]> (E.row e) /\
    E.direction e' = E.direction e /\
    E.screen_rows e' = E.screen_rows e /\
    E.screen_cols e' = E.screen_cols e /\
    E.syntax e' = E.syntax e /\ E.filename e' = E.filename e /\
    E.quit_times e' = E.quit_times e /\ E.dirty e' = E.dirty e /\
    E.rx e' = E.rx e /\ E.col_offset e' = E.col_offset e.

(** The two states hold the same text: only highlight classes differ. *)
Definition same_text (e e' : editorConfig) : Prop :=
  map chars (E.row e') = map chars (E.row e) /\
  map render (E.row e') = map render (E.row e).


(** The invariant between two keys of the main loop. *)
Definition editor_idle_ok (e : editorConfig) : Prop :=
  cursor_ok e /\ 0 <= E.row_offset e /\ rows_hl_ok e /\ search_idle e.



(** The rows ["foo"], ["bar"], ["baz"] without a syntax profile, the
    cursor at the start of the second one. *)
Definition three_rows : editorConfig :=
  E.set_cy 1
    (E.set_row [make_row None (bytes "foo"); make_row None (bytes "bar");
                make_row None (bytes "baz")] (initEditor 24 80)).

(** The rows ["a"], ["bb"]. *)
Definition two_rows : editorConfig :=
  E.set_row [make_row None (bytes "a"); make_row None (bytes "bb")]
    (initEditor 24 80).

(** The highlight classes a profile can produce: [HL_MATCH] belongs to
    the search alone, and each other class needs its flag or a comment
    marker. *)
Definition hl_allowed (syn : option editorSyntax) (h : editorHighlight)
  : Prop :=
  match h, syn with
  | HL_NORMAL, _ => True
  | HL_MATCH, _ => False
  | _, None => False
  | HL_COMMENT, Some s =>
      strlen (default [] (singleline_comment_start s)) <> 0
  | HL_STRING, Some s => has_flag s HL_HIGHLIGHT_STRINGS = true
  | HL_NUMBER, Some s => has_flag s HL_HIGHLIGHT_NUMBERS = true
  end.


(** The file name, as a C string, ends in a dot followed by one of the
    extensions of the C profile. *)
Definition has_C_extension (fname : list ascii) : Prop :=
  exists stem ext,
    c_str fname = stem ++ DOT :: ext /\
    (ext = bytes "c" \/ ext = bytes "h" \/ ext = bytes "cpp").

(** [e'] holds the same document as [e]: rows, dirty counter, file name
    and profile. *)
Definition same_document (e e' : editorConfig) : Prop :=
  E.row e' = E.row e /\ E.dirty e' = E.dirty e /\
  E.filename e' = E.filename e /\ E.syntax e' = E.syntax e.

(** The document as the bytes of its file, and the cursor as an offset
    into them: the bytes [editorRowsToString] counts for the rows above
    the cursor, plus the column. *)
Definition file_bytes (rows : list erow) : list ascii :=
  concat (map (fun r => chars r ++ [NEWLINE]) rows).

Definition cursor_offset (e : editorConfig) : Z :=
  editorRowsToString_len (take (Z.to_nat (E.cy e)) (E.row e)) 0 + E.cx e.

(** ** Output: drawing

    The screen is built in an append buffer and written at once.
    [abuffAppend ab s]: [s] is the [len] bytes the caller passes, and
    [realloc] is taken to succeed. *)

Definition EDI_VERSION : list ascii := bytes "0.0.1".

Definition abuffAppend (ab s : list ascii) : list ascii := ab ++ s.

Definition editorSyntaxToColor (hl : editorHighlight) : Z :=
  match hl with
  | HL_COMMENT => 36
  | HL_STRING => 35
  | HL_NUMBER => 31
  | HL_MATCH => 34
  | HL_NORMAL => 37
  end.

(** [%d] of [snprintf]. *)
Definition decimal (z : Z) : list ascii :=
  list_ascii_of_string (NilZero.string_of_int (Z.to_int z)).

(** [snprintf(buff, sizeof(buff), "\x1b[%dm", color)] *)
Definition color_sequence (color : Z) : list ascii :=
  ESC :: "["%char :: decimal color ++ ["m"%char].

(** The loop over the visible bytes of a row, with [n] iterations left;
    [c] and [hl] point at [render[col_offset]] and [hl[col_offset]]. *)
Fixpoint editorDrawRows_text (n : nat) (c : list ascii)
    (hl : list editorHighlight) (j current_color : Z) (ab : list ascii)
  : option (list ascii) :=
  match n with
  | O => Some ab
  | S n' =>
      h ← load hl j;
      ch ← load c j;
      if editorHighlight_eqb h HL_NORMAL then
        let ab :=
          if negb (current_color =? -1)
          then abuffAppend ab (ESC :: bytes "[39m") else ab in
        editorDrawRows_text n' c hl (j + 1) (-1) (abuffAppend ab [ch])
      else
        let color := editorSyntaxToColor h in
        let ab :=
          if negb (current_color =? color)
          then abuffAppend ab (color_sequence color) else ab in
        editorDrawRows_text n' c hl (j + 1) color (abuffAppend ab [ch])
  end.

(** [snprintf(welcome, sizeof(welcome), "EDItor -- version %s",
    EDI_VERSION)]: 23 bytes. *)
Definition welcome_message : list ascii :=
  bytes "EDItor -- version " ++ EDI_VERSION.

(** The body of the loop of [editorDrawRows] for screen line [y].
    Appending a negative number of bytes, or reading before the start
    of [render], is undefined; [while (padding--)] starts from a
    non-negative count. *)
Definition editorDrawRows_line (e : editorConfig) (y : Z) (ab : list ascii)
  : option (list ascii) :=
  let file_row := y + E.row_offset e in
  ab ← (if file_row >=? E.num_rows e then
          if (E.num_rows e =? 0) && (y =? Z.quot (E.screen_rows e) 3) then
            let welcome_len := len welcome_message in
            let welcome_len :=
              if welcome_len >? E.screen_cols e then E.screen_cols e
              else welcome_len in
            let padding := Z.quot (E.screen_cols e - welcome_len) 2 in
            let '(ab, padding) :=
              if negb (padding =? 0)
              then (abuffAppend ab (bytes "~"), padding - 1)
              else (ab, padding) in
            if welcome_len <? 0 then None
            else
              let ab := abuffAppend ab (replicate (Z.to_nat padding) SPACE) in
              Some (abuffAppend ab
                      (take (Z.to_nat welcome_len) welcome_message))
          else Some (abuffAppend ab (bytes "~"))
        else
          r ← row_at e file_row;
          let n := rsize r - E.col_offset e in
          let n := if n <? 0 then 0 else n in
          let n := if n >? E.screen_cols e then E.screen_cols e else n in
          if E.col_offset e <? 0 then None
          else
            ab ← editorDrawRows_text (Z.to_nat n)
                   (drop (Z.to_nat (E.col_offset e)) (render r))
                   (drop (Z.to_nat (E.col_offset e)) (hl r)) 0 (-1) ab;
            Some (abuffAppend ab (ESC :: bytes "[39m")));
  let ab := abuffAppend ab (ESC :: bytes "[K") in
  Some (abuffAppend ab [CR; NEWLINE]).

Fixpoint editorDrawRows_loop (n : nat) (e : editorConfig) (y : Z)
    (ab : list ascii) : option (list ascii) :=
  match n with
  | O => Some ab
  | S n' =>
      ab ← editorDrawRows_line e y ab;
      editorDrawRows_loop n' e (y + 1) ab
  end.

Definition editorDrawRows (e : editorConfig) (ab : list ascii)
  : option (list ascii) :=
  editorDrawRows_loop (Z.to_nat (E.screen_rows e)) e 0 ab.

(** The padding loop of [editorDrawStatusBar]; [screen_cols - len]
    iterations are enough. *)
Fixpoint editorDrawStatusBar_loop (fuel : nat) (e : editorConfig)
    (rstatus : list ascii) (len_ : Z) (ab : list ascii) : list ascii :=
  if len_ <? E.screen_cols e then
    match fuel with
    | O => ab
    | S fuel' =>
        if E.screen_cols e - len_ =? len rstatus
        then abuffAppend ab rstatus
        else editorDrawStatusBar_loop fuel' e rstatus (len_ + 1)
               (abuffAppend ab [SPACE])
    end
  else ab.

(** [snprintf(status, sizeof(status), "%.20s - %d lines %s", ...)] and
    [snprintf(rstatus, sizeof(rstatus), "%s | %d/%d", ...)], before
    truncation to the buffer. *)
Definition editorDrawStatusBar_status (e : editorConfig) : list ascii :=
  take 20 (c_str (default (bytes "[No Name]") (E.filename e)))
  ++ bytes " - " ++ decimal (E.num_rows e) ++ bytes " lines "
  ++ (if negb (E.dirty e =? 0) then bytes "(modified)" else []).

Definition editorDrawStatusBar_rstatus (e : editorConfig) : list ascii :=
  c_str (match E.syntax e with
         | Some s => file_type s
         | None => bytes "No FT"
         end)
  ++ bytes " | " ++ decimal (E.cy e + 1) ++ bytes "/"
  ++ decimal (E.num_rows e).

(** Both texts must fit their 80-byte buffers for the bytes appended to
    be the formatted text; a negative [screen_cols] would append a
    negative number of bytes. *)
Definition editorDrawStatusBar (e : editorConfig) (ab : list ascii)
  : option (list ascii) :=
  let ab := abuffAppend ab (ESC :: bytes "[7m") in
  let status := editorDrawStatusBar_status e in
  let rstatus := editorDrawStatusBar_rstatus e in
  if (len status >=? 80) || (len rstatus >=? 80) || (E.screen_cols e <? 0)
  then None
  else
    let len_ :=
      if len status >? E.screen_cols e then E.screen_cols e
      else len status in
    let ab := abuffAppend ab (take (Z.to_nat len_) status) in
    let ab :=
      editorDrawStatusBar_loop (Z.to_nat (E.screen_cols e - len_)) e rstatus
        len_ ab in
    let ab := abuffAppend ab (ESC :: bytes "[m") in
    Some (abuffAppend ab [CR; NEWLINE]).

(** ** What the terminal shows

    A terminal that understands the colour commands [ESC [ d d m]: the
    bytes it prints, each with the foreground colour in force. *)

Definition digit (c : ascii) : Z := Z_of_char c - 48.

Fixpoint shown (out : list ascii) (color : Z) : list (ascii * Z) :=
  match out with
  | [] => []
  | c :: rest =>
      if Ascii.eqb c ESC then
        match rest with
        | b :: d1 :: d2 :: m :: rest' =>
            if Ascii.eqb b "[" && Ascii.eqb m "m"
            then shown rest' (10 * digit d1 + digit d2)
            else []
        | _ => []
        end
      else (c, color) :: shown rest color
  end.

(** The colour of a cell: the class's colour, the default foreground
    (39) for normal text. *)
Definition cell_color (h : editorHighlight) : Z :=
  if editorHighlight_eqb h HL_NORMAL then 39 else editorSyntaxToColor h.

(** The part of a row's array that falls in the window: at most
    [screen_cols] cells from column [col_offset]. *)
Definition visible {A} (e : editorConfig) (l : list A) : list A :=
  take (Z.to_nat (E.screen_cols e)) (drop (Z.to_nat (E.col_offset e)) l).


(* ================================================================== *)
(** * Properties *)
(* ================================================================== *)

(** Turn the boolean comparisons found in hypotheses into propositions. *)
Ltac zbool :=
  repeat match goal with
  | H : (_ <? _) = true |- _ => apply Z.ltb_lt in H
  | H : (_ <? _) = false |- _ => apply Z.ltb_ge in H
  | H : (_ <=? _) = true |- _ => apply Z.leb_le in H
  | H : (_ <=? _) = false |- _ => apply Z.leb_gt in H
  | H : (_ >? _) = true |- _ => rewrite Z.gtb_ltb in H
  | H : (_ >? _) = false |- _ => rewrite Z.gtb_ltb in H
  | H : (_ >=? _) = true |- _ => rewrite Z.geb_leb in H
  | H : (_ >=? _) = false |- _ => rewrite Z.geb_leb in H
  | H : (_ =? _) = true |- _ => apply Z.eqb_eq in H
  | H : (_ =? _) = false |- _ => apply Z.eqb_neq in H
  | H : negb _ = true |- _ => apply negb_true_iff in H
  | H : negb _ = false |- _ => apply negb_false_iff in H
  | H : _ && _ = true |- _ => apply andb_true_iff in H as [? ?]
  | H : _ || _ = false |- _ => apply orb_false_iff in H as [? ?]
  end.

(** Case analysis on the innermost conditions of the goal. *)
Ltac case_ifs :=
  repeat (match goal with
          | |- context [if ?b then _ else _] =>
              lazymatch b with
              | context [if _ then _ else _] => fail
              | _ => destruct b eqn:?
              end
          end; simpl).

(** ** Coordinate conversion *)

Lemma len_nonneg {A} (l : list A) : 0 <= len l.
Proof. unfold len. lia. Qed.

Lemma len_app {A} (l k : list A) : len (l ++ k) = len l + len k.
Proof. unfold len. rewrite length_app. lia. Qed.

Lemma len_cons {A} (x : A) (l : list A) : len (x :: l) = 1 + len l.
Proof. unfold len. simpl. lia. Qed.

Lemma advance_bounds c rx : 0 <= rx -> rx + 1 <= advance c rx <= rx + 8.
Proof.
  intros Hrx. unfold advance, EDI_TAB_STOP.
  pose proof (Z.rem_bound_pos rx 8 Hrx ltac:(lia)).
  destruct (Ascii.eqb c TAB); lia.
Qed.

Lemma width_from_bounds cs : forall rx,
  0 <= rx -> rx + len cs <= width_from cs rx <= rx + 8 * len cs.
Proof.
  induction cs as [|c cs IH]; intros rx Hrx; simpl.
  - unfold len; simpl; lia.
  - pose proof (advance_bounds c rx Hrx).
    specialize (IH (advance c rx) ltac:(lia)).
    rewrite len_cons. lia.
Qed.

Lemma width_from_app cs1 cs2 rx :
  width_from (cs1 ++ cs2) rx = width_from cs2 (width_from cs1 rx).
Proof. unfold width_from. apply fold_left_app. Qed.

Lemma char_at_lookup r j c :
  chars r !! j = Some c -> char_at r (Z.of_nat j) = Some c.
Proof.
  intros H. pose proof (lookup_lt_Some _ _ _ H) as Hlt.
  unfold char_at, size, len.
  destruct (Z.ltb_spec (Z.of_nat j) 0); [lia|].
  destruct (Z.ltb_spec (Z.of_nat j) (Z.of_nat (length (chars r)))); [|lia].
  by rewrite Nat2Z.id.
Qed.

Lemma editorRowCxToRx_loop_width r : forall n j rx,
  (j + n <= length (chars r))%nat ->
  editorRowCxToRx_loop r n (Z.of_nat j) rx
  = Some (width_from (take n (drop j (chars r))) rx).
Proof.
  induction n as [|n IH]; intros j rx Hle; simpl.
  - done.
  - destruct (chars r !! j) as [c|] eqn:Hc.
    2:{ apply lookup_ge_None in Hc. lia. }
    rewrite (char_at_lookup _ _ _ Hc). simpl.
    replace (Z.of_nat j + 1) with (Z.of_nat (S j)) by lia.
    rewrite IH by lia.
    rewrite (drop_S _ _ _ Hc). done.
Qed.

Lemma editorRowCxToRx_width r cx :
  0 <= cx <= size r ->
  editorRowCxToRx r cx = Some (width_from (take (Z.to_nat cx) (chars r)) 0).
Proof.
  intros Hcx. unfold editorRowCxToRx, size, len in *.
  pose proof (editorRowCxToRx_loop_width r (Z.to_nat cx) 0 0 ltac:(lia)) as H.
  rewrite drop_0 in H. exact H.
Qed.

(** The render column never runs ahead of eight times the edit column. *)
Lemma editorRowCxToRx_bounds r cx rx :
  0 <= cx <= size r ->
  editorRowCxToRx r cx = Some rx -> cx <= rx <= 8 * cx.
Proof.
  intros Hcx. rewrite editorRowCxToRx_width by done. intros [= <-].
  pose proof (width_from_bounds (take (Z.to_nat cx) (chars r)) 0 ltac:(lia)) as Hb.
  unfold size, len in *. rewrite length_take in Hb. lia.
Qed.

Lemma editorRowRxToCx_loop_range cs : forall cx curr rx,
  cx <= editorRowRxToCx_loop cs cx curr rx <= cx + len cs.
Proof.
  induction cs as [|c cs IH]; intros cx curr rx; simpl.
  - unfold len; simpl; lia.
  - rewrite len_cons. destruct (_ >? _); [pose proof (len_nonneg cs); lia|].
    specialize (IH (cx + 1) (advance c curr) rx). lia.
Qed.

Lemma editorRowRxToCx_loop_end cs : forall cx curr rx,
  0 <= curr -> width_from cs curr <= rx ->
  editorRowRxToCx_loop cs cx curr rx = cx + len cs.
Proof.
  induction cs as [|c cs IH]; intros cx curr rx Hc Hw; simpl in *.
  - unfold len; simpl; lia.
  - pose proof (advance_bounds c curr Hc).
    pose proof (width_from_bounds cs (advance c curr) ltac:(lia)).
    pose proof (len_nonneg cs).
    destruct (Z.gtb_spec (advance c curr) rx); [lia|].
    rewrite IH by lia. rewrite len_cons. lia.
Qed.

Lemma editorRowRxToCx_loop_inverse cs : forall k cx curr,
  0 <= curr -> (k <= length cs)%nat ->
  editorRowRxToCx_loop cs cx curr (width_from (take k cs) curr)
  = cx + Z.of_nat k.
Proof.
  induction cs as [|c cs IH]; intros k cx curr Hc Hk; simpl in *.
  - assert (k = 0%nat) by lia. subst. lia.
  - pose proof (advance_bounds c curr Hc).
    destruct k as [|k]; simpl.
    + destruct (Z.gtb_spec (advance c curr) curr); lia.
    + pose proof (width_from_bounds (take k cs) (advance c curr) ltac:(lia)).
      pose proof (len_nonneg (take k cs)).
      destruct (Z.gtb_spec (advance c curr)
                  (width_from (take k cs) (advance c curr))); [lia|].
      rewrite IH by lia. lia.
Qed.

(** C1: for every row and every cursor column [cx] in [[0, row.size]],
    [editorRowCxToRx] is defined and [editorRowRxToCx] maps its result
    back to [cx]; a tab advances the render column to the next multiple
    of the tab stop 8, any other byte by one. *)
Theorem editorRowRxToCx_CxToRx (r : erow) (cx : Z) :
  0 <= cx <= size r ->
  exists rx,
    editorRowCxToRx r cx = Some rx /\
    editorRowRxToCx r rx = cx /\
    (forall c col, 0 <= col ->
       advance c col =
         if Ascii.eqb c TAB then EDI_TAB_STOP * (col / EDI_TAB_STOP + 1)
         else col + 1).
Proof.
  intros Hcx. eexists. split; [by apply editorRowCxToRx_width|]. split.
  - unfold editorRowRxToCx, size, len in *.
    rewrite editorRowRxToCx_loop_inverse by lia. lia.
  - intros c col Hcol. unfold advance, EDI_TAB_STOP.
    destruct (Ascii.eqb c TAB); [|done].
    rewrite Z.rem_mod_nonneg by lia.
    pose proof (Z.div_mod col 8 ltac:(lia)). lia.
Qed.

Lemma editorRowRxToCx_CxToRx_witness :
  exists rx,
    editorRowCxToRx {| chars := ["a"; TAB; "b"]%char; render := []; hl := [] |} 2
      = Some rx /\
    editorRowRxToCx {| chars := ["a"; TAB; "b"]%char; render := []; hl := [] |} rx
      = 2 /\
    (forall c col, 0 <= col ->
       advance c col =
         if Ascii.eqb c TAB then EDI_TAB_STOP * (col / EDI_TAB_STOP + 1)
         else col + 1).
Proof.
  apply (editorRowRxToCx_CxToRx
           {| chars := ["a"; TAB; "b"]%char; render := []; hl := [] |} 2).
  vm_compute. split; discriminate.
Defined.

Lemma editorRowRxToCx_range r rx : 0 <= editorRowRxToCx r rx <= size r.
Proof.
  pose proof (editorRowRxToCx_loop_range (chars r) 0 0 rx).
  unfold editorRowRxToCx, size. lia.
Qed.

(** C9: [editorRowRxToCx] is total; for every row and every target [rx]
    its result lies in [[0, row.size]], and once [rx] reaches the full
    rendered width of the row the result is [row.size]. *)
Theorem editorRowRxToCx_in_row (r : erow) (rx : Z) :
  0 <= editorRowRxToCx r rx <= size r /\
  (forall w, editorRowCxToRx r (size r) = Some w -> w <= rx ->
             editorRowRxToCx r rx = size r).
Proof.
  split.
  - apply editorRowRxToCx_range.
  - intros w Hw Hle. pose proof (len_nonneg (chars r)).
    rewrite editorRowCxToRx_width in Hw by (unfold size; lia).
    injection Hw as <-. unfold size, len in *.
    rewrite Nat2Z.id, firstn_all in Hle.
    unfold editorRowRxToCx. rewrite editorRowRxToCx_loop_end by (done || lia).
    unfold len; lia.
Qed.

(** ** Checked arrays *)

Lemma load_defined {A} (l : list A) i :
  0 <= i < len l -> exists x, load l i = Some x.
Proof.
  intros Hi. unfold load, len in *.
  destruct (Z.ltb_spec i 0); [lia|].
  destruct (l !! Z.to_nat i) eqn:Hl; [eauto|].
  apply lookup_ge_None in Hl. lia.
Qed.

Lemma load_Some {A} (l : list A) i x :
  load l i = Some x -> 0 <= i < len l /\ l !! Z.to_nat i = Some x.
Proof.
  unfold load, len. destruct (Z.ltb_spec i 0); [done|].
  intros Hl. pose proof (lookup_lt_Some _ _ _ Hl). split; [lia|done].
Qed.

Lemma store_defined {A} (l : list A) i v :
  0 <= i < len l ->
  exists l', store l i v = Some l' /\ length l' = length l.
Proof.
  intros Hi. unfold store.
  destruct (Z.leb_spec 0 i); [|lia].
  destruct (Z.ltb_spec i (len l)); [|lia].
  simpl. eexists; split; [done|]. apply length_insert.
Qed.

Lemma store_Some {A} (l l' : list A) i v :
  store l i v = Some l' ->
  0 <= i < len l /\ l' = <[Z.to_nat i := v]> l /\ length l' = length l.
Proof.
  unfold store.
  destruct (Z.leb_spec 0 i); [|done].
  destruct (Z.ltb_spec i (len l)); [|done].
  simpl. intros [= <-]. by rewrite length_insert.
Qed.

Lemma memset_defined {A} (l : list A) off v n :
  0 <= off -> 0 <= n -> off + n <= len l ->
  exists l', memset l off v n = Some l' /\ length l' = length l.
Proof.
  intros Ho Hn Hl. unfold memset.
  destruct (Z.leb_spec 0 off); [|lia].
  destruct (Z.leb_spec 0 n); [|lia].
  destruct (Z.leb_spec (off + n) (len l)); [|lia].
  simpl. eexists; split; [done|].
  unfold len in *.
  rewrite !length_app, length_take, length_replicate, length_drop. lia.
Qed.

Lemma memset_Some {A} (l l' : list A) off v n :
  memset l off v n = Some l' -> length l' = length l.
Proof.
  unfold memset.
  destruct (Z.leb_spec 0 off); [|done].
  destruct (Z.leb_spec 0 n); [|done].
  destruct (Z.leb_spec (off + n) (len l)); [|done].
  simpl. intros [= <-]. unfold len in *.
  rewrite !length_app, length_take, length_replicate, length_drop. lia.
Qed.

Lemma memcpy_defined {A} (dst src : list A) n :
  0 <= n -> n <= len dst -> n <= len src ->
  exists l', memcpy dst src n = Some l' /\ length l' = length dst.
Proof.
  intros H0 Hd Hs. unfold memcpy.
  destruct (Z.leb_spec 0 n); [|lia].
  destruct (Z.leb_spec n (len dst)); [|lia].
  destruct (Z.leb_spec n (len src)); [|lia].
  simpl. eexists; split; [done|]. unfold len in *.
  rewrite length_app, length_take, length_drop. lia.
Qed.

Lemma memcpy_Some {A} (dst src l' : list A) n :
  memcpy dst src n = Some l' -> length l' = length dst.
Proof.
  unfold memcpy.
  destruct (Z.leb_spec 0 n); [|done].
  destruct (Z.leb_spec n (len dst)); [|done].
  destruct (Z.leb_spec n (len src)); [|done].
  simpl. intros [= <-]. unfold len in *.
  rewrite length_app, length_take, length_drop. lia.
Qed.

(** ** Highlighting keeps one class per rendered byte *)

Lemma editorUpdateSyntax_loop_defined syn rnd :
  forall fuel i prev_sep in_string h,
  0 <= i -> length h = length rnd -> len rnd - i <= Z.of_nat fuel ->
  exists h',
    editorUpdateSyntax_loop fuel syn rnd i prev_sep in_string h = Some h'
    /\ length h' = length rnd.
Proof.
  induction fuel as [|fuel IH]; intros i ps ins h Hi Hlen Hf.
  - simpl. destruct (Z.ltb_spec i (len rnd)); [lia|]. simpl. eauto.
  - cbn [editorUpdateSyntax_loop].
    destruct (Z.ltb_spec i (len rnd)) as [Hlt|]; simpl; [|eauto].
    assert (len h = len rnd) as Hlen' by (unfold len; lia).
    destruct (load_defined rnd i) as [c ->]; [lia|]. simpl.
    assert (exists p, (if 0 <? i then load h (i - 1) else Some HL_NORMAL)
                      = Some p) as [p ->].
    { destruct (Z.ltb_spec 0 i); [|eauto]. apply load_defined. lia. }
    simpl.
    destruct (memset_defined h i HL_COMMENT (len rnd - i))
      as (hm & -> & Hhm); [lia..|].
    destruct (store_defined h i HL_STRING) as (hs & -> & Hhs); [lia|].
    destruct (store_defined h i HL_NUMBER) as (hn & -> & Hhn); [lia|].
    simpl.
    repeat match goal with
    | |- context [if ?b then _ else _] => destruct b eqn:?
    end; try (eexists; split; [reflexivity|congruence]);
      try (apply IH; lia).
    all: match goal with
         | H : _ && (_ <? _) = true |- _ =>
             apply andb_true_iff in H as [_ H%Z.ltb_lt]
         end.
    all: match goal with
         | |- context [store ?l ?j HL_STRING] =>
             destruct (store_defined l j HL_STRING) as (hs2 & -> & Hhs2);
             [unfold len in *; lia|]
         end.
    all: simpl; apply IH; lia.
Qed.

Lemma editorUpdateSyntax_defined syn r :
  exists r',
    editorUpdateSyntax syn r = Some r' /\
    chars r' = chars r /\ render r' = render r /\
    length (hl r') = length (render r').
Proof.
  unfold editorUpdateSyntax. destruct syn as [s|].
  - destruct (editorUpdateSyntax_loop_defined s (render r)
                (length (render r)) 0 true 0
                (replicate (length (render r)) HL_NORMAL))
      as (h & -> & Hh); [lia|by rewrite length_replicate|unfold len; lia|].
    simpl. eauto.
  - eexists; split; [done|]. simpl. by rewrite length_replicate.
Qed.

Lemma editorUpdateRow_defined syn r :
  exists r',
    editorUpdateRow syn r = Some r' /\
    chars r' = chars r /\
    render r' = editorUpdateRow_loop (chars r) [] /\
    length (hl r') = length (render r').
Proof.
  unfold editorUpdateRow.
  destruct (editorUpdateSyntax_defined syn
              (set_render r (editorUpdateRow_loop (chars r) [])))
    as (r' & -> & Hc & Hr & Hh).
  eauto.
Qed.

Lemma editorUpdateRow_Some syn r r' :
  editorUpdateRow syn r = Some r' ->
  chars r' = chars r /\
  render r' = editorUpdateRow_loop (chars r) [] /\
  length (hl r') = length (render r').
Proof.
  intros H. destruct (editorUpdateRow_defined syn r) as (r'' & H' & ?).
  by simplify_eq.
Qed.

Lemma editorUpdateRow_make_row syn r :
  editorUpdateRow syn r = Some (make_row syn (chars r)).
Proof.
  destruct r as [cs rn h].
  unfold make_row, blank_row, editorUpdateRow, editorUpdateSyntax. simpl.
  destruct syn as [s|]; [|done].
  destruct (editorUpdateSyntax_loop_defined s (editorUpdateRow_loop cs [])
              (length (editorUpdateRow_loop cs [])) 0 true 0
              (replicate (length (editorUpdateRow_loop cs [])) HL_NORMAL))
    as (h' & -> & _); [lia|by rewrite length_replicate|unfold len; lia|].
  done.
Qed.

Lemma chars_make_row syn cs : chars (make_row syn cs) = cs.
Proof.
  pose proof (editorUpdateRow_make_row syn (blank_row cs)) as H.
  apply editorUpdateRow_Some in H as (Hc & _). exact Hc.
Qed.

Lemma size_make_row syn cs : size (make_row syn cs) = len cs.
Proof. unfold size. by rewrite chars_make_row. Qed.

Lemma make_row_hl_ok syn cs : row_hl_ok (make_row syn cs).
Proof.
  pose proof (editorUpdateRow_make_row syn (blank_row cs)) as H.
  apply editorUpdateRow_Some in H as (_ & _ & Hh). exact Hh.
Qed.

(** ** Rows of the document *)

Lemma row_at_Some e i r :
  row_at e i = Some r <->
  0 <= i < E.num_rows e /\ E.row e !! Z.to_nat i = Some r.
Proof.
  unfold row_at, E.num_rows. split.
  - apply load_Some.
  - intros [Hi Hr]. unfold load. destruct (Z.ltb_spec i 0); [lia|done].
Qed.

Lemma row_at_defined e i :
  0 <= i < E.num_rows e -> exists r, row_at e i = Some r.
Proof. apply load_defined. Qed.

Lemma row_at_None e i :
  row_at e i = None <-> ~ (0 <= i < E.num_rows e).
Proof.
  split.
  - intros H Hi. destruct (row_at_defined e i Hi) as [r Hr]. congruence.
  - intros Hi. destruct (row_at e i) eqn:Hr; [|done].
    apply row_at_Some in Hr as [? _]. lia.
Qed.

Lemma row_at_middle e pre r post :
  E.row e = pre ++ r :: post -> row_at e (len pre) = Some r.
Proof.
  intros Hrow. apply row_at_Some. unfold E.num_rows, len. rewrite Hrow.
  rewrite length_app, Nat2Z.id. simpl. split; [lia|].
  apply list_lookup_middle. done.
Qed.

Lemma row_at_idx e i pre r post :
  E.row e = pre ++ r :: post -> i = len pre -> row_at e i = Some r.
Proof. intros Hrow ->. by eapply row_at_middle. Qed.

Lemma row_at_split e i r :
  row_at e i = Some r ->
  exists pre post, E.row e = pre ++ r :: post /\ len pre = i.
Proof.
  intros [Hi Hr]%row_at_Some.
  exists (take (Z.to_nat i) (E.row e)), (drop (S (Z.to_nat i)) (E.row e)).
  split.
  - by rewrite <- (take_drop_middle _ _ _ Hr) at 1.
  - pose proof (lookup_lt_Some _ _ _ Hr). unfold len.
    rewrite length_take. lia.
Qed.

Lemma put_row_middle e pre r post r' :
  E.row e = pre ++ r :: post ->
  put_row e (len pre) r' = Some (E.set_row (pre ++ r' :: post) e).
Proof.
  intros Hrow. unfold put_row, store, len. rewrite Hrow.
  destruct (Z.leb_spec 0 (Z.of_nat (length pre))); [|lia].
  rewrite length_app. simpl.
  destruct (Z.ltb_spec (Z.of_nat (length pre))
              (Z.of_nat (length pre + S (length post)))); [|lia].
  simpl. rewrite Nat2Z.id.
  rewrite insert_app_r_alt by lia. by rewrite Nat.sub_diag.
Qed.

Lemma take_len_app {A} (pre l : list A) :
  take (Z.to_nat (len pre)) (pre ++ l) = pre.
Proof. unfold len. rewrite Nat2Z.id. apply take_app_length. Qed.

Lemma drop_len_app {A} (pre l : list A) :
  drop (Z.to_nat (len pre)) (pre ++ l) = l.
Proof. unfold len. rewrite Nat2Z.id. apply drop_app_length. Qed.

Lemma delete_len_middle {A} (pre : list A) x post :
  delete (Z.to_nat (len pre)) (pre ++ x :: post) = pre ++ post.
Proof. unfold len. rewrite Nat2Z.id. apply delete_middle. Qed.

Lemma editorInsertRow_in_range at_ s e :
  0 <= at_ <= E.num_rows e ->
  editorInsertRow at_ s e
  = Some (bump_dirty
            (E.set_row (take (Z.to_nat at_) (E.row e)
                        ++ make_row (E.syntax e) s
                        :: drop (Z.to_nat at_) (E.row e)) e)).
Proof.
  intros Hat. unfold editorInsertRow.
  destruct (Z.ltb_spec at_ 0); [lia|].
  destruct (Z.gtb_spec at_ (E.num_rows e)); [lia|]. simpl.
  change {| chars := s; render := []; hl := [] |} with (blank_row s).
  by rewrite editorUpdateRow_make_row.
Qed.

Lemma editorInsertRow_out_of_range at_ s e :
  ~ (0 <= at_ <= E.num_rows e) -> editorInsertRow at_ s e = Some e.
Proof.
  intros Hat. unfold editorInsertRow.
  destruct (Z.ltb_spec at_ 0); [done|].
  destruct (Z.gtb_spec at_ (E.num_rows e)); [done|lia].
Qed.

Lemma editorInsertRow_middle s e pre post :
  E.row e = pre ++ post ->
  editorInsertRow (len pre) s e
  = Some (bump_dirty
            (E.set_row (pre ++ make_row (E.syntax e) s :: post) e)).
Proof.
  intros Hrow. rewrite editorInsertRow_in_range.
  - by rewrite Hrow, take_len_app, drop_len_app.
  - unfold E.num_rows. rewrite Hrow, len_app.
    pose proof (len_nonneg pre). pose proof (len_nonneg post). lia.
Qed.

Lemma editorDelRow_middle e pre r post :
  E.row e = pre ++ r :: post ->
  editorDelRow (len pre) e = bump_dirty (E.set_row (pre ++ post) e).
Proof.
  intros Hrow. unfold editorDelRow, E.num_rows.
  rewrite Hrow, len_app, len_cons.
  pose proof (len_nonneg pre). pose proof (len_nonneg post).
  destruct (Z.ltb_spec (len pre) 0); [lia|].
  destruct (Z.geb_spec (len pre) (len pre + (1 + len post))); [lia|].
  simpl. by rewrite delete_len_middle.
Qed.

Lemma editorRowInsertChar_middle at_ c e pre r post :
  E.row e = pre ++ r :: post ->
  editorRowInsertChar (len pre) at_ c e
  = let at' := if (at_ <? 0) || (at_ >? size r) then size r else at_ in
    Some (bump_dirty
            (E.set_row
               (pre ++ make_row (E.syntax e)
                         (take (Z.to_nat at') (chars r) ++ char_of_Z c
                          :: drop (Z.to_nat at') (chars r)) :: post) e)).
Proof.
  intros Hrow. unfold editorRowInsertChar.
  rewrite (row_at_middle _ _ _ _ Hrow). simpl.
  rewrite editorUpdateRow_make_row. simpl.
  rewrite (put_row_middle _ _ _ _ _ Hrow). done.
Qed.

Lemma editorRowAppendString_middle s e pre r post :
  E.row e = pre ++ r :: post ->
  editorRowAppendString (len pre) s e
  = Some (bump_dirty
            (E.set_row
               (pre ++ make_row (E.syntax e) (chars r ++ s) :: post) e)).
Proof.
  intros Hrow. unfold editorRowAppendString.
  rewrite (row_at_middle _ _ _ _ Hrow). simpl.
  rewrite editorUpdateRow_make_row. simpl.
  rewrite (put_row_middle _ _ _ _ _ Hrow). done.
Qed.

Lemma editorRowDelChar_middle at_ e pre r post :
  E.row e = pre ++ r :: post ->
  editorRowDelChar (len pre) at_ e
  = if (at_ <? 0) || (at_ >=? size r) then Some e
    else Some (bump_dirty
                 (E.set_row
                    (pre ++ make_row (E.syntax e)
                              (delete (Z.to_nat at_) (chars r)) :: post) e)).
Proof.
  intros Hrow. unfold editorRowDelChar.
  rewrite (row_at_middle _ _ _ _ Hrow). simpl.
  destruct ((at_ <? 0) || (at_ >=? size r)); [done|].
  rewrite editorUpdateRow_make_row. simpl.
  rewrite (put_row_middle _ _ _ _ _ Hrow). done.
Qed.

(** ** Editor operations, case by case *)

Lemma same_frame_refl e : same_frame e e.
Proof. by repeat split. Qed.

Lemma same_frame_trans e1 e2 e3 :
  same_frame e1 e2 -> same_frame e2 e3 -> same_frame e1 e3.
Proof. unfold same_frame. intuition congruence. Qed.

Lemma len_snoc {A} (l : list A) x : len (l ++ [x]) = len l + 1.
Proof. rewrite len_app. unfold len. simpl. lia. Qed.

Lemma editorInsertNewline_at_start e pre post :
  E.row e = pre ++ post -> E.cy e = len pre -> E.cx e = 0 ->
  exists e',
    editorInsertNewline e = Some e' /\
    E.row e' = pre ++ make_row (E.syntax e) [] :: post /\
    E.cx e' = 0 /\ E.cy e' = len pre + 1 /\ same_frame e e'.
Proof.
  intros Hrow Hcy Hcx. unfold editorInsertNewline.
  rewrite Hcx, Hcy. simpl.
  rewrite (editorInsertRow_middle _ _ _ _ Hrow). simpl.
  eexists. split; [reflexivity|]. simpl. rewrite Hcy.
  by repeat split.
Qed.

Lemma editorInsertNewline_split e pre r post :
  E.row e = pre ++ r :: post -> E.cy e = len pre -> 0 < E.cx e <= size r ->
  exists e',
    editorInsertNewline e = Some e' /\
    E.row e' = pre ++ make_row (E.syntax e)
                        (take (Z.to_nat (E.cx e)) (chars r))
               :: make_row (E.syntax e) (drop (Z.to_nat (E.cx e)) (chars r))
               :: post /\
    E.cx e' = 0 /\ E.cy e' = len pre + 1 /\ same_frame e e'.
Proof.
  intros Hrow Hcy Hcx. unfold editorInsertNewline.
  destruct (Z.eqb_spec (E.cx e) 0); [lia|].
  rewrite Hcy, (row_at_middle _ _ _ _ Hrow). simpl.
  destruct (Z.ltb_spec (E.cx e) 0); [lia|].
  destruct (Z.gtb_spec (E.cx e) (size r)); [lia|]. simpl.
  rewrite <- len_snoc with (x := r).
  rewrite (editorInsertRow_middle _ e (pre ++ [r]) post)
    by (by rewrite <- app_assoc).
  simpl. rewrite Hcy.
  set (e1 := bump_dirty _).
  assert (E.row e1 = pre ++ r :: make_row (E.syntax e)
                       (drop (Z.to_nat (E.cx e)) (chars r)) :: post) as Hrow1.
  { subst e1. simpl. by rewrite <- app_assoc. }
  rewrite (row_at_middle _ _ _ _ Hrow1). simpl.
  rewrite editorUpdateRow_make_row. simpl.
  rewrite (put_row_middle _ _ _ _ _ Hrow1). simpl.
  eexists. split; [reflexivity|]. simpl. rewrite ?Hcy, ?len_snoc.
  subst e1. by repeat split.
Qed.

Lemma editorDelChar_noop e :
  E.cy e = E.num_rows e \/ (E.cx e = 0 /\ E.cy e = 0) ->
  editorDelChar e = Some e.
Proof.
  intros H. unfold editorDelChar.
  destruct (Z.eqb_spec (E.cy e) (E.num_rows e)); [done|].
  destruct H as [?|[-> ->]]; [lia|done].
Qed.

Lemma editorDelChar_left e pre r post :
  E.row e = pre ++ r :: post -> E.cy e = len pre -> 0 < E.cx e <= size r ->
  exists e',
    editorDelChar e = Some e' /\
    E.row e' = pre ++ make_row (E.syntax e)
                        (delete (Z.to_nat (E.cx e - 1)) (chars r)) :: post /\
    E.cx e' = E.cx e - 1 /\ E.cy e' = len pre /\ same_frame e e'.
Proof.
  intros Hrow Hcy Hcx. unfold editorDelChar, E.num_rows.
  rewrite Hcy, Hrow, len_app, len_cons. pose proof (len_nonneg post).
  destruct (Z.eqb_spec (len pre) (len pre + (1 + len post))); [lia|].
  destruct (Z.eqb_spec (E.cx e) 0); [lia|]. simpl.
  rewrite (row_at_middle _ _ _ _ Hrow). simpl.
  destruct (Z.gtb_spec (E.cx e) 0); [|lia].
  rewrite (editorRowDelChar_middle _ _ _ _ _ Hrow).
  destruct (Z.ltb_spec (E.cx e - 1) 0); [lia|].
  destruct (Z.geb_spec (E.cx e - 1) (size r)); [lia|]. simpl.
  eexists. split; [reflexivity|]. simpl. rewrite Hcy.
  by repeat split.
Qed.

Lemma editorDelChar_merge e pre prev r post :
  E.row e = pre ++ prev :: r :: post -> E.cy e = len pre + 1 ->
  E.cx e <= 0 ->
  exists e',
    editorDelChar e = Some e' /\
    E.row e' = pre ++ make_row (E.syntax e) (chars prev ++ chars r)
               :: post /\
    E.cx e' = size prev /\ E.cy e' = len pre /\ same_frame e e'.
Proof.
  intros Hrow Hcy Hcx. unfold editorDelChar, E.num_rows.
  pose proof (len_nonneg pre). pose proof (len_nonneg post).
  assert (E.row e = (pre ++ [prev]) ++ r :: post) as Hrow'
    by (by rewrite <- app_assoc).
  rewrite Hcy, Hrow, len_app, !len_cons.
  destruct (Z.eqb_spec (len pre + 1) (len pre + (1 + (1 + len post))));
    [lia|].
  destruct (Z.eqb_spec (len pre + 1) 0); [lia|].
  rewrite andb_false_r.
  rewrite (row_at_idx e (len pre + 1) (pre ++ [prev]) r post)
    by (done || by rewrite len_snoc).
  simpl. destruct (Z.gtb_spec (E.cx e) 0); [lia|].
  rewrite (row_at_idx e (len pre + 1 - 1) pre prev (r :: post))
    by (done || lia).
  simpl. rewrite Hcy.
  replace (len pre + 1 - 1) with (len pre) by lia.
  rewrite (editorRowAppendString_middle _ (E.set_cx (size prev) e)
             pre prev (r :: post)) by done.
  simpl. rewrite Hcy.
  set (e2 := bump_dirty _).
  assert (E.row e2 = (pre ++ [make_row (E.syntax e) (chars prev ++ chars r)])
                     ++ r :: post) as Hrow2.
  { subst e2. simpl. by rewrite <- app_assoc. }
  replace (len pre + 1)
    with (len (pre ++ [make_row (E.syntax e) (chars prev ++ chars r)]))
    by apply len_snoc.
  rewrite (editorDelRow_middle _ _ _ _ Hrow2).
  eexists. split; [reflexivity|]. simpl.
  rewrite <- app_assoc. simpl. subst e2.
  repeat split; lia.
Qed.

Lemma num_rows_middle e (pre : list erow) r post :
  E.row e = pre ++ r :: post -> E.num_rows e = len pre + 1 + len post.
Proof.
  intros Hrow. unfold E.num_rows. rewrite Hrow, len_app, len_cons. lia.
Qed.

Lemma rows_fresh_middle e pre r post :
  rows_fresh e -> E.row e = pre ++ r :: post ->
  r = make_row (E.syntax e) (chars r).
Proof.
  unfold rows_fresh. intros Hf Hrow. rewrite Hrow in Hf.
  apply Forall_app in Hf as [_ Hf]. by apply Forall_cons in Hf as [? _].
Qed.

(** C6: for every document and cursor [(cy, cx)] on a real row with
    [0 <= cx <= row.size], [editorInsertNewline] splits the row and a
    following [editorDelChar] (the cursor then being at column 0 of
    the next row) restores the bytes of every row and the cursor; the
    rows themselves are restored too when they were up to date. *)
Theorem editorInsertNewline_editorDelChar (e : editorConfig) (r : erow) :
  row_at e (E.cy e) = Some r -> 0 <= E.cx e <= size r ->
  exists e1 e2,
    editorInsertNewline e = Some e1 /\
    E.num_rows e1 = E.num_rows e + 1 /\
    E.cy e1 = E.cy e + 1 /\ E.cx e1 = 0 /\
    editorDelChar e1 = Some e2 /\
    map chars (E.row e2) = map chars (E.row e) /\
    E.cx e2 = E.cx e /\ E.cy e2 = E.cy e /\
    (rows_fresh e -> E.row e2 = E.row e).
Proof.
  intros Hr Hcx.
  destruct (row_at_split _ _ _ Hr) as (pre & post & Hrow & Hcy).
  symmetry in Hcy.
  destruct (Z.eq_dec (E.cx e) 0) as [Hz|Hnz].
  - destruct (editorInsertNewline_at_start e pre (r :: post) Hrow Hcy Hz)
      as (e1 & He1 & Hrow1 & Hcx1 & Hcy1 & Hfr1).
    destruct (editorDelChar_merge e1 pre _ r post Hrow1 Hcy1 ltac:(lia))
      as (e2 & He2 & Hrow2 & Hcx2 & Hcy2 & Hfr2).
    assert (E.syntax e1 = E.syntax e) as Hsyn by apply Hfr1.
    rewrite chars_make_row, Hsyn in Hrow2. simpl in Hrow2.
    exists e1, e2. split; [done|].
    split; [rewrite (num_rows_middle _ _ _ _ Hrow),
              (num_rows_middle _ _ _ _ Hrow1), len_cons; lia|].
    split; [lia|]. split; [done|]. split; [done|].
    split; [rewrite Hrow2, Hrow, !map_app; simpl;
            by rewrite chars_make_row|].
    split; [rewrite Hcx2, size_make_row; unfold len; simpl; lia|].
    split; [lia|].
    intros Hf. rewrite Hrow2, Hrow.
    by rewrite <- (rows_fresh_middle _ _ _ _ Hf Hrow).
  - destruct (editorInsertNewline_split e pre r post Hrow Hcy ltac:(lia))
      as (e1 & He1 & Hrow1 & Hcx1 & Hcy1 & Hfr1).
    destruct (editorDelChar_merge e1 pre _ _ post Hrow1 Hcy1 ltac:(lia))
      as (e2 & He2 & Hrow2 & Hcx2 & Hcy2 & Hfr2).
    assert (E.syntax e1 = E.syntax e) as Hsyn by apply Hfr1.
    rewrite !chars_make_row, take_drop, Hsyn in Hrow2.
    exists e1, e2. split; [done|].
    split; [rewrite (num_rows_middle _ _ _ _ Hrow),
              (num_rows_middle _ _ _ _ Hrow1), len_cons; lia|].
    split; [lia|]. split; [done|]. split; [done|].
    split; [rewrite Hrow2, Hrow, !map_app; simpl;
            by rewrite chars_make_row|].
    split.
    { rewrite Hcx2, size_make_row. unfold size, len in *.
      rewrite length_take. lia. }
    split; [lia|].
    intros Hf. rewrite Hrow2, Hrow.
    by rewrite <- (rows_fresh_middle _ _ _ _ Hf Hrow).
Qed.

(** ** Serialisation for saving *)

Lemma editorRowsToString_len_sum rows : forall total,
  editorRowsToString_len rows total
  = total + foldr (fun r acc => (size r + 1) + acc) 0 rows.
Proof.
  induction rows as [|r rows IH]; intros total; simpl; [lia|].
  rewrite IH. lia.
Qed.

Lemma editorRowsToString_copy_concat rows : forall buff,
  editorRowsToString_copy rows buff
  = buff ++ concat (map (fun r => chars r ++ [NEWLINE]) rows).
Proof.
  induction rows as [|r rows IH]; intros buff; simpl.
  - by rewrite app_nil_r.
  - rewrite IH. by rewrite <- !app_assoc.
Qed.

Lemma len_concat_lines rows :
  len (concat (map (fun r => chars r ++ [NEWLINE]) rows))
  = foldr (fun r acc => (size r + 1) + acc) 0 rows.
Proof.
  induction rows as [|r rows IH]; simpl; [done|].
  rewrite len_app, len_snoc, IH. done.
Qed.

(** C8: [editorRowsToString] joins the rows' bytes with a newline after
    every row; the length it reports is the length of that buffer, the
    sum over the rows of [size + 1]; the rows ["a"], ["bb"] give the five
    bytes ["a\nbb\n"]. *)
Theorem editorRowsToString_newline_terminated :
  (forall e,
     let '(buff, buff_len) := editorRowsToString e in
     buff = concat (map (fun r => chars r ++ [NEWLINE]) (E.row e)) /\
     buff_len = len buff /\
     buff_len = foldr (fun r acc => (size r + 1) + acc) 0 (E.row e)) /\
  (forall e,
     map chars (E.row e) = [bytes "a"; bytes "bb"] ->
     editorRowsToString e
     = (["a"; NEWLINE; "b"; "b"; NEWLINE]%char, 5)).
Proof.
  split.
  - intros e. unfold editorRowsToString.
    rewrite editorRowsToString_copy_concat, editorRowsToString_len_sum.
    simpl. by rewrite len_concat_lines.
  - intros e Hrows. unfold editorRowsToString.
    rewrite editorRowsToString_copy_concat, editorRowsToString_len_sum.
    destruct (E.row e) as [|r1 [|r2 [|r3 rows]]]; try done.
    simpl in Hrows. injection Hrows as H1 H2.
    unfold size. simpl. by rewrite H1, H2.
Qed.

(** ** Cursor movement *)

Lemma row_len_nonneg e i : 0 <= row_len e i.
Proof. unfold row_len. destruct (row_at e i); [apply len_nonneg|lia]. Qed.

Lemma row_len_Some e i r : row_at e i = Some r -> row_len e i = size r.
Proof. unfold row_len. by intros ->. Qed.

Lemma row_len_code e i :
  0 <= i ->
  (if i >=? E.num_rows e then Some 0
   else r ← row_at e i; Some (size r)) = Some (row_len e i).
Proof.
  intros Hi. unfold row_len. destruct (Z.geb_spec i (E.num_rows e)).
  - destruct (row_at e i) eqn:Hr; [|done].
    apply row_at_Some in Hr. lia.
  - destruct (row_at_defined e i) as [r ->]; [lia|]. done.
Qed.

Lemma cursor_ok_bounds e : cursor_ok e -> cursor_bounds e.
Proof.
  intros [Hcy Hcx]. split; [done|]. intros Hlt.
  destruct (row_at_defined e (E.cy e)) as [r Hr]; [lia|].
  exists r. split; [done|]. by rewrite (row_len_Some _ _ _ Hr) in Hcx.
Qed.

(** Every arrow key is defined on a cursor that is on a row or on the
    virtual row, whatever its column; it leaves a valid cursor and
    touches nothing else. *)
Lemma editorMoveCursor_ok key e :
  0 <= E.cy e <= E.num_rows e -> 0 <= E.cx e ->
  exists e',
    editorMoveCursor key e = Some e' /\ cursor_ok e' /\
    E.row e' = E.row e /\ E.dirty e' = E.dirty e /\ same_frame e e'.
Proof.
  intros Hcy Hcx. pose proof (row_len_nonneg e (E.cy e)) as Hrl.
  assert (exists e1,
    editorMoveCursor_switch key e = Some e1 /\
    0 <= E.cy e1 <= E.num_rows e /\ 0 <= E.cx e1 /\
    E.row e1 = E.row e /\ E.dirty e1 = E.dirty e /\ same_frame e e1)
    as (e1 & He1 & Hcy1 & Hcx1 & Hrow1 & Hd1 & Hfr1).
  { unfold editorMoveCursor_switch. destruct (key =? ARROW_LEFT).
    { destruct (Z.eqb_spec (E.cx e) 0); simpl.
      - destruct (Z.gtb_spec (E.cy e) 0).
        + change (row_at (E.set_cy (E.cy e - 1) e) (E.cy e - 1))
            with (row_at e (E.cy e - 1)).
          destruct (row_at_defined e (E.cy e - 1)) as [r ->]; [lia|].
          simpl. eexists. split; [reflexivity|]. simpl.
          pose proof (len_nonneg (chars r)). unfold size.
          repeat split; lia.
        + eexists. split; [reflexivity|]. repeat split; lia.
      - eexists. split; [reflexivity|]. simpl. repeat split; lia. }
    destruct (key =? ARROW_RIGHT).
    { destruct (Z.geb_spec (E.cy e) (E.num_rows e)).
      - eexists. split; [reflexivity|]. repeat split; lia.
      - destruct (row_at_defined e (E.cy e)) as [r ->]; [lia|]. simpl.
        destruct (Z.ltb_spec (E.cx e) (size r)).
        + eexists. split; [reflexivity|]. simpl. repeat split; lia.
        + destruct (Z.eqb_spec (E.cx e) (size r)).
          * eexists. split; [reflexivity|]. simpl. repeat split; lia.
          * eexists. split; [reflexivity|]. repeat split; lia. }
    destruct (key =? ARROW_UP).
    { destruct (Z.eqb_spec (E.cy e) 0); simpl.
      - eexists. split; [reflexivity|]. repeat split; lia.
      - eexists. split; [reflexivity|]. simpl. repeat split; lia. }
    destruct (key =? ARROW_DOWN).
    { destruct (Z.ltb_spec (E.cy e) (E.num_rows e)).
      - eexists. split; [reflexivity|]. simpl. repeat split; lia.
      - eexists. split; [reflexivity|]. repeat split; lia. }
    eexists. split; [reflexivity|]. repeat split; lia. }
  unfold editorMoveCursor. rewrite He1. simpl.
  assert (E.num_rows e1 = E.num_rows e) as Hn
    by (unfold E.num_rows; by rewrite Hrow1).
  rewrite row_len_code by lia. simpl.
  destruct (Z.gtb_spec (E.cx e1) (row_len e1 (E.cy e1))).
  - eexists. split; [reflexivity|].
    pose proof (row_len_nonneg e1 (E.cy e1)).
    split; [|by simpl].
    unfold cursor_ok, E.num_rows. simpl. fold (E.num_rows e1).
    change (row_len (E.set_cx (row_len e1 (E.cy e1)) e1) (E.cy e1))
      with (row_len e1 (E.cy e1)). lia.
  - eexists. split; [reflexivity|]. split; [|done].
    unfold cursor_ok. lia.
Qed.

Lemma editorMoveCursor_clamp key e e1 :
  editorMoveCursor_switch key e = Some e1 -> 0 <= E.cy e1 ->
  editorMoveCursor key e
  = Some (if E.cx e1 >? row_len e1 (E.cy e1)
          then E.set_cx (row_len e1 (E.cy e1)) e1 else e1).
Proof.
  intros He1 Hcy. unfold editorMoveCursor. rewrite He1. simpl.
  by rewrite row_len_code.
Qed.

(** C10: horizontal movement wraps across line boundaries.  On a valid
    cursor, Left at column 0 of a row below the first goes to the end of
    the previous row; Right at the end of a real row goes to column 0 of
    the next one; Left at (0, 0) and Right on the virtual row past the
    last one change nothing. *)
Theorem editorMoveCursor_wraps_lines (e : editorConfig) :
  cursor_ok e ->
  (E.cx e = 0 -> 0 < E.cy e ->
   exists r,
     row_at e (E.cy e - 1) = Some r /\
     editorMoveCursor ARROW_LEFT e
     = Some (E.set_cx (size r) (E.set_cy (E.cy e - 1) e))) /\
  (forall r,
     row_at e (E.cy e) = Some r -> E.cx e = size r ->
     editorMoveCursor ARROW_RIGHT e
     = Some (E.set_cx 0 (E.set_cy (E.cy e + 1) e))) /\
  (E.cx e = 0 -> E.cy e = 0 -> editorMoveCursor ARROW_LEFT e = Some e) /\
  (E.cy e = E.num_rows e -> editorMoveCursor ARROW_RIGHT e = Some e).
Proof.
  intros [Hcy Hcx]. repeat split.
  - intros Hcx0 Hcy0.
    destruct (row_at_defined e (E.cy e - 1)) as [r Hr]; [lia|].
    exists r. split; [done|].
    rewrite (editorMoveCursor_clamp _ _
               (E.set_cx (size r) (E.set_cy (E.cy e - 1) e))).
    + simpl.
      change (row_len _ (E.cy e - 1)) with (row_len e (E.cy e - 1)).
      rewrite (row_len_Some _ _ _ Hr).
      by destruct (Z.gtb_spec (size r) (size r)); [lia|].
    + unfold editorMoveCursor_switch. simpl. rewrite Hcx0. simpl.
      destruct (Z.gtb_spec (E.cy e) 0); [|lia].
      change (row_at _ (E.cy e - 1)) with (row_at e (E.cy e - 1)).
      by rewrite Hr.
    + simpl. lia.
  - intros r Hr Hcxr.
    pose proof (proj1 (row_at_Some _ _ _) Hr) as [Hin _].
    rewrite (editorMoveCursor_clamp _ _
               (E.set_cx 0 (E.set_cy (E.cy e + 1) e))).
    + simpl. pose proof (row_len_nonneg e (E.cy e + 1)).
      change (row_len _ (E.cy e + 1)) with (row_len e (E.cy e + 1)).
      by destruct (Z.gtb_spec 0 (row_len e (E.cy e + 1))); [lia|].
    + unfold editorMoveCursor_switch. simpl.
      destruct (Z.geb_spec (E.cy e) (E.num_rows e)); [lia|].
      rewrite Hr. simpl.
      destruct (Z.ltb_spec (E.cx e) (size r)); [lia|].
      by destruct (Z.eqb_spec (E.cx e) (size r)).
    + simpl. lia.
  - intros Hcx0 Hcy0.
    rewrite (editorMoveCursor_clamp _ _ e).
    + by destruct (Z.gtb_spec (E.cx e) (row_len e (E.cy e))); [lia|].
    + unfold editorMoveCursor_switch. simpl. rewrite Hcx0, Hcy0. done.
    + lia.
  - intros Heof.
    rewrite (editorMoveCursor_clamp _ _ e).
    + by destruct (Z.gtb_spec (E.cx e) (row_len e (E.cy e))); [lia|].
    + unfold editorMoveCursor_switch. simpl.
      by destruct (Z.geb_spec (E.cy e) (E.num_rows e)); [|lia].
    + lia.
Qed.

(** ** The viewport *)

(** What [editorScroll] makes of an offset: first down to the cursor,
    then up so that the cursor is on the last visible line at worst. *)
Lemma editorScroll_ok e :
  cursor_ok e ->
  exists e',
    editorScroll e = Some e' /\
    E.cx e' = E.cx e /\ E.cy e' = E.cy e /\ E.row e' = E.row e /\
    E.dirty e' = E.dirty e /\
    E.screen_rows e' = E.screen_rows e /\
    E.screen_cols e' = E.screen_cols e /\
    E.syntax e' = E.syntax e /\ E.filename e' = E.filename e /\
    E.quit_times e' = E.quit_times e /\
    E.last_match e' = E.last_match e /\ E.direction e' = E.direction e /\
    E.saved_hl_line e' = E.saved_hl_line e /\ E.saved_hl e' = E.saved_hl e /\
    E.row_offset e'
    = (let ro := if E.cy e <? E.row_offset e then E.cy e
                 else E.row_offset e in
       if E.cy e >=? ro + E.screen_rows e
       then E.cy e - E.screen_rows e + 1 else ro) /\
    E.col_offset e'
    = (let co := if E.rx e' <? E.col_offset e then E.rx e'
                 else E.col_offset e in
       if E.rx e' >=? co + E.screen_cols e
       then E.rx e' - E.screen_cols e + 1 else co) /\
    0 <= E.rx e' /\
    (if E.cy e <? E.num_rows e
     then r ← row_at e (E.cy e); editorRowCxToRx r (E.cx e)
     else Some 0) = Some (E.rx e').
Proof.
  intros Hok. pose proof (cursor_ok_bounds _ Hok) as [Hcy Hcx].
  assert (exists rx,
    (if E.cy e <? E.num_rows e
     then r ← row_at e (E.cy e); editorRowCxToRx r (E.cx e)
     else Some 0) = Some rx /\ 0 <= rx) as (rx & Hrx & Hrx0).
  { destruct (Z.ltb_spec (E.cy e) (E.num_rows e)) as [Hlt|]; [|by exists 0].
    destruct (Hcx Hlt) as (r & -> & Hr). simpl.
    rewrite editorRowCxToRx_width by done. eexists. split; [done|].
    pose proof (width_from_bounds
                  (take (Z.to_nat (E.cx e)) (chars r)) 0 ltac:(lia)).
    pose proof (len_nonneg (take (Z.to_nat (E.cx e)) (chars r))). lia. }
  unfold editorScroll. rewrite Hrx. simpl.
  repeat (match goal with
          | |- context [if ?b then _ else _] =>
              lazymatch b with
              | context [if _ then _ else _] => fail
              | _ => destruct b eqn:?
              end
          end; simpl).
  all: eexists; split; [reflexivity|]; simpl; repeat split; try done.
  all: repeat match goal with
       | H : ?b = _ |- context [if ?b then _ else _] => rewrite H
       end; done.
Qed.

(** C5 (as amended): on a valid cursor and a viewport of at least one
    row and one column [editorScroll] is defined and leaves the cursor
    inside the visible window; for 100 rows, a 20-row viewport and
    [cy = 99] it yields [row_offset = 80] whenever the offset was at
    most 80 before the call. *)
Theorem editorScroll_cursor_visible (e : editorConfig) :
  cursor_ok e -> 1 <= E.screen_rows e -> 1 <= E.screen_cols e ->
  exists e',
    editorScroll e = Some e' /\
    E.cx e' = E.cx e /\ E.cy e' = E.cy e /\ E.row e' = E.row e /\
    E.screen_rows e' = E.screen_rows e /\
    E.screen_cols e' = E.screen_cols e /\
    E.row_offset e' <= E.cy e' < E.row_offset e' + E.screen_rows e' /\
    E.col_offset e' <= E.rx e' < E.col_offset e' + E.screen_cols e' /\
    (E.num_rows e = 100 -> E.screen_rows e = 20 -> E.cy e = 99 ->
     E.row_offset e <= 80 -> E.row_offset e' = 80).
Proof.
  intros Hok Hsr Hsc.
  destruct (editorScroll_ok e Hok)
    as (e' & He' & Hcx & Hcy & Hrow & _ & Hsr' & Hsc' & _ & _ & _ & _ & _ & _
        & _ & Hro & Hco & _).
  exists e'. do 6 (split; [done|]).
  rewrite Hro, Hco, Hcy, Hsr', Hsc'. cbv zeta.
  clear Hro Hco. case_ifs; zbool; repeat split; lia.
Qed.

(** C5, the claim as stated fails: with 100 rows, a 20-row viewport and
    the cursor on row 99, an offset of 90 is left where it is. *)
Lemma editorScroll_offset_90_stays :
  let e := E.set_row_offset 90 (E.set_cy 99 hundred_rows) in
  E.num_rows e = 100 /\ E.screen_rows e = 20 /\ E.cy e = 99 /\
  cursor_ok e /\
  exists e',
    editorScroll e = Some e' /\ E.row_offset e' = 90 /\
    E.row_offset e' <> 80.
Proof.
  repeat split; try (vm_compute; congruence).
  eexists. split; [vm_compute; reflexivity|]. split; [done|]. simpl. lia.
Qed.

(** ** The key decoder *)

Lemma editorReadKey_escape_total inp :
  exists k rest, editorReadKey_escape inp = Key k rest.
Proof.
  unfold editorReadKey_escape, read1.
  repeat match goal with
  | |- context [match ?x with _ => _ end] =>
      lazymatch x with
      | context [match _ with _ => _ end] => fail
      | _ => destruct x
      end
  end; eauto.
Qed.

Lemma editorReadKey_skips_timeouts n inp :
  editorReadKey (replicate n ReadNone ++ inp) = editorReadKey inp.
Proof. induction n as [|n IH]; simpl; done. Qed.

(** Only the sequences of the table decode to something else than the
    escape key. *)
Lemma editorReadKey_escape_table inp k rest :
  editorReadKey_escape inp = Key k rest ->
  k <> ESC_KEY ->
  exists seq, In (seq, k) spec_decoding_table /\
              inp = map ReadByte seq ++ rest.
Proof.
  unfold editorReadKey_escape, read1.
  destruct inp as [|[s0| |] [|[s1| |] inp2]]; try (intros [= <- <-]; done).
  destruct (Ascii.eqb_spec s0 "[") as [->|_].
  - destruct (_ && _).
    + destruct inp2 as [|[s2| |] inp3]; try (intros [= <- <-]; done).
      destruct (Ascii.eqb_spec s2 "~") as [->|_];
        [|intros [= <- <-]; done].
      repeat match goal with
      | |- context [Ascii.eqb s1 ?c] =>
          destruct (Ascii.eqb_spec s1 c) as [->|_]
      end; intros [= <- <-] Hk; try done.
      all: eexists [_; _; _]; split; [|reflexivity]; simpl; tauto.
    + repeat match goal with
      | |- context [Ascii.eqb s1 ?c] =>
          destruct (Ascii.eqb_spec s1 c) as [->|_]
      end; intros [= <- <-] Hk; try done.
      all: eexists [_; _]; split; [|reflexivity]; simpl; tauto.
  - destruct (Ascii.eqb_spec s0 "O") as [->|_];
      [|intros [= <- <-]; done].
    repeat match goal with
    | |- context [Ascii.eqb s1 ?c] =>
        destruct (Ascii.eqb_spec s1 c) as [->|_]
    end; intros [= <- <-] Hk; try done.
    all: eexists [_; _]; split; [|reflexivity]; simpl; tauto.
Qed.

(** C3: the decoder is total on byte streams.  Whatever was read before
    and whatever follows, once a byte arrives [editorReadKey] returns
    exactly one key; every sequence of the table decodes to its key,
    [ESC [ 5 ~] to Page Up and [ESC [ Z] to the escape key; an escape
    followed by anything that is not a sequence of the table, a timeout
    included, is the escape key. *)
Theorem editorReadKey_total :
  (forall (n : nat) (c : ascii) (tl : list read_result),
     exists k rest,
       editorReadKey (replicate n ReadNone ++ ReadByte c :: tl)
       = Key k rest) /\
  (forall tl,
     editorReadKey (map ReadByte [ESC; "["; "5"; "~"]%char ++ tl)
     = Key PAGE_UP tl) /\
  (forall tl,
     editorReadKey (map ReadByte [ESC; "["; "Z"]%char ++ tl)
     = Key ESC_KEY tl) /\
  Forall (fun '(seq, k) =>
            forall tl,
              editorReadKey (ReadByte ESC :: map ReadByte seq ++ tl)
              = Key k tl) spec_decoding_table /\
  (forall inp k rest,
     editorReadKey (ReadByte ESC :: inp) = Key k rest ->
     k = ESC_KEY \/
     exists seq, In (seq, k) spec_decoding_table /\
                 inp = map ReadByte seq ++ rest) /\
  (forall tl, editorReadKey (ReadByte ESC :: ReadNone :: tl)
              = Key ESC_KEY tl) /\
  (forall s0 tl, editorReadKey (ReadByte ESC :: ReadByte s0 :: ReadNone :: tl)
                 = Key ESC_KEY tl) /\
  (forall d tl,
     isdigit (Z_of_char d) = true ->
     editorReadKey (ReadByte ESC :: ReadByte "[" :: ReadByte d
                    :: ReadNone :: tl) = Key ESC_KEY tl).
Proof.
  split; [|split; [|split; [|split; [|split; [|split; [|split]]]]]].
  - intros n c tl. rewrite editorReadKey_skips_timeouts. simpl.
    destruct (Ascii.eqb c ESC); [apply editorReadKey_escape_total|eauto].
  - done.
  - done.
  - unfold spec_decoding_table. repeat constructor.
  - intros inp k rest. simpl. intros H.
    destruct (Z.eq_dec k ESC_KEY) as [|Hk]; [by left|right].
    by eapply editorReadKey_escape_table.
  - done.
  - done.
  - intros d tl. simpl. unfold editorReadKey_escape, isdigit. simpl.
    change (Z_of_char "0") with 48. change (Z_of_char "9") with 57.
    by intros ->.
Qed.

(** ** Incremental search *)

Lemma starts_with_length needle : forall hay,
  starts_with needle hay = true -> (length needle <= length hay)%nat.
Proof.
  induction needle as [|a needle IH]; intros [|b hay]; simpl; try lia.
  intros [_ H]%andb_true_iff. apply IH in H. lia.
Qed.

Lemma strstr_from_bounds needle : forall hay off o,
  strstr_from hay needle off = Some o ->
  off <= o /\ o + len needle <= off + len hay.
Proof.
  induction hay as [|b hay IH]; intros off o; simpl.
  - destruct (starts_with needle []) eqn:Hs; [|done].
    intros [= <-]. apply starts_with_length in Hs. unfold len. simpl in *.
    lia.
  - destruct (starts_with needle (b :: hay)) eqn:Hs.
    + intros [= <-]. apply starts_with_length in Hs. unfold len. lia.
    + intros H%IH. rewrite len_cons. lia.
Qed.

Lemma c_str_length l : (length (c_str l) <= length l)%nat.
Proof.
  induction l as [|c l IH]; simpl; [done|].
  destruct (Ascii.eqb c NUL); simpl; lia.
Qed.

(** A match lies inside the buffer, its whole length included. *)
Lemma strstr_bounds hay needle off :
  strstr hay needle = Some off ->
  0 <= off /\ off + strlen needle <= len hay.
Proof.
  unfold strstr, strlen. intros H%strstr_from_bounds.
  pose proof (c_str_length hay). unfold len in *. lia.
Qed.

Lemma row_hl_ok_at e i r :
  rows_hl_ok e -> row_at e i = Some r -> row_hl_ok r.
Proof.
  intros Hok [_ Hr]%row_at_Some. unfold rows_hl_ok in Hok.
  rewrite Forall_lookup in Hok. by eapply Hok.
Qed.

Lemma put_row_at e i r r' :
  row_at e i = Some r ->
  put_row e i r' = Some (E.set_row (<[Z.to_nat i := r']> (E.row e)) e).
Proof.
  intros [Hi _]%row_at_Some. unfold put_row, store.
  fold (E.num_rows e).
  destruct (Z.leb_spec 0 i); [|lia].
  destruct (Z.ltb_spec i (E.num_rows e)); [|lia]. done.
Qed.

Lemma memdup_all {A} (l : list A) n :
  n = len l -> memdup l n = Some l.
Proof.
  intros ->. unfold memdup. pose proof (len_nonneg l).
  destruct (Z.leb_spec 0 (len l)); [|lia].
  destruct (Z.leb_spec (len l) (len l)); [|lia]. simpl.
  unfold len. by rewrite Nat2Z.id, firstn_all.
Qed.

(** One step of the scan index: the wrap of the source is the
    remainder. *)
Lemma scan_wrap n c dir :
  0 < n -> -1 <= c < n -> dir = 1 \/ (dir = -1 /\ 0 <= c) ->
  (if c + dir =? -1 then n - 1
   else if c + dir =? n then 0 else c + dir) = (c + dir) mod n.
Proof.
  intros Hn Hc Hd.
  destruct (Z.eqb_spec (c + dir) (-1)) as [E1|E1].
  - rewrite E1. destruct (Z.eq_dec n 1) as [->|]; [done|].
    apply Z.mod_unique with (q := -1); lia.
  - destruct (Z.eqb_spec (c + dir) n) as [E2|E2].
    + rewrite E2. by rewrite Z.mod_same by lia.
    + symmetry. apply Z.mod_small. lia.
Qed.

Lemma same_text_refl e : same_text e e.
Proof. by split. Qed.


Lemma same_text_num_rows e e' : same_text e e' -> E.num_rows e' = E.num_rows e.
Proof.
  intros [Hc _]. unfold E.num_rows, len.
  by rewrite <- (length_map chars (E.row e')), Hc, length_map.
Qed.

Lemma same_text_row_at e e' i r' :
  same_text e e' -> row_at e' i = Some r' ->
  exists r, row_at e i = Some r /\ chars r = chars r' /\ render r = render r'.
Proof.
  intros Hst [Hi Hr]%row_at_Some.
  rewrite (same_text_num_rows _ _ Hst) in Hi.
  destruct (row_at_defined e i Hi) as [r Hr0]. exists r. split; [done|].
  apply row_at_Some in Hr0 as [_ Hr0]. destruct Hst as [Hc Hrn].
  apply (f_equal (fun l => l !! Z.to_nat i)) in Hc, Hrn.
  rewrite !list_lookup_fmap, Hr, Hr0 in Hc, Hrn. simpl in *.
  split; congruence.
Qed.

Lemma same_text_sym e e' : same_text e e' -> same_text e' e.
Proof. unfold same_text. intuition congruence. Qed.

Lemma same_text_row_len e e' i : same_text e e' -> row_len e' i = row_len e i.
Proof.
  intros Hst. unfold row_len.
  destruct (row_at e' i) as [r'|] eqn:Hr'.
  - destruct (same_text_row_at _ _ _ _ Hst Hr') as (r & -> & Hc & _).
    unfold size. by rewrite Hc.
  - destruct (row_at e i) as [r|] eqn:Hr; [|done].
    destruct (same_text_row_at _ _ _ _ (same_text_sym _ _ Hst) Hr)
      as (? & ? & _). congruence.
Qed.


Lemma same_text_insert_hl e i r h :
  row_at e i = Some r ->
  same_text e (E.set_row (<[Z.to_nat i := set_hl r h]> (E.row e)) e).
Proof.
  intros [_ Hr]%row_at_Some. unfold same_text. simpl.
  rewrite !list_fmap_insert. simpl.
  split; apply list_insert_id; by rewrite list_lookup_fmap, Hr.
Qed.

Lemma rows_hl_ok_insert e i r' :
  rows_hl_ok e -> row_hl_ok r' ->
  rows_hl_ok (E.set_row (<[i := r']> (E.row e)) e).
Proof. intros Hok Hr. unfold rows_hl_ok. simpl. by apply Forall_insert. Qed.

(** Undoing the overlay is defined during a search and only rewrites
    highlight classes. *)
Lemma editorFindCallback_restore_ok e :
  rows_hl_ok e -> search_ok e ->
  exists e',
    editorFindCallback_restore e = Some e' /\
    E.saved_hl e' = None /\ rows_hl_ok e' /\ same_text e e' /\
    E.cx e' = E.cx e /\ E.cy e' = E.cy e /\ E.dirty e' = E.dirty e /\
    E.last_match e' = E.last_match e /\ E.direction e' = E.direction e /\
    E.rx e' = E.rx e /\ E.row_offset e' = E.row_offset e /\
    E.col_offset e' = E.col_offset e /\
    E.screen_rows e' = E.screen_rows e /\
    E.screen_cols e' = E.screen_cols e /\
    E.syntax e' = E.syntax e /\ E.filename e' = E.filename e /\
    E.quit_times e' = E.quit_times e.
Proof.
  intros Hhl [_ Hsaved]. unfold editorFindCallback_restore.
  destruct (E.saved_hl e) as [saved|] eqn:Hs.
  - destruct Hsaved as (r & Hr & Hlen). rewrite Hr. simpl.
    pose proof (row_hl_ok_at _ _ _ Hhl Hr) as Hrok. unfold row_hl_ok in Hrok.
    destruct (memcpy_defined (hl r) saved (rsize r)) as (h & -> & Hh).
    { apply len_nonneg. } { unfold rsize, len. lia. } { lia. }
    simpl. rewrite (put_row_at _ _ _ _ Hr). simpl.
    eexists. split; [reflexivity|]. simpl.
    split; [done|]. split.
    { apply rows_hl_ok_insert; [done|]. unfold row_hl_ok. simpl. lia. }
    split; [by apply same_text_insert_hl|]. by repeat split.
  - eexists. split; [reflexivity|]. split; [done|]. split; [done|].
    split; [apply same_text_refl|]. by repeat split.
Qed.

Lemma scan_index_step n c dir j :
  0 < n -> scan_index n ((c + dir) mod n) dir j = scan_index n c dir (j + 1).
Proof.
  intros Hn. unfold scan_index. rewrite Z.add_mod_idemp_l by lia.
  f_equal. lia.
Qed.

Lemma scan_index_first n c dir : scan_index n c dir 1 = (c + dir) mod n.
Proof. unfold scan_index. by rewrite Z.mul_1_r. Qed.

(** The scan visits [scan_index 1], [scan_index 2], ... and stops at the
    first row that contains the query. *)
Lemma editorFindCallback_loop_spec query e :
  rows_hl_ok e -> 0 < E.num_rows e ->
  forall m c,
    -1 <= c < E.num_rows e ->
    E.direction e = 1 \/ (E.direction e = -1 /\ 0 <= c) ->
    (editorFindCallback_loop m query c e = Some e /\
     forall j, 1 <= j <= Z.of_nat m ->
       no_match query e (scan_index (E.num_rows e) c (E.direction e) j))
    \/
    (exists k e',
       1 <= k <= Z.of_nat m /\
       (forall j, 1 <= j < k ->
          no_match query e (scan_index (E.num_rows e) c (E.direction e) j)) /\
       editorFindCallback_loop m query c e = Some e' /\
       match_found query e e'
         (scan_index (E.num_rows e) c (E.direction e) k)).
Proof.
  intros Hhl Hn. induction m as [|m IH]; intros c Hc Hd.
  { left. split; [done|]. intros j Hj. lia. }
  cbn [editorFindCallback_loop]. rewrite scan_wrap by (done || lia).
  set (c1 := (c + E.direction e) mod E.num_rows e).
  assert (0 <= c1 < E.num_rows e) as Hc1 by (apply Z.mod_pos_bound; lia).
  destruct (row_at_defined e c1 Hc1) as [r Hr]. rewrite Hr. simpl.
  destruct (strstr (render r) query) as [off|] eqn:Hoff.
  - right. exists 1.
    pose proof (row_hl_ok_at _ _ _ Hhl Hr) as Hrok. unfold row_hl_ok in Hrok.
    rewrite memdup_all by (unfold rsize, len; lia). simpl.
    destruct (strstr_bounds _ _ _ Hoff) as [Hoff0 Hoff1].
    destruct (memset_defined (hl r) off HL_MATCH (strlen query))
      as (h & Hh & Hhlen); [lia|apply len_nonneg|unfold len in *; lia|].
    rewrite Hh. simpl.
    erewrite put_row_at by exact Hr.
    eexists. split; [lia|]. split; [intros j Hj; lia|].
    split; [reflexivity|]. rewrite scan_index_first. fold c1.
    exists r, off, h. simpl. by repeat split.
  - assert (E.direction e = 1 \/ E.direction e = -1 /\ 0 <= c1) as Hd1
      by (destruct Hd as [?|[? _]]; [by left|right; lia]).
    assert (no_match query e c1) as Hno1.
    { intros r' Hr'. rewrite Hr in Hr'. by injection Hr' as <-. }
    destruct (IH c1 ltac:(lia) Hd1) as [[Hl Hno]|(k & e' & Hk & Hno & Hl & Hm)].
    + left. split; [done|]. intros j Hj.
      destruct (Z.eq_dec j 1) as [->|Hj1].
      * by rewrite scan_index_first.
      * replace j with ((j - 1) + 1) by lia.
        rewrite <- scan_index_step by done. apply Hno. lia.
    + right. exists (k + 1), e'. split; [lia|]. split.
      * intros j Hj. destruct (Z.eq_dec j 1) as [->|Hj1].
        -- by rewrite scan_index_first.
        -- replace j with ((j - 1) + 1) by lia.
           rewrite <- scan_index_step by done. apply Hno. lia.
      * split; [done|]. by rewrite <- scan_index_step.
Qed.

Lemma editorFindCallback_direction_spec key e :
  let e0 := editorFindCallback_direction key e in
  E.last_match e0 = search_start key e /\
  E.direction e0 = search_direction key e /\
  E.row e0 = E.row e /\ E.saved_hl e0 = E.saved_hl e /\
  E.saved_hl_line e0 = E.saved_hl_line e /\
  E.cx e0 = E.cx e /\ E.cy e0 = E.cy e /\ E.dirty e0 = E.dirty e /\
  E.rx e0 = E.rx e /\ E.row_offset e0 = E.row_offset e /\
  E.col_offset e0 = E.col_offset e /\
  E.screen_rows e0 = E.screen_rows e /\
  E.screen_cols e0 = E.screen_cols e /\
  E.syntax e0 = E.syntax e /\ E.filename e0 = E.filename e /\
  E.quit_times e0 = E.quit_times e.
Proof.
  unfold editorFindCallback_direction, search_direction, search_start.
  unfold ARROW_RIGHT, ARROW_DOWN, ARROW_LEFT, ARROW_UP.
  destruct (Z.eqb_spec key 1003) as [->|?];
    [|destruct (Z.eqb_spec key 1001) as [->|?];
      [|destruct (Z.eqb_spec key 1002) as [->|?];
        [|destruct (Z.eqb_spec key 1000) as [->|?]]]];
    simpl; destruct (E.last_match e =? -1) eqn:?; simpl;
    by repeat split.
Qed.

Lemma search_direction_ok key e :
  -1 <= E.last_match e ->
  search_direction key e = 1 \/
  (search_direction key e = -1 /\ 0 <= search_start key e).
Proof.
  intros Hl. unfold search_direction.
  assert (-1 <= search_start key e)
    by (unfold search_start; case_ifs; lia).
  case_ifs; zbool; (by left) || (right; lia).
Qed.

Lemma search_start_range key e :
  -1 <= E.last_match e < E.num_rows e -> 0 < E.num_rows e ->
  -1 <= search_start key e < E.num_rows e.
Proof. intros H Hn. unfold search_start. case_ifs; lia. Qed.

Lemma no_match_rows query e e' i :
  E.row e' = E.row e -> no_match query e i -> no_match query e' i.
Proof. unfold no_match, row_at. by intros ->. Qed.

(** A search step, once the overlay is undone: the rows are visited in
    scan order from the start the key selects, at most once each, up to
    the first one that contains the query. *)
Lemma editorFindCallback_after_restore query key e er :
  editorFindCallback_restore e = Some er ->
  rows_hl_ok er -> -1 <= E.last_match er < E.num_rows er ->
  key <> ENTER_KEY -> key <> ESC_KEY ->
  let e0 := editorFindCallback_direction key er in
  let n := E.num_rows er in
  let start := search_start key er in
  let dir := search_direction key er in
  (editorFindCallback query key e = Some e0 /\
   forall j, 1 <= j <= n -> no_match query er (scan_index n start dir j))
  \/
  (exists k e',
     1 <= k <= n /\
     (forall j, 1 <= j < k -> no_match query er (scan_index n start dir j)) /\
     editorFindCallback query key e = Some e' /\
     match_found query e0 e' (scan_index n start dir k)).
Proof.
  intros Hre Hhl Hlm Hk1 Hk2 e0 n start dir.
  destruct (editorFindCallback_direction_spec key er)
    as (Hl0 & Hd0 & Hrow0 & _).
  fold e0 in Hl0, Hd0, Hrow0.
  assert (E.num_rows e0 = n) as Hn0 by (unfold E.num_rows; by rewrite Hrow0).
  unfold editorFindCallback. rewrite Hre. simpl.
  destruct (Z.eqb_spec key ENTER_KEY); [done|].
  destruct (Z.eqb_spec key ESC_KEY); [done|]. simpl. fold e0.
  rewrite Hn0, Hl0. fold start.
  destruct (Z.eq_dec n 0) as [Hz|Hnz].
  { left. rewrite Hz. split; [done|]. intros j Hj. lia. }
  assert (0 < n) as Hpos by (pose proof (len_nonneg (E.row er)); unfold n, E.num_rows in *; lia).
  assert (rows_hl_ok e0) as Hhl0 by (unfold rows_hl_ok; by rewrite Hrow0).
  destruct (editorFindCallback_loop_spec query e0 Hhl0 ltac:(lia)
              (Z.to_nat n) start) as [[Hl Hno]|(k & e' & Hk & Hno & Hl & Hm)].
  - rewrite Hn0. by apply search_start_range.
  - rewrite Hd0. destruct (search_direction_ok key er ltac:(lia)); eauto.
  - left. split; [done|]. intros j Hj.
    apply (no_match_rows _ e0); [done|].
    specialize (Hno j ltac:(lia)). by rewrite Hn0, Hd0 in Hno.
  - right. exists k, e'. rewrite Hn0, Hd0 in Hno, Hm.
    split; [lia|]. split; [|done].
    intros j Hj. apply (no_match_rows _ e0); [done|]. by apply Hno.
Qed.



(** ** Editing keeps the cursor and the highlighting valid *)

Lemma cursor_ok_middle e pre r post :
  E.row e = pre ++ r :: post -> E.cy e = len pre -> 0 <= E.cx e <= size r ->
  cursor_ok e.
Proof.
  intros Hrow Hcy Hcx. unfold cursor_ok.
  rewrite (num_rows_middle _ _ _ _ Hrow), Hcy.
  rewrite (row_len_Some _ _ _ (row_at_middle _ _ _ _ Hrow)).
  pose proof (len_nonneg pre). pose proof (len_nonneg post). lia.
Qed.

Lemma cursor_ok_col0 e :
  0 <= E.cy e <= E.num_rows e -> E.cx e = 0 -> cursor_ok e.
Proof.
  intros Hcy Hcx. split; [done|]. rewrite Hcx.
  pose proof (row_len_nonneg e (E.cy e)). lia.
Qed.

Lemma cursor_ok_on_row e :
  cursor_ok e -> E.cy e < E.num_rows e ->
  exists pre r post,
    E.row e = pre ++ r :: post /\ E.cy e = len pre /\ 0 <= E.cx e <= size r.
Proof.
  intros Hok Hlt. destruct (cursor_ok_bounds _ Hok) as [_ Hb].
  destruct (Hb Hlt) as (r & Hr & Hcx).
  destruct (row_at_split _ _ _ Hr) as (pre & post & Hrow & Hlen).
  by exists pre, r, post.
Qed.

Lemma cursor_ok_past_end e :
  cursor_ok e -> E.cy e = E.num_rows e -> E.cx e = 0.
Proof.
  intros [Hcy Hcx] Heq. unfold row_len in Hcx.
  destruct (row_at e (E.cy e)) eqn:Hr; [|lia].
  apply row_at_Some in Hr. lia.
Qed.

Lemma rows_at_cursor e :
  0 <= E.cy e <= E.num_rows e ->
  exists pre post, E.row e = pre ++ post /\ E.cy e = len pre.
Proof.
  intros Hcy. exists (take (Z.to_nat (E.cy e)) (E.row e)),
    (drop (Z.to_nat (E.cy e)) (E.row e)).
  split; [by rewrite take_drop|].
  unfold E.num_rows, len in *. rewrite length_take. lia.
Qed.

Lemma row_at_split2 e i r :
  row_at e i = Some r -> 0 < i ->
  exists pre prev post,
    E.row e = pre ++ prev :: r :: post /\ len pre = i - 1.
Proof.
  intros Hr Hi.
  destruct (row_at_split _ _ _ Hr) as (pre & post & Hrow & Hlen).
  induction pre as [|prev pre' _] using rev_ind.
  - unfold len in Hlen. simpl in Hlen. lia.
  - exists pre', prev, post. rewrite <- app_assoc in Hrow.
    rewrite len_snoc in Hlen. split; [done|lia].
Qed.

Lemma rows_hl_ok_rows e e' :
  E.row e' = E.row e -> rows_hl_ok e -> rows_hl_ok e'.
Proof. unfold rows_hl_ok. by intros ->. Qed.

Lemma Forall_middle {A} (P : A -> Prop) pre x post :
  Forall P (pre ++ x :: post) <-> Forall P pre /\ P x /\ Forall P post.
Proof. by rewrite Forall_app, Forall_cons. Qed.

Lemma editorInsertChar_on_row c e pre r post :
  E.row e = pre ++ r :: post -> E.cy e = len pre -> 0 <= E.cx e <= size r ->
  exists e',
    editorInsertChar c e = Some e' /\
    E.row e' = pre ++ make_row (E.syntax e)
                        (take (Z.to_nat (E.cx e)) (chars r) ++ char_of_Z c
                         :: drop (Z.to_nat (E.cx e)) (chars r)) :: post /\
    E.cx e' = E.cx e + 1 /\ E.cy e' = len pre /\ same_frame e e'.
Proof.
  intros Hrow Hcy Hcx. unfold editorInsertChar.
  rewrite (num_rows_middle _ _ _ _ Hrow), Hcy.
  pose proof (len_nonneg post).
  destruct (Z.eqb_spec (len pre) (len pre + 1 + len post)); [lia|]. simpl.
  rewrite Hcy, (editorRowInsertChar_middle _ _ _ _ _ _ Hrow). cbv zeta.
  destruct (Z.ltb_spec (E.cx e) 0); [lia|].
  destruct (Z.gtb_spec (E.cx e) (size r)); [lia|]. simpl.
  eexists. split; [reflexivity|]. simpl. by repeat split.
Qed.

Lemma editorInsertChar_past_end c e :
  E.cy e = E.num_rows e ->
  exists e',
    editorInsertChar c e = Some e' /\
    E.row e' = E.row e ++ [make_row (E.syntax e) [char_of_Z c]] /\
    E.cx e' = E.cx e + 1 /\ E.cy e' = E.cy e /\ same_frame e e'.
Proof.
  intros Hcy. unfold editorInsertChar. rewrite Hcy, Z.eqb_refl.
  assert (E.row e = E.row e ++ []) as Hrow by (by rewrite app_nil_r).
  unfold E.num_rows at 1.
  rewrite (editorInsertRow_middle _ _ _ _ Hrow). simpl.
  set (e1 := bump_dirty _).
  assert (E.row e1 = E.row e ++ make_row (E.syntax e) [] :: []) as Hrow1
    by done.
  change (E.cy e1) with (E.cy e). rewrite Hcy. unfold E.num_rows.
  rewrite (editorRowInsertChar_middle _ _ _ _ _ _ Hrow1). cbv zeta.
  rewrite size_make_row. change (len []) with 0.
  assert ((if (E.cx e <? 0) || (E.cx e >? 0) then 0 else E.cx e) = 0)
    as -> by (case_ifs; zbool; lia).
  rewrite chars_make_row. simpl.
  eexists. split; [reflexivity|]. simpl. subst e1.
  unfold E.num_rows in Hcy. by repeat split.
Qed.

Lemma editorInsertChar_ok c e :
  cursor_ok e -> rows_hl_ok e ->
  exists e',
    editorInsertChar c e = Some e' /\ cursor_ok e' /\ rows_hl_ok e' /\
    same_frame e e'.
Proof.
  intros Hok Hhl. pose proof Hok as [Hcy _].
  destruct (Z.eq_dec (E.cy e) (E.num_rows e)) as [Heq|Hne].
  - destruct (editorInsertChar_past_end c e Heq)
      as (e' & He' & Hrow' & Hcx' & Hcy' & Hfr).
    exists e'. split; [done|]. split; [|split; [|done]].
    + eapply (cursor_ok_middle e' (E.row e) _ []); [exact Hrow'|by rewrite Hcy'|].
      rewrite Hcx', (cursor_ok_past_end _ Hok Heq), size_make_row.
      unfold len. simpl. lia.
    + unfold rows_hl_ok. rewrite Hrow', Forall_app, Forall_singleton.
      split; [done|apply make_row_hl_ok].
  - destruct (cursor_ok_on_row e Hok ltac:(lia))
      as (pre & r & post & Hrow & Hcy' & Hcx).
    destruct (editorInsertChar_on_row c e pre r post Hrow Hcy' Hcx)
      as (e' & He' & Hrow' & Hcx' & Hcy'' & Hfr).
    exists e'. split; [done|]. split; [|split; [|done]].
    + eapply (cursor_ok_middle e' pre _ post); [exact Hrow'|done|].
      rewrite Hcx', size_make_row. unfold size, len in *.
      rewrite length_app, length_take. simpl. rewrite length_drop. lia.
    + unfold rows_hl_ok in *. rewrite Hrow in Hhl. rewrite Hrow'.
      apply Forall_middle in Hhl as (? & _ & ?). apply Forall_middle.
      split; [done|]. split; [apply make_row_hl_ok|done].
Qed.

Lemma editorInsertNewline_ok e :
  cursor_ok e -> rows_hl_ok e ->
  exists e',
    editorInsertNewline e = Some e' /\ cursor_ok e' /\ rows_hl_ok e' /\
    same_frame e e'.
Proof.
  intros Hok Hhl. pose proof Hok as [Hcy Hcx0].
  destruct (Z.eq_dec (E.cx e) 0) as [Hz|Hnz].
  - destruct (rows_at_cursor e Hcy) as (pre & post & Hrow & Hcy').
    destruct (editorInsertNewline_at_start e pre post Hrow Hcy' Hz)
      as (e' & He' & Hrow' & Hcx' & Hcy'' & Hfr).
    exists e'. split; [done|]. split; [|split; [|done]].
    + apply cursor_ok_col0; [|done].
      rewrite (num_rows_middle _ _ _ _ Hrow'), Hcy''.
      pose proof (len_nonneg pre). pose proof (len_nonneg post). lia.
    + unfold rows_hl_ok in *. rewrite Hrow in Hhl. rewrite Hrow'.
      apply Forall_app in Hhl as [? ?]. apply Forall_middle.
      split; [done|]. split; [apply make_row_hl_ok|done].
  - assert (E.cy e < E.num_rows e) as Hlt.
    { destruct (Z.eq_dec (E.cy e) (E.num_rows e)) as [Heq|]; [|lia].
      pose proof (cursor_ok_past_end _ Hok Heq). lia. }
    destruct (cursor_ok_on_row e Hok Hlt)
      as (pre & r & post & Hrow & Hcy' & Hcx).
    destruct (editorInsertNewline_split e pre r post Hrow Hcy' ltac:(lia))
      as (e' & He' & Hrow' & Hcx' & Hcy'' & Hfr).
    exists e'. split; [done|]. split; [|split; [|done]].
    + apply cursor_ok_col0; [|done].
      rewrite (num_rows_middle _ _ _ _ Hrow'), Hcy'', len_cons.
      pose proof (len_nonneg pre). pose proof (len_nonneg post). lia.
    + unfold rows_hl_ok in *. rewrite Hrow in Hhl. rewrite Hrow'.
      apply Forall_middle in Hhl as (? & _ & ?). apply Forall_middle.
      split; [done|]. split; [apply make_row_hl_ok|].
      apply Forall_cons. split; [apply make_row_hl_ok|done].
Qed.

Lemma editorDelChar_ok e :
  cursor_ok e -> rows_hl_ok e ->
  exists e',
    editorDelChar e = Some e' /\ cursor_ok e' /\ rows_hl_ok e' /\
    same_frame e e'.
Proof.
  intros Hok Hhl. pose proof Hok as [Hcy Hcx0].
  destruct (Z.eq_dec (E.cy e) (E.num_rows e)) as [Heq|Hne].
  { exists e. rewrite editorDelChar_noop by (by left).
    split; [done|]. split; [done|]. split; [done|apply same_frame_refl]. }
  destruct (cursor_ok_on_row e Hok ltac:(lia))
    as (pre & r & post & Hrow & Hcy' & Hcx).
  destruct (Z.eq_dec (E.cx e) 0) as [Hz|Hnz].
  - destruct (Z.eq_dec (E.cy e) 0) as [Hz'|Hnz'].
    { exists e. rewrite editorDelChar_noop by (by right).
      split; [done|]. split; [done|]. split; [done|apply same_frame_refl]. }
    destruct (row_at_split2 e (E.cy e) r) as (pre' & prev & post' & Hrow2 & Hl);
      [rewrite Hcy'; by eapply row_at_middle|lia|].
    destruct (editorDelChar_merge e pre' prev r post' Hrow2 ltac:(lia)
                ltac:(lia))
      as (e' & He' & Hrow' & Hcx' & Hcy'' & Hfr).
    exists e'. split; [done|]. split; [|split; [|done]].
    + eapply (cursor_ok_middle e' pre' _ post'); [exact Hrow'|done|].
      rewrite Hcx', size_make_row, len_app. unfold size.
      pose proof (len_nonneg (chars prev)).
      pose proof (len_nonneg (chars r)). lia.
    + unfold rows_hl_ok in *. rewrite Hrow2 in Hhl. rewrite Hrow'.
      apply Forall_middle in Hhl as (? & _ & Hp).
      apply Forall_cons in Hp as [_ ?]. apply Forall_middle.
      split; [done|]. split; [apply make_row_hl_ok|done].
  - destruct (editorDelChar_left e pre r post Hrow Hcy' ltac:(lia))
      as (e' & He' & Hrow' & Hcx' & Hcy'' & Hfr).
    exists e'. split; [done|]. split; [|split; [|done]].
    + eapply (cursor_ok_middle e' pre _ post); [exact Hrow'|done|].
      rewrite Hcx', size_make_row. unfold size, len in *.
      rewrite length_delete; [lia|].
      apply lookup_lt_is_Some. lia.
    + unfold rows_hl_ok in *. rewrite Hrow in Hhl. rewrite Hrow'.
      apply Forall_middle in Hhl as (? & _ & ?). apply Forall_middle.
      split; [done|]. split; [apply make_row_hl_ok|done].
Qed.

(** ** One highlight class per rendered byte, operation by operation *)

Ltac split_binds :=
  repeat match goal with
  | H : (_ ≫= _) = Some _ |- _ =>
      let x := fresh "x" in
      let Hx := fresh "Hx" in
      apply bind_Some in H as (x & Hx & H)
  | H : Some _ = Some _ |- _ => injection H as H
  end.

Lemma editorUpdateRow_hl syn r r' :
  editorUpdateRow syn r = Some r' -> row_hl_ok r'.
Proof. by intros (_ & _ & ?)%editorUpdateRow_Some. Qed.

Lemma put_row_hl e i r e' :
  rows_hl_ok e -> row_hl_ok r -> put_row e i r = Some e' -> rows_hl_ok e'.
Proof.
  intros Hhl Hr H. unfold put_row in H. split_binds. subst e'.
  apply store_Some in Hx as (_ & -> & _). by apply rows_hl_ok_insert.
Qed.

Lemma bump_dirty_hl e : rows_hl_ok e -> rows_hl_ok (bump_dirty e).
Proof. done. Qed.

Lemma editorInsertRow_hl at_ s e e' :
  rows_hl_ok e -> editorInsertRow at_ s e = Some e' -> rows_hl_ok e'.
Proof.
  intros Hhl. unfold editorInsertRow.
  destruct (_ || _); [by intros [= <-]|]. intros H. split_binds. subst e'.
  unfold rows_hl_ok in *. simpl. apply Forall_app. split.
  - by apply Forall_take.
  - apply Forall_cons. split; [by eapply editorUpdateRow_hl|].
    by apply Forall_drop.
Qed.

Lemma editorDelRow_hl at_ e : rows_hl_ok e -> rows_hl_ok (editorDelRow at_ e).
Proof.
  intros Hhl. unfold editorDelRow. destruct (_ || _); [done|].
  unfold rows_hl_ok in *. simpl. by apply Forall_delete.
Qed.

Lemma editorRowInsertChar_hl idx at_ c e e' :
  rows_hl_ok e -> editorRowInsertChar idx at_ c e = Some e' -> rows_hl_ok e'.
Proof.
  intros Hhl H. unfold editorRowInsertChar in H. split_binds. subst e'.
  apply bump_dirty_hl. eapply put_row_hl; [done| |done].
  by eapply editorUpdateRow_hl.
Qed.

Lemma editorRowAppendString_hl idx s e e' :
  rows_hl_ok e -> editorRowAppendString idx s e = Some e' -> rows_hl_ok e'.
Proof.
  intros Hhl H. unfold editorRowAppendString in H. split_binds. subst e'.
  apply bump_dirty_hl. eapply put_row_hl; [done| |done].
  by eapply editorUpdateRow_hl.
Qed.

Lemma editorRowDelChar_hl idx at_ e e' :
  rows_hl_ok e -> editorRowDelChar idx at_ e = Some e' -> rows_hl_ok e'.
Proof.
  intros Hhl H. unfold editorRowDelChar in H. split_binds.
  destruct (_ || _); [by injection H as <-|]. split_binds. subst e'.
  apply bump_dirty_hl. eapply put_row_hl; [done| |done].
  by eapply editorUpdateRow_hl.
Qed.

Lemma editorInsertChar_hl c e e' :
  rows_hl_ok e -> editorInsertChar c e = Some e' -> rows_hl_ok e'.
Proof.
  intros Hhl H. unfold editorInsertChar in H. split_binds. subst e'.
  apply (rows_hl_ok_rows x0); [done|].
  eapply editorRowInsertChar_hl; [|done].
  destruct (_ =? _); [by eapply editorInsertRow_hl|by injection Hx as <-].
Qed.

Lemma editorInsertNewline_hl e e' :
  rows_hl_ok e -> editorInsertNewline e = Some e' -> rows_hl_ok e'.
Proof.
  intros Hhl H. unfold editorInsertNewline in H. split_binds. subst e'.
  apply (rows_hl_ok_rows x); [done|].
  destruct (_ =? _); [by eapply editorInsertRow_hl|].
  split_binds. destruct (_ || _); [done|]. split_binds.
  eapply put_row_hl; [|by eapply editorUpdateRow_hl|done].
  by eapply editorInsertRow_hl.
Qed.

Lemma editorDelChar_hl e e' :
  rows_hl_ok e -> editorDelChar e = Some e' -> rows_hl_ok e'.
Proof.
  intros Hhl H. unfold editorDelChar in H.
  destruct (_ =? _); [by injection H as <-|].
  destruct (_ && _); [by injection H as <-|].
  split_binds. destruct (_ >? _); split_binds; subst e'.
  - apply (rows_hl_ok_rows x0); [done|]. by eapply editorRowDelChar_hl.
  - apply (rows_hl_ok_rows (editorDelRow (E.cy x1) x1)); [done|].
    apply editorDelRow_hl.
    eapply editorRowAppendString_hl; [|exact Hx1]. exact Hhl.
Qed.

Lemma editorUpdateSyntax_hl syn r r' :
  editorUpdateSyntax syn r = Some r' -> row_hl_ok r'.
Proof.
  intros H. destruct (editorUpdateSyntax_defined syn r) as (r'' & H' & ? & ? & ?).
  by simplify_eq.
Qed.

Lemma editorSelectSyntaxHighlight_hl e e' :
  rows_hl_ok e -> editorSelectSyntaxHighlight e = Some e' -> rows_hl_ok e'.
Proof.
  intros Hhl. unfold editorSelectSyntaxHighlight.
  destruct (E.filename e); [|by intros [= <-]].
  destruct (List.find _ _) as [s|]; [|by intros [= <-]].
  intros H. split_binds. subst e'. unfold rows_hl_ok. simpl.
  apply mapM_Some in Hx. apply Forall_forall. intros r' Hr'.
  apply list_elem_of_lookup in Hr' as [i Hi].
  destruct (Forall2_lookup_r _ _ _ _ _ Hx Hi) as (r & _ & Hr).
  by eapply editorUpdateSyntax_hl.
Qed.

Lemma editorSelectSyntaxHighlight_defined e :
  is_Some (editorSelectSyntaxHighlight e).
Proof.
  unfold editorSelectSyntaxHighlight.
  destruct (E.filename e); [|done].
  destruct (List.find _ _) as [s|]; [|done].
  assert (is_Some (mapM (editorUpdateSyntax (Some s))
                     (E.row (E.set_syntax None e)))) as [rows ->]; [|done].
  apply mapM_is_Some. apply Forall_forall. intros r _. unfold compose.
  destruct (editorUpdateSyntax_defined (Some s) r) as (r' & -> & _). done.
Qed.

Lemma editorFindCallback_restore_hl e e' :
  rows_hl_ok e -> editorFindCallback_restore e = Some e' -> rows_hl_ok e'.
Proof.
  intros Hhl. unfold editorFindCallback_restore.
  destruct (E.saved_hl e); [|by intros [= <-]].
  intros H. split_binds. subst e'.
  apply (rows_hl_ok_rows x1); [done|].
  eapply put_row_hl; [done| |done].
  pose proof (row_hl_ok_at _ _ _ Hhl Hx) as Hr.
  apply memcpy_Some in Hx0. unfold row_hl_ok in *. simpl. lia.
Qed.

Lemma editorFindCallback_loop_hl query : forall n c e e',
  rows_hl_ok e -> editorFindCallback_loop n query c e = Some e' ->
  rows_hl_ok e'.
Proof.
  induction n as [|n IH]; intros c e e' Hhl; simpl.
  - by intros [= <-].
  - intros H. split_binds. destruct (strstr _ _); [|by eapply IH].
    split_binds. eapply put_row_hl; [| |done]; [done|].
    pose proof (row_hl_ok_at _ _ _ Hhl Hx) as Hr.
    apply memset_Some in Hx1. unfold row_hl_ok in *. simpl. lia.
Qed.

Lemma editorFindCallback_hl query key e e' :
  rows_hl_ok e -> editorFindCallback query key e = Some e' -> rows_hl_ok e'.
Proof.
  intros Hhl H. unfold editorFindCallback in H. split_binds.
  apply editorFindCallback_restore_hl in Hx; [|done].
  destruct (_ || _); [by injection H as <-|].
  eapply editorFindCallback_loop_hl; [|done].
  destruct (editorFindCallback_direction_spec key x) as (_ & _ & Hrow & _).
  by apply (rows_hl_ok_rows x).
Qed.

Lemma editorFindCallback_defined query key e :
  rows_hl_ok e -> search_ok e -> is_Some (editorFindCallback query key e).
Proof.
  intros Hhl Hs.
  destruct (editorFindCallback_restore_ok e Hhl Hs)
    as (er & Hre & _ & Hhlr & Hst & _ & _ & _ & Hlm & _).
  destruct (Z.eq_dec key ENTER_KEY) as [->|Hk1].
  { unfold editorFindCallback. rewrite Hre. done. }
  destruct (Z.eq_dec key ESC_KEY) as [->|Hk2].
  { unfold editorFindCallback. rewrite Hre. done. }
  destruct (editorFindCallback_after_restore query key e er Hre Hhlr)
    as [[-> _]|(k & e' & _ & _ & -> & _)]; try done.
  destruct Hs as [Hs _].
  by rewrite (same_text_num_rows _ _ Hst), Hlm.
Qed.

Lemma row_op_defined e idx :
  0 <= idx < E.num_rows e ->
  exists pre r post, E.row e = pre ++ r :: post /\ idx = len pre.
Proof.
  intros Hi. destruct (row_at_defined e idx Hi) as [r Hr].
  destruct (row_at_split _ _ _ Hr) as (pre & post & Hrow & Hlen).
  by exists pre, r, post.
Qed.

(** C2: every operation that changes a row's content or re-runs the
    highlighting (row insertion and deletion, character insertion,
    deletion and append, the newline split, the selection of a syntax
    profile, and a search step with its Match overlay and its restore)
    leaves every row with exactly one highlight class per byte of its
    render string; the operation is defined whenever its indices are
    in range, and [editorUpdateRow] itself always produces such a
    row. *)
Theorem hl_length_invariant (m : mutation) (e : editorConfig) :
  rows_hl_ok e ->
  (forall e', apply_mutation m e = Some e' -> rows_hl_ok e') /\
  (mutation_defined m e ->
   exists e', apply_mutation m e = Some e' /\ rows_hl_ok e') /\
  (forall syn r,
     exists r', editorUpdateRow syn r = Some r' /\
                len (hl r') = rsize r').
Proof.
  intros Hhl.
  assert (forall e', apply_mutation m e = Some e' -> rows_hl_ok e') as Hpres.
  { intros e' H. destruct m; simpl in H.
    - by eapply editorInsertRow_hl.
    - injection H as <-. by apply editorDelRow_hl.
    - by eapply editorRowInsertChar_hl.
    - by eapply editorRowDelChar_hl.
    - by eapply editorRowAppendString_hl.
    - by eapply editorInsertChar_hl.
    - by eapply editorDelChar_hl.
    - by eapply editorInsertNewline_hl.
    - by eapply editorSelectSyntaxHighlight_hl.
    - by eapply editorFindCallback_hl. }
  split; [done|]. split.
  - intros Hdef.
    assert (is_Some (apply_mutation m e)) as [e' He']; [|by eauto].
    destruct m; simpl in *.
    + destruct (decide (0 <= at_ <= E.num_rows e)).
      * by rewrite editorInsertRow_in_range.
      * by rewrite editorInsertRow_out_of_range.
    + done.
    + destruct (row_op_defined e idx Hdef) as (pre & r & post & Hrow & ->).
      by rewrite (editorRowInsertChar_middle _ _ _ _ _ _ Hrow).
    + destruct (row_op_defined e idx Hdef) as (pre & r & post & Hrow & ->).
      rewrite (editorRowDelChar_middle _ _ _ _ _ Hrow).
      by destruct (_ || _).
    + destruct (row_op_defined e idx Hdef) as (pre & r & post & Hrow & ->).
      by rewrite (editorRowAppendString_middle _ _ _ _ _ Hrow).
    + destruct (editorInsertChar_ok c e Hdef Hhl) as (e' & -> & _). done.
    + destruct (editorDelChar_ok e Hdef Hhl) as (e' & -> & _). done.
    + destruct (editorInsertNewline_ok e Hdef Hhl) as (e' & -> & _). done.
    + apply editorSelectSyntaxHighlight_defined.
    + by apply editorFindCallback_defined.
  - intros syn r.
    destruct (editorUpdateRow_defined syn r) as (r' & Hr' & _ & _ & Hlen).
    exists r'. split; [done|]. unfold rsize, len. lia.
Qed.

(** ** The key loop keeps the cursor in bounds *)

Lemma cursor_ok_transfer e e' :
  E.cx e' = E.cx e -> E.cy e' = E.cy e -> E.row e' = E.row e ->
  cursor_ok e -> cursor_ok e'.
Proof.
  unfold cursor_ok, row_len, row_at, E.num_rows. by intros -> -> ->.
Qed.

Lemma cursor_ok_same_text e e' :
  E.cx e' = E.cx e -> E.cy e' = E.cy e -> same_text e e' ->
  cursor_ok e -> cursor_ok e'.
Proof.
  intros Hcx Hcy Hst. unfold cursor_ok.
  by rewrite Hcx, Hcy, (same_text_num_rows _ _ Hst),
    (same_text_row_len _ _ _ Hst).
Qed.

Lemma search_idle_transfer e e' :
  E.last_match e' = E.last_match e -> E.direction e' = E.direction e ->
  E.saved_hl e' = E.saved_hl e -> search_idle e -> search_idle e'.
Proof. unfold search_idle. by intros -> -> ->. Qed.






(** The refresh before every key: defined, and it only moves the
    viewport, to a non-negative offset at or above the cursor row. *)
Lemma editorRefreshScreen_ok e :
  cursor_ok e -> 0 <= E.row_offset e ->
  exists e',
    editorRefreshScreen e = Some e' /\
    E.cx e' = E.cx e /\ E.cy e' = E.cy e /\ E.row e' = E.row e /\
    E.screen_rows e' = E.screen_rows e /\
    E.last_match e' = E.last_match e /\ E.direction e' = E.direction e /\
    E.saved_hl_line e' = E.saved_hl_line e /\ E.saved_hl e' = E.saved_hl e /\
    0 <= E.row_offset e' /\
    (1 <= E.screen_rows e -> E.row_offset e' <= E.cy e').
Proof.
  intros Hok Hro. pose proof Hok as [Hcy _].
  destruct (editorScroll_ok e Hok)
    as (e' & He' & Hcx' & Hcy' & Hrow' & _ & Hsr & _ & _ & _ & _ & Hlm & Hd
        & Hsl & Hs & Hro' & _).
  exists e'. unfold editorRefreshScreen. repeat split; try done.
  - rewrite Hro'. cbv zeta. case_ifs; zbool; lia.
  - intros Hsr1. rewrite Hro', Hcy'. cbv zeta. case_ifs; zbool; lia.
Qed.

Lemma editorRefreshScreen_idle e :
  editor_idle_ok e ->
  exists e',
    editorRefreshScreen e = Some e' /\ editor_idle_ok e' /\
    E.screen_rows e' = E.screen_rows e /\
    (1 <= E.screen_rows e -> E.row_offset e' <= E.cy e').
Proof.
  intros (Hc & Hro & Hhl & Hs).
  destruct (editorRefreshScreen_ok e Hc Hro)
    as (e' & He' & Hcx & Hcy & Hrow & Hsr & Hlm & Hd & Hsl & Hsv & Hro' & Hle).
  exists e'. split; [done|]. split; [|by split].
  split; [by apply (cursor_ok_transfer e)|]. split; [done|].
  split; [by apply (rows_hl_ok_rows e)|].
  by apply (search_idle_transfer e).
Qed.






Lemma same_text_rows e e' : E.row e' = E.row e -> same_text e e'.
Proof. unfold same_text. by intros ->. Qed.



Lemma editorUpdateSyntax_text syn r r' :
  editorUpdateSyntax syn r = Some r' ->
  chars r' = chars r /\ render r' = render r.
Proof.
  intros H. destruct (editorUpdateSyntax_defined syn r) as (r'' & H' & ? & ? & _).
  by simplify_eq.
Qed.

Lemma editorSelectSyntaxHighlight_ok e :
  rows_hl_ok e ->
  exists e',
    editorSelectSyntaxHighlight e = Some e' /\ rows_hl_ok e' /\
    same_text e e' /\
    E.cx e' = E.cx e /\ E.cy e' = E.cy e /\
    E.row_offset e' = E.row_offset e /\
    E.screen_rows e' = E.screen_rows e /\
    E.last_match e' = E.last_match e /\ E.direction e' = E.direction e /\
    E.saved_hl e' = E.saved_hl e.
Proof.
  intros Hhl. destruct (editorSelectSyntaxHighlight_defined e) as [e' He'].
  exists e'. split; [done|].
  split; [by eapply editorSelectSyntaxHighlight_hl|].
  unfold editorSelectSyntaxHighlight in He'.
  destruct (E.filename e);
    [|injection He' as <-; split; [by apply same_text_rows|by repeat split]].
  destruct (List.find _ _) as [s|];
    [|injection He' as <-; split; [by apply same_text_rows|by repeat split]].
  split_binds. subst e'. split; [|by repeat split].
  apply mapM_Some in Hx.
  change (E.row (E.set_syntax None e)) with (E.row e) in Hx.
  unfold same_text. simpl.
  induction Hx as [|r r' rows rows' Hr _ IH]; [done|].
  apply editorUpdateSyntax_text in Hr as [Hc Hrn].
  destruct IH as [IH1 IH2]. simpl. by rewrite Hc, Hrn, IH1, IH2.
Qed.




Lemma editor_idle_ok_transfer e e' :
  E.cx e' = E.cx e -> E.cy e' = E.cy e -> same_text e e' ->
  E.row_offset e' = E.row_offset e -> rows_hl_ok e' ->
  E.last_match e' = E.last_match e -> E.direction e' = E.direction e ->
  E.saved_hl e' = E.saved_hl e ->
  editor_idle_ok e -> editor_idle_ok e'.
Proof.
  intros Hcx Hcy Hst Hro Hhl Hlm Hd Hsv (Hc & Hro0 & _ & Hs).
  split; [by apply (cursor_ok_same_text e)|]. split; [lia|].
  split; [done|by apply (search_idle_transfer e)].
Qed.


Section Loop.

Variable file_write : list ascii -> list ascii -> bool.



Lemma set_quit_times_idle v e :
  editor_idle_ok e -> editor_idle_ok (E.set_quit_times v e).
Proof.
  intros H. apply (editor_idle_ok_transfer e);
    first [done|by apply same_text_rows|apply H].
Qed.



End Loop.

(** ** Every loop iteration consumes a key *)

Lemma editorPrompt_loop_consumes callback : forall keys buff e a e' k,
  editorPrompt_loop callback keys buff e = Ret a e' k ->
  (length k < length keys)%nat.
Proof.
  induction keys as [|c keys IH]; intros buff e a e' k;
    cbn [editorPrompt_loop]; destruct (editorRefreshScreen e); try done.
  cbv zeta. intros H.
  repeat match type of H with
  | context [if ?b then _ else _] => destruct b
  | context [match run_callback ?cb ?bf ?c ?e with _ => _ end] =>
      destruct (run_callback cb bf c e)
  end; try done;
    try (apply IH in H; simpl; lia);
    injection H as _ _ <-; simpl; lia.
Qed.

Section Consumes.

Variable file_write : list ascii -> list ascii -> bool.

Lemma editorProcessKeypress_consumes keys e a e' k :
  editorProcessKeypress file_write keys e = Ret a e' k ->
  (length k < length keys)%nat.
Proof.
  unfold editorProcessKeypress. destruct keys as [|c keys]; [done|].
  cbv zeta. simpl.
  destruct (c =? CTRL_KEY "q").
  { destruct (_ && _); [|done]. intros [= _ _ <-]. lia. }
  destruct (c =? CTRL_KEY "s").
  { unfold editorSave, editorSave_write, editorPrompt.
    destruct (editorRowsToString e) as [buff n].
    destruct (E.filename e).
    - destruct (file_write _ _); intros [= _ _ <-]; lia.
    - destruct (editorPrompt_loop None keys [] e) as [[name|] e1 k1|e1|e1|]
        eqn:Hp; try done.
      + apply editorPrompt_loop_consumes in Hp.
        destruct (editorSelectSyntaxHighlight _) as [e2|]; [|done].
        destruct (editorRowsToString e2) as [buff2 n2].
        destruct (file_write _ _); intros [= _ _ <-]; lia.
      + apply editorPrompt_loop_consumes in Hp. intros [= _ _ <-]. lia. }
  destruct (c =? CTRL_KEY "f").
  { unfold editorFind, editorPrompt.
    destruct (editorPrompt_loop _ keys [] e) as [[q|] e1 k1|e1|e1|] eqn:Hp;
      try done; apply editorPrompt_loop_consumes in Hp;
      intros [= _ _ <-]; lia. }
  destruct (editorProcessKeypress_edit c e); [|done].
  intros [= _ _ <-]. lia.
Qed.

(** With more iterations than keys the loop never stops for lack of
    fuel: it ends waiting for a key, exited or undefined. *)
Lemma main_loop_consumes : forall fuel keys e a e' k,
  (length keys < fuel)%nat -> main_loop file_write fuel keys e <> Ret a e' k.
Proof.
  induction fuel as [|fuel IH]; intros keys e a e' k Hlt; [lia|]. simpl.
  destruct (editorRefreshScreen e) as [e1|]; [|done].
  destruct (editorProcessKeypress file_write keys e1) as [a2 e2 k2|e2|e2|]
    eqn:Hp; try done.
  apply editorProcessKeypress_consumes in Hp. apply IH. lia.
Qed.

End Consumes.

(** ** The states the editor starts from *)







(** ** The render string has the width the conversions compute *)

Lemma tab_fill_len : forall fuel rnd,
  (8 - len rnd mod 8) mod 8 <= Z.of_nat fuel ->
  len (tab_fill fuel rnd) = len rnd + (8 - len rnd mod 8) mod 8.
Proof.
  induction fuel as [|fuel IH]; intros rnd Hf; simpl;
    pose proof (len_nonneg rnd) as Hl.
  - assert ((8 - len rnd mod 8) mod 8 = 0) as ->
      by (revert Hf; Z.div_mod_to_equations; lia).
    lia.
  - unfold EDI_TAB_STOP. rewrite Z.rem_mod_nonneg by lia.
    destruct (Z.eqb_spec (len rnd mod 8) 0) as [Hz|Hnz].
    + rewrite Hz. change ((8 - 0) mod 8) with 0. lia.
    + rewrite IH; rewrite len_snoc.
      * Z.div_mod_to_equations; lia.
      * revert Hf. Z.div_mod_to_equations; lia.
Qed.

(** Seven more spaces at most reach the next tab stop. *)
Lemma tab_fill_aligned rnd :
  Z.rem (len (tab_fill (Z.to_nat (EDI_TAB_STOP - 1)) (rnd ++ [SPACE])))
    EDI_TAB_STOP = 0.
Proof.
  pose proof (len_nonneg rnd) as Hl.
  change (Z.to_nat (EDI_TAB_STOP - 1)) with 7%nat.
  rewrite tab_fill_len; rewrite len_snoc;
    [|Z.div_mod_to_equations; lia].
  unfold EDI_TAB_STOP.
  rewrite Z.rem_mod_nonneg by (Z.div_mod_to_equations; lia).
  Z.div_mod_to_equations; lia.
Qed.

Lemma width_from_cons c cs rx :
  width_from (c :: cs) rx = width_from cs (advance c rx).
Proof. done. Qed.

Lemma editorUpdateRow_loop_width cs : forall rnd,
  len (editorUpdateRow_loop cs rnd) = width_from cs (len rnd).
Proof.
  induction cs as [|c cs IH]; intros rnd; [done|].
  cbn [editorUpdateRow_loop]. rewrite width_from_cons.
  pose proof (len_nonneg rnd) as Hl. unfold advance.
  destruct (Ascii.eqb c TAB).
  - rewrite IH. apply (f_equal (width_from cs)). unfold EDI_TAB_STOP.
    change (Z.to_nat (8 - 1)) with 7%nat.
    rewrite tab_fill_len; rewrite len_snoc;
      [|Z.div_mod_to_equations; lia].
    rewrite Z.rem_mod_nonneg by lia. Z.div_mod_to_equations; lia.
  - rewrite IH. by rewrite len_snoc.
Qed.

(** [rsize] is the render column of the end of the row. *)
Lemma rsize_make_row syn cs :
  editorRowCxToRx (make_row syn cs) (len cs) = Some (rsize (make_row syn cs)).
Proof.
  pose proof (editorUpdateRow_make_row syn (blank_row cs)) as H.
  apply editorUpdateRow_Some in H as (Hc & Hr & _). simpl in Hc, Hr.
  rewrite editorRowCxToRx_width
    by (unfold size; rewrite Hc; pose proof (len_nonneg cs); lia).
  unfold rsize. rewrite Hr, Hc, editorUpdateRow_loop_width.
  unfold len. rewrite Nat2Z.id, firstn_all. done.
Qed.

(** The buffer [editorUpdateRow] allocates, [size + 7 * tabs + 1] bytes,
    holds the render string and its terminator. *)
Lemma editorUpdateRow_loop_capacity cs : forall rnd,
  len (editorUpdateRow_loop cs rnd) <= len rnd + len cs + 7 * count_tabs cs.
Proof.
  induction cs as [|c cs IH]; intros rnd.
  - simpl. unfold len. simpl. lia.
  - cbn [editorUpdateRow_loop count_tabs]. rewrite len_cons.
    pose proof (len_nonneg rnd) as Hl.
    destruct (Ascii.eqb c TAB).
    + specialize (IH (tab_fill (Z.to_nat (EDI_TAB_STOP - 1))
                        (rnd ++ [SPACE]))).
      change (Z.to_nat (EDI_TAB_STOP - 1)) with 7%nat in *.
      rewrite tab_fill_len in IH; rewrite len_snoc in *;
        [|Z.div_mod_to_equations; lia].
      revert IH. Z.div_mod_to_equations; lia.
    + specialize (IH (rnd ++ [c])). rewrite len_snoc in IH. lia.
Qed.

(** ** The theorems at work on sample documents *)

(** Closed bounds between numerals, once everything is evaluated. *)
Ltac by_evaluation :=
  vm_compute; repeat split; solve [discriminate | reflexivity | constructor].

Lemma hl_length_invariant_witness :
  exists e',
    apply_mutation InsertNewline (E.set_cx 2 three_rows) = Some e' /\
    rows_hl_ok e'.
Proof.
  destruct (hl_length_invariant InsertNewline (E.set_cx 2 three_rows))
    as (_ & Hdef & _).
  - repeat constructor.
  - apply Hdef. by_evaluation.
Defined.

Lemma editorReadKey_total_witness :
  editorReadKey (ReadByte ESC :: ReadByte "[" :: ReadByte "5"
                 :: ReadNone :: []) = Key ESC_KEY [].
Proof.
  apply (proj2 (proj2 (proj2 (proj2 (proj2 (proj2
           (proj2 editorReadKey_total))))))).
  reflexivity.
Defined.


Lemma editorScroll_cursor_visible_witness :
  exists e',
    editorScroll (E.set_cy 99 hundred_rows) = Some e' /\
    E.row_offset e' = 80.
Proof.
  destruct (editorScroll_cursor_visible (E.set_cy 99 hundred_rows))
    as (e' & He' & _ & _ & _ & _ & _ & _ & _ & H80).
  - by_evaluation.
  - by_evaluation.
  - by_evaluation.
  - exists e'. split; [exact He'|].
    apply H80; [reflexivity|reflexivity|reflexivity|by_evaluation].
Defined.

Lemma editorInsertNewline_editorDelChar_witness :
  exists e1 e2,
    editorInsertNewline (E.set_cx 2 three_rows) = Some e1 /\
    editorDelChar e1 = Some e2 /\
    E.row e2 = E.row three_rows /\ E.cx e2 = 2 /\ E.cy e2 = 1.
Proof.
  destruct (editorInsertNewline_editorDelChar (E.set_cx 2 three_rows)
              (make_row None (bytes "bar")))
    as (e1 & e2 & H1 & _ & _ & _ & H2 & _ & Hcx & Hcy & Hrows).
  - reflexivity.
  - by_evaluation.
  - exists e1, e2. split; [exact H1|]. split; [exact H2|].
    split; [|split; [exact Hcx|exact Hcy]].
    apply Hrows. repeat constructor.
Defined.


Lemma editorRowsToString_newline_terminated_witness :
  editorRowsToString two_rows = (["a"; NEWLINE; "b"; "b"; NEWLINE]%char, 5).
Proof.
  apply (proj2 editorRowsToString_newline_terminated two_rows).
  reflexivity.
Defined.

Lemma editorRowRxToCx_in_row_witness :
  editorRowRxToCx (blank_row (bytes "ab")) 7 = size (blank_row (bytes "ab")).
Proof.
  apply (proj2 (editorRowRxToCx_in_row (blank_row (bytes "ab")) 7) 2).
  - reflexivity.
  - by_evaluation.
Defined.

Lemma editorMoveCursor_wraps_lines_witness :
  exists r,
    row_at three_rows 0 = Some r /\
    editorMoveCursor ARROW_LEFT three_rows
    = Some (E.set_cx (size r) (E.set_cy 0 three_rows)).
Proof.
  apply (proj1 (editorMoveCursor_wraps_lines three_rows ltac:(by_evaluation))).
  - reflexivity.
  - by_evaluation.
Defined.

(* ================================================================== *)
(** * Further properties of the editor *)
(* ================================================================== *)

(** ** Round trips of the editing operations *)

Lemma delete_inserted {A} (l : list A) (n : nat) (x : A) :
  (n <= length l)%nat -> delete n (take n l ++ x :: drop n l) = l.
Proof.
  intros Hn.
  replace n with (length (take n l)) at 1 by (rewrite length_take; lia).
  rewrite delete_middle. apply take_drop.
Qed.

(** X1: typing a character on a row and pressing Backspace right after
    restores the bytes of every row and the cursor; the rows themselves
    are restored when they were up to date. *)
Theorem editorInsertChar_editorDelChar (c : Z) (e : editorConfig) (r : erow) :
  row_at e (E.cy e) = Some r -> 0 <= E.cx e <= size r ->
  exists e1 e2 r1,
    editorInsertChar c e = Some e1 /\
    row_at e1 (E.cy e) = Some r1 /\
    chars r1 = take (Z.to_nat (E.cx e)) (chars r) ++ char_of_Z c
               :: drop (Z.to_nat (E.cx e)) (chars r) /\
    E.cx e1 = E.cx e + 1 /\ E.cy e1 = E.cy e /\
    editorDelChar e1 = Some e2 /\
    map chars (E.row e2) = map chars (E.row e) /\
    E.cx e2 = E.cx e /\ E.cy e2 = E.cy e /\
    (rows_fresh e -> E.row e2 = E.row e).
Proof.
  intros Hr Hcx.
  destruct (row_at_split _ _ _ Hr) as (pre & post & Hrow & Hcy).
  symmetry in Hcy.
  destruct (editorInsertChar_on_row c e pre r post Hrow Hcy Hcx)
    as (e1 & He1 & Hrow1 & Hcx1 & Hcy1 & Hfr1).
  assert (E.syntax e1 = E.syntax e) as Hsyn by apply Hfr1.
  set (cs1 := take (Z.to_nat (E.cx e)) (chars r) ++ char_of_Z c
              :: drop (Z.to_nat (E.cx e)) (chars r)) in *.
  assert (len cs1 = size r + 1) as Hlen1.
  { unfold cs1, size, len in *.
    rewrite length_app, length_take. simpl. rewrite length_drop. lia. }
  destruct (editorDelChar_left e1 pre (make_row (E.syntax e) cs1) post
              Hrow1 Hcy1) as (e2 & He2 & Hrow2 & Hcx2 & Hcy2 & Hfr2).
  { rewrite size_make_row. lia. }
  rewrite chars_make_row, Hsyn, Hcx1 in Hrow2.
  replace (E.cx e + 1 - 1) with (E.cx e) in Hrow2 by lia.
  unfold cs1 in Hrow2.
  rewrite delete_inserted in Hrow2 by (unfold size, len in *; lia).
  exists e1, e2, (make_row (E.syntax e) cs1).
  split; [done|]. split; [rewrite Hcy; by eapply row_at_middle|].
  split; [by rewrite chars_make_row|]. split; [done|]. split; [lia|].
  split; [done|].
  split; [rewrite Hrow2, Hrow, !map_app; simpl; by rewrite chars_make_row|].
  split; [lia|]. split; [lia|].
  intros Hf. rewrite Hrow2, Hrow.
  by rewrite <- (rows_fresh_middle _ _ _ _ Hf Hrow).
Qed.

Lemma editorInsertChar_editorDelChar_witness :
  exists e1 e2,
    editorInsertChar (Z_of_char "x") (E.set_cx 2 three_rows) = Some e1 /\
    editorDelChar e1 = Some e2 /\
    E.row e2 = E.row three_rows /\ E.cx e2 = 2 /\ E.cy e2 = 1.
Proof.
  destruct (editorInsertChar_editorDelChar (Z_of_char "x")
              (E.set_cx 2 three_rows) (make_row None (bytes "bar")))
    as (e1 & e2 & r1 & H1 & _ & _ & _ & _ & H2 & _ & Hcx & Hcy & Hrows).
  - reflexivity.
  - by_evaluation.
  - exists e1, e2. split; [exact H1|]. split; [exact H2|].
    split; [|split; [exact Hcx|exact Hcy]].
    apply Hrows. repeat constructor.
Defined.

(** X2: inserting a row at an index of the document and deleting the row
    at that index restores the rows; the new row holds the given bytes;
    an index outside the document makes either operation do nothing. *)
Theorem editorInsertRow_editorDelRow (at_ : Z) (s : list ascii)
    (e : editorConfig) :
  (0 <= at_ <= E.num_rows e ->
   exists e1 r1,
     editorInsertRow at_ s e = Some e1 /\
     E.num_rows e1 = E.num_rows e + 1 /\
     row_at e1 at_ = Some r1 /\ chars r1 = s /\
     E.dirty e1 = E.dirty e + 1 /\
     E.row (editorDelRow at_ e1) = E.row e /\
     E.dirty (editorDelRow at_ e1) = E.dirty e + 2) /\
  (~ (0 <= at_ <= E.num_rows e) -> editorInsertRow at_ s e = Some e) /\
  (~ (0 <= at_ < E.num_rows e) -> editorDelRow at_ e = e).
Proof.
  split; [|split].
  - intros Hat.
    destruct (rows_at_cursor (E.set_cy at_ e) Hat)
      as (pre & post & Hrow & Hlen). simpl in Hrow, Hlen. subst at_.
    rewrite (editorInsertRow_middle _ _ _ _ Hrow).
    set (e1 := bump_dirty _).
    assert (E.row e1 = pre ++ make_row (E.syntax e) s :: post) as Hrow1
      by done.
    exists e1, (make_row (E.syntax e) s). split; [done|].
    split.
    { rewrite (num_rows_middle _ _ _ _ Hrow1). unfold E.num_rows.
      rewrite Hrow, len_app. lia. }
    split; [by eapply row_at_middle|]. split; [apply chars_make_row|].
    split; [done|].
    rewrite (editorDelRow_middle _ _ _ _ Hrow1). simpl.
    split; [by rewrite Hrow|lia].
  - apply editorInsertRow_out_of_range.
  - intros Hat. unfold editorDelRow.
    destruct (Z.ltb_spec at_ 0); [done|].
    destruct (Z.geb_spec at_ (E.num_rows e)); [done|lia].
Qed.

Lemma editorInsertRow_editorDelRow_witness :
  exists e1,
    editorInsertRow 1 (bytes "new") three_rows = Some e1 /\
    E.num_rows e1 = 4 /\
    E.row (editorDelRow 1 e1) = E.row three_rows.
Proof.
  destruct (proj1 (editorInsertRow_editorDelRow 1 (bytes "new") three_rows))
    as (e1 & r1 & H1 & Hn & _ & _ & _ & Hrows & _).
  - by_evaluation.
  - exists e1. split; [exact H1|]. split; [exact Hn|exact Hrows].
Defined.

(** ** Cursor movement, key by key *)

Lemma row_len_setters e v w i :
  row_len (E.set_cx v (E.set_cy w e)) i = row_len e i.
Proof. done. Qed.

Lemma editorMoveCursor_vertical key e :
  key = ARROW_UP \/ key = ARROW_DOWN ->
  0 <= E.cy e <= E.num_rows e -> 0 <= E.cx e ->
  exists e',
    editorMoveCursor key e = Some e' /\
    E.row e' = E.row e /\ E.dirty e' = E.dirty e /\ same_frame e e' /\
    E.cy e' = (if key =? ARROW_UP then Z.max 0 (E.cy e - 1)
               else Z.min (E.num_rows e) (E.cy e + 1)) /\
    E.cx e' = Z.min (E.cx e) (row_len e (E.cy e')).
Proof.
  intros Hkey Hcy Hcx.
  assert (exists cy',
    editorMoveCursor_switch key e = Some (E.set_cy cy' e) /\
    cy' = (if key =? ARROW_UP then Z.max 0 (E.cy e - 1)
           else Z.min (E.num_rows e) (E.cy e + 1)))
    as (cy' & Hsw & Hcy').
  { unfold editorMoveCursor_switch.
    destruct Hkey as [-> | ->]; simpl.
    - destruct (Z.eqb_spec (E.cy e) 0) as [Hz|Hnz]; simpl.
      + exists (E.cy e). split; [by destruct e|lia].
      + eexists. split; [reflexivity|lia].
    - destruct (Z.ltb_spec (E.cy e) (E.num_rows e)).
      + eexists. split; [reflexivity|lia].
      + exists (E.cy e). split; [by destruct e|lia]. }
  assert (0 <= cy') by (rewrite Hcy'; destruct (key =? ARROW_UP); lia).
  rewrite (editorMoveCursor_clamp _ _ _ Hsw) by done. simpl.
  change (row_len (E.set_cy cy' e) cy') with (row_len e cy').
  rewrite <- Hcy'.
  destruct (Z.gtb_spec (E.cx e) (row_len e cy')).
  - eexists. split; [reflexivity|]. simpl. repeat split; try done. lia.
  - eexists. split; [reflexivity|]. simpl. repeat split; try done. lia.
Qed.

Lemma editorMoveCursor_horizontal key e :
  key = ARROW_LEFT \/ key = ARROW_RIGHT -> cursor_ok e ->
  exists e',
    editorMoveCursor key e = Some e' /\
    E.row e' = E.row e /\ E.dirty e' = E.dirty e /\ same_frame e e' /\
    (E.cy e', E.cx e')
    = (if key =? ARROW_LEFT then
         if negb (E.cx e =? 0) then (E.cy e, E.cx e - 1)
         else if E.cy e >? 0 then (E.cy e - 1, row_len e (E.cy e - 1))
         else (E.cy e, E.cx e)
       else
         if E.cy e >=? E.num_rows e then (E.cy e, E.cx e)
         else if E.cx e <? row_len e (E.cy e) then (E.cy e, E.cx e + 1)
         else (E.cy e + 1, 0)).
Proof.
  intros Hkey Hok. pose proof Hok as [Hcy Hcx].
  pose proof (row_len_nonneg e (E.cy e)) as Hrl.
  destruct Hkey as [-> | ->]; simpl.
  - destruct (Z.eqb_spec (E.cx e) 0) as [Hz|Hnz]; simpl.
    + destruct (Z.gtb_spec (E.cy e) 0) as [Hgt|Hle].
      * destruct (row_at_defined e (E.cy e - 1)) as [r Hr]; [lia|].
        rewrite (editorMoveCursor_clamp _ _
                   (E.set_cx (size r) (E.set_cy (E.cy e - 1) e))).
        -- simpl. rewrite row_len_setters, (row_len_Some _ _ _ Hr).
           destruct (Z.gtb_spec (size r) (size r)); [lia|].
           eexists. split; [reflexivity|]. by repeat split.
        -- unfold editorMoveCursor_switch. simpl. rewrite Hz. simpl.
           destruct (Z.gtb_spec (E.cy e) 0); [|lia].
           change (row_at _ (E.cy e - 1)) with (row_at e (E.cy e - 1)).
           by rewrite Hr.
        -- simpl. lia.
      * rewrite (editorMoveCursor_clamp _ _ e).
        -- destruct (Z.gtb_spec (E.cx e) (row_len e (E.cy e))); [lia|].
           exists e. split; [done|]. repeat split; done.
        -- unfold editorMoveCursor_switch. simpl. rewrite Hz. simpl.
           by destruct (Z.gtb_spec (E.cy e) 0); [lia|].
        -- lia.
    + rewrite (editorMoveCursor_clamp _ _ (E.set_cx (E.cx e - 1) e)).
      * simpl. change (row_len _ (E.cy e)) with (row_len e (E.cy e)).
        destruct (Z.gtb_spec (E.cx e - 1) (row_len e (E.cy e))); [lia|].
        eexists. split; [reflexivity|]. by repeat split.
      * unfold editorMoveCursor_switch. simpl.
        by destruct (Z.eqb_spec (E.cx e) 0).
      * simpl. lia.
  - destruct (Z.geb_spec (E.cy e) (E.num_rows e)) as [Hge|Hlt].
    + rewrite (editorMoveCursor_clamp _ _ e).
      * destruct (Z.gtb_spec (E.cx e) (row_len e (E.cy e))); [lia|].
        exists e. split; [done|]. repeat split; done.
      * unfold editorMoveCursor_switch. simpl.
        by destruct (Z.geb_spec (E.cy e) (E.num_rows e)); [|lia].
      * lia.
    + destruct (row_at_defined e (E.cy e)) as [r Hr]; [lia|].
      rewrite (row_len_Some _ _ _ Hr) in *.
      destruct (Z.ltb_spec (E.cx e) (size r)).
      * rewrite (editorMoveCursor_clamp _ _ (E.set_cx (E.cx e + 1) e)).
        -- simpl. change (row_len _ (E.cy e)) with (row_len e (E.cy e)).
           rewrite (row_len_Some _ _ _ Hr).
           destruct (Z.gtb_spec (E.cx e + 1) (size r)); [lia|].
           eexists. split; [reflexivity|]. by repeat split.
        -- unfold editorMoveCursor_switch. simpl.
           destruct (Z.geb_spec (E.cy e) (E.num_rows e)); [lia|].
           rewrite Hr. simpl.
           by destruct (Z.ltb_spec (E.cx e) (size r)); [|lia].
        -- simpl. lia.
      * rewrite (editorMoveCursor_clamp _ _
                   (E.set_cx 0 (E.set_cy (E.cy e + 1) e))).
        -- simpl. rewrite row_len_setters.
           pose proof (row_len_nonneg e (E.cy e + 1)).
           destruct (Z.gtb_spec 0 (row_len e (E.cy e + 1))); [lia|].
           eexists. split; [reflexivity|]. by repeat split.
        -- unfold editorMoveCursor_switch. simpl.
           destruct (Z.geb_spec (E.cy e) (E.num_rows e)); [lia|].
           rewrite Hr. simpl.
           destruct (Z.ltb_spec (E.cx e) (size r)); [lia|].
           by destruct (Z.eqb_spec (E.cx e) (size r)); [|lia].
        -- simpl. lia.
Qed.

Lemma row_len_rows e e' i : E.row e' = E.row e -> row_len e' i = row_len e i.
Proof. unfold row_len, row_at. by intros ->. Qed.

Lemma num_rows_rows e e' : E.row e' = E.row e -> E.num_rows e' = E.num_rows e.
Proof. unfold E.num_rows. by intros ->. Qed.

(** X3: Left and Right undo each other.  From any valid cursor but the
    start of the document, Left then Right comes back to the same place;
    from any cursor on a row, Right then Left does; the rows are not
    touched. *)
Theorem editorMoveCursor_left_right (e : editorConfig) :
  cursor_ok e ->
  (~ (E.cx e = 0 /\ E.cy e = 0) ->
   exists e1 e2,
     editorMoveCursor ARROW_LEFT e = Some e1 /\
     editorMoveCursor ARROW_RIGHT e1 = Some e2 /\
     E.cy e2 = E.cy e /\ E.cx e2 = E.cx e /\ E.row e2 = E.row e) /\
  (E.cy e < E.num_rows e ->
   exists e1 e2,
     editorMoveCursor ARROW_RIGHT e = Some e1 /\
     editorMoveCursor ARROW_LEFT e1 = Some e2 /\
     E.cy e2 = E.cy e /\ E.cx e2 = E.cx e /\ E.row e2 = E.row e).
Proof.
  intros Hok. pose proof Hok as [Hcy Hcx].
  pose proof (row_len_nonneg e (E.cy e)) as Hrl.
  split.
  - intros Hstart.
    destruct (editorMoveCursor_horizontal ARROW_LEFT e ltac:(by left) Hok)
      as (e1 & He1 & Hrow1 & _ & _ & Hpos1).
    destruct (editorMoveCursor_ok ARROW_LEFT e Hcy ltac:(lia))
      as (e1' & He1' & Hok1 & _).
    rewrite He1 in He1'. injection He1' as <-.
    destruct (editorMoveCursor_horizontal ARROW_RIGHT e1 ltac:(by right) Hok1)
      as (e2 & He2 & Hrow2 & _ & _ & Hpos2).
    exists e1, e2. split; [done|]. split; [done|].
    rewrite (num_rows_rows _ _ Hrow1), !(row_len_rows _ _ _ Hrow1) in Hpos2.
    simpl in Hpos1, Hpos2.
    assert (E.cy e2 = E.cy e /\ E.cx e2 = E.cx e) as [? ?];
      [|split; [done|split; [done|congruence]]].
    destruct (Z.eqb_spec (E.cx e) 0) as [Hz|Hnz]; simpl in Hpos1.
    + destruct (Z.gtb_spec (E.cy e) 0); [|lia].
      injection Hpos1 as Hc1 Hx1. rewrite Hc1, Hx1 in Hpos2.
      destruct (Z.geb_spec (E.cy e - 1) (E.num_rows e)); [lia|].
      rewrite Z.ltb_irrefl in Hpos2. injection Hpos2 as -> ->. lia.
    + injection Hpos1 as Hc1 Hx1. rewrite Hc1, Hx1 in Hpos2.
      destruct (Z.geb_spec (E.cy e) (E.num_rows e)) as [Hge|Hlt].
      { assert (E.cy e = E.num_rows e) as Heq by lia.
        pose proof (cursor_ok_past_end _ Hok Heq). lia. }
      destruct (Z.ltb_spec (E.cx e - 1) (row_len e (E.cy e))); [|lia].
      injection Hpos2 as -> ->. lia.
  - intros Hlt.
    destruct (editorMoveCursor_horizontal ARROW_RIGHT e ltac:(by right) Hok)
      as (e1 & He1 & Hrow1 & _ & _ & Hpos1).
    destruct (editorMoveCursor_ok ARROW_RIGHT e Hcy ltac:(lia))
      as (e1' & He1' & Hok1 & _).
    rewrite He1 in He1'. injection He1' as <-.
    destruct (editorMoveCursor_horizontal ARROW_LEFT e1 ltac:(by left) Hok1)
      as (e2 & He2 & Hrow2 & _ & _ & Hpos2).
    exists e1, e2. split; [done|]. split; [done|].
    rewrite !(row_len_rows _ _ _ Hrow1) in Hpos2.
    simpl in Hpos1, Hpos2.
    assert (E.cy e2 = E.cy e /\ E.cx e2 = E.cx e) as [? ?];
      [|split; [done|split; [done|congruence]]].
    destruct (Z.geb_spec (E.cy e) (E.num_rows e)); [lia|].
    destruct (Z.ltb_spec (E.cx e) (row_len e (E.cy e))).
    + injection Hpos1 as Hc1 Hx1. rewrite Hc1, Hx1 in Hpos2.
      destruct (Z.eqb_spec (E.cx e + 1) 0); [lia|]. simpl in Hpos2.
      injection Hpos2 as -> ->. lia.
    + injection Hpos1 as Hc1 Hx1. rewrite Hc1, Hx1 in Hpos2. simpl in Hpos2.
      destruct (Z.gtb_spec (E.cy e + 1) 0); [|lia].
      replace (E.cy e + 1 - 1) with (E.cy e) in Hpos2 by lia.
      injection Hpos2 as -> ->. lia.
Qed.

Lemma editorMoveCursor_left_right_witness :
  exists e1 e2,
    editorMoveCursor ARROW_LEFT three_rows = Some e1 /\
    editorMoveCursor ARROW_RIGHT e1 = Some e2 /\
    E.cy e2 = 1 /\ E.cx e2 = 0.
Proof.
  destruct (proj1 (editorMoveCursor_left_right three_rows
                     ltac:(by_evaluation)))
    as (e1 & e2 & H1 & H2 & Hcy & Hcx & _).
  - intros [_ H]. revert H. by_evaluation.
  - exists e1, e2. split; [exact H1|]. split; [exact H2|].
    split; [exact Hcy|exact Hcx].
Defined.

Lemma repeat_move_vertical key : forall n e,
  key = ARROW_UP \/ key = ARROW_DOWN ->
  0 <= E.cy e <= E.num_rows e -> 0 <= E.cx e ->
  exists e',
    repeat_move n key e = Some e' /\
    E.row e' = E.row e /\ E.dirty e' = E.dirty e /\ same_frame e e' /\
    E.cy e' = (if key =? ARROW_UP then Z.max 0 (E.cy e - Z.of_nat n)
               else Z.min (E.num_rows e) (E.cy e + Z.of_nat n)) /\
    0 <= E.cx e' <= E.cx e /\
    ((0 < n)%nat -> E.cx e' <= row_len e (E.cy e')).
Proof.
  induction n as [|n IH]; intros e Hkey Hcy Hcx; simpl.
  - exists e. split; [done|]. split; [done|]. split; [done|].
    split; [apply same_frame_refl|].
    split; [destruct (key =? ARROW_UP); lia|]. split; [lia|lia].
  - destruct (editorMoveCursor_vertical key e Hkey Hcy Hcx)
      as (e1 & -> & Hrow1 & Hd1 & Hfr1 & Hcy1 & Hcx1). simpl.
    pose proof (row_len_nonneg e (E.cy e1)) as Hrl.
    assert (0 <= E.cy e1 <= E.num_rows e1) as Hcy1'.
    { rewrite (num_rows_rows _ _ Hrow1), Hcy1.
      destruct (key =? ARROW_UP); lia. }
    destruct (IH e1 Hkey Hcy1' ltac:(lia))
      as (e' & -> & Hrow' & Hd' & Hfr' & Hcy' & Hcx' & Hlen').
    exists e'. split; [done|]. split; [congruence|]. split; [congruence|].
    split; [by eapply same_frame_trans|].
    rewrite (num_rows_rows _ _ Hrow1) in Hcy'.
    split; [rewrite Hcy', Hcy1; destruct (key =? ARROW_UP); lia|].
    split; [lia|]. intros _.
    destruct n as [|n].
    + simpl in Hcy'. rewrite <- (row_len_rows _ _ _ Hrow1).
      assert (E.cy e' = E.cy e1) as -> by
        (rewrite Hcy', (num_rows_rows _ _ Hrow1) in *;
         destruct (key =? ARROW_UP); lia).
      rewrite (row_len_rows _ _ _ Hrow1). lia.
    + rewrite <- (row_len_rows _ _ _ Hrow1). apply Hlen'. lia.
Qed.

(** X4: the page keys.  After the refresh ([0 <= row_offset <= cy]) and
    with a viewport of [screen_rows >= 1] rows, Page Up leaves the cursor
    one screen above the top of the window, Page Down one screen below
    its bottom, both clamped to the document; the column can only
    shrink, to fit the rows passed, and the rows are untouched. *)
Theorem editorProcessKeypress_page_keys (e : editorConfig) :
  cursor_ok e -> 1 <= E.screen_rows e ->
  0 <= E.row_offset e <= E.cy e ->
  (exists e',
     editorProcessKeypress_edit PAGE_UP e = Some e' /\ cursor_ok e' /\
     E.row e' = E.row e /\
     E.cy e' = Z.max 0 (E.row_offset e - E.screen_rows e) /\
     E.cx e' <= E.cx e) /\
  (exists e',
     editorProcessKeypress_edit PAGE_DOWN e = Some e' /\ cursor_ok e' /\
     E.row e' = E.row e /\
     E.cy e' = Z.min (E.num_rows e)
                 (E.row_offset e + 2 * E.screen_rows e - 1) /\
     E.cx e' <= E.cx e).
Proof.
  intros [Hcy Hcx] Hsr Hro.
  pose proof (row_len_nonneg e (E.cy e)) as Hrl.
  split.
  - unfold editorProcessKeypress_edit. simpl.
    destruct (Z.ltb_spec (E.screen_rows e) 0); [lia|].
    destruct (repeat_move_vertical ARROW_UP (Z.to_nat (E.screen_rows e))
                (E.set_cy (E.row_offset e) e))
      as (e' & -> & Hrow' & _ & _ & Hcy' & Hcx' & Hlen');
      [by left
      |change (0 <= E.row_offset e <= E.num_rows e); lia|simpl; lia|].
    change (E.num_rows (E.set_cy (E.row_offset e) e))
      with (E.num_rows e) in Hcy'.
    change (row_len (E.set_cy (E.row_offset e) e)) with (row_len e) in Hlen'.
    simpl in Hrow', Hcy', Hcx'. exists e'. split; [done|].
    split; [|split; [done|split; [lia|lia]]].
    split.
    + rewrite (num_rows_rows e e') by done.
      rewrite Hcy'. lia.
    + split; [lia|]. rewrite (row_len_rows e e') by done.
      apply Hlen'. lia.
  - unfold editorProcessKeypress_edit. simpl.
    change (E.num_rows (E.set_cy (E.row_offset e + E.screen_rows e - 1) e))
      with (E.num_rows e).
    set (e1 := if _ >? _ then _ else _).
    assert (E.cy e1 = Z.min (E.num_rows e)
                        (E.row_offset e + E.screen_rows e - 1) /\
            E.cx e1 = E.cx e /\ E.row e1 = E.row e /\
            E.screen_rows e1 = E.screen_rows e) as (Hcy1 & Hcx1 & Hrow1 & Hsr1).
    { subst e1. destruct (Z.gtb_spec (E.row_offset e + E.screen_rows e - 1)
                            (E.num_rows e)); simpl; repeat split; lia. }
    rewrite Hsr1. destruct (Z.ltb_spec (E.screen_rows e) 0); [lia|].
    destruct (repeat_move_vertical ARROW_DOWN (Z.to_nat (E.screen_rows e)) e1)
      as (e' & -> & Hrow' & _ & _ & Hcy' & Hcx' & Hlen');
      [by right|rewrite (num_rows_rows _ _ Hrow1); lia|lia|].
    simpl in Hcy'. rewrite (num_rows_rows _ _ Hrow1) in Hcy'.
    exists e'. split; [done|].
    split; [|split; [congruence|split; [lia|lia]]].
    split.
    + rewrite (num_rows_rows e e') by congruence. lia.
    + split; [lia|]. rewrite (row_len_rows e e') by congruence.
      rewrite <- (row_len_rows _ _ _ Hrow1). apply Hlen'. lia.
Qed.

Lemma editorProcessKeypress_page_keys_witness :
  exists e',
    editorProcessKeypress_edit PAGE_DOWN (E.set_cy 5 hundred_rows) = Some e' /\
    E.cy e' = 39.
Proof.
  destruct (proj2 (editorProcessKeypress_page_keys (E.set_cy 5 hundred_rows)
                     ltac:(by_evaluation) ltac:(by_evaluation)
                     ltac:(by_evaluation)))
    as (e' & He' & _ & _ & Hcy' & _).
  exists e'. split; [exact He'|]. exact Hcy'.
Defined.

(** ** The viewport *)

Lemma editorScroll_eq e :
  editorScroll e
  = (rx ← (if E.cy e <? E.num_rows e
           then r ← row_at e (E.cy e); editorRowCxToRx r (E.cx e)
           else Some 0);
     let ro := if E.cy e <? E.row_offset e then E.cy e
               else E.row_offset e in
     let ro' := if E.cy e >=? ro + E.screen_rows e
                then E.cy e - E.screen_rows e + 1 else ro in
     let co := if rx <? E.col_offset e then rx else E.col_offset e in
     let co' := if rx >=? co + E.screen_cols e
                then rx - E.screen_cols e + 1 else co in
     Some (E.set_col_offset co' (E.set_row_offset ro' (E.set_rx rx e)))).
Proof.
  unfold editorScroll.
  destruct (if E.cy e <? E.num_rows e
            then r ← row_at e (E.cy e); editorRowCxToRx r (E.cx e)
            else Some 0) as [rx|]; [|done].
  destruct e as [cx cy rx0 ro co sr sc rows d fn syn qt lm dir shl sh].
  cbn. destruct (cy <? ro); cbn; destruct (cy >=? _); cbn;
    destruct (rx <? co); cbn; destruct (rx >=? _); reflexivity.
Qed.

(** X5: scrolling is idempotent.  Whatever the cursor, the offsets and
    the size of the window, a second [editorScroll] right after a first
    changes nothing: the first one already settled [rx], [row_offset]
    and [col_offset]. *)
Theorem editorScroll_idempotent (e e' : editorConfig) :
  editorScroll e = Some e' -> editorScroll e' = Some e'.
Proof.
  rewrite !editorScroll_eq.
  destruct (if E.cy e <? E.num_rows e
            then r ← row_at e (E.cy e); editorRowCxToRx r (E.cx e)
            else Some 0) as [rx|] eqn:Hrx; [|discriminate].
  intros H. apply Some_inj in H. cbn zeta in H.
  set (ro' := if E.cy e >=? _ then _ else _) in H.
  set (co' := if rx >=? _ then _ else _) in H.
  assert (E.cy e' = E.cy e /\ E.cx e' = E.cx e /\ E.row e' = E.row e /\
          E.screen_rows e' = E.screen_rows e /\
          E.screen_cols e' = E.screen_cols e /\
          E.row_offset e' = ro' /\ E.col_offset e' = co' /\ E.rx e' = rx)
    as (Hcy & Hcx & Hrow & Hsr & Hsc & Hro & Hco & Hrx').
  { by rewrite <- H. }
  unfold E.num_rows, row_at in *. rewrite Hcy, Hcx, Hrow, Hrx.
  cbn [mbind option_bind]. cbn zeta. rewrite Hsr, Hsc, Hro, Hco.
  assert ((if E.cy e >=?
              (if E.cy e <? ro' then E.cy e else ro') + E.screen_rows e
           then E.cy e - E.screen_rows e + 1
           else if E.cy e <? ro' then E.cy e else ro') = ro') as ->.
  { subst ro'. case_ifs; zbool; lia. }
  assert ((if rx >=? (if rx <? co' then rx else co') + E.screen_cols e
           then rx - E.screen_cols e + 1
           else if rx <? co' then rx else co') = co') as ->.
  { subst co'. case_ifs; zbool; lia. }
  f_equal. rewrite <- Hro, <- Hco, <- Hrx'.
  by destruct e'.
Qed.

Lemma editorScroll_idempotent_witness :
  editorScroll (E.set_cy 99 hundred_rows)
  = Some (E.set_row_offset 80 (E.set_cy 99 hundred_rows)) /\
  editorScroll (E.set_row_offset 80 (E.set_cy 99 hundred_rows))
  = Some (E.set_row_offset 80 (E.set_cy 99 hundred_rows)).
Proof.
  split; [reflexivity|].
  apply (editorScroll_idempotent (E.set_cy 99 hundred_rows)). reflexivity.
Defined.

(** ** Render columns *)

Lemma editorRowRxToCx_loop_cell cs : forall cx curr rx,
  0 <= curr <= rx ->
  exists k : nat,
    editorRowRxToCx_loop cs cx curr rx = cx + Z.of_nat k /\
    (k <= length cs)%nat /\
    width_from (take k cs) curr <= rx /\
    ((k < length cs)%nat -> rx < width_from (take (S k) cs) curr).
Proof.
  induction cs as [|c cs IH]; intros cx curr rx Hc; simpl.
  - exists 0%nat. simpl. split; [lia|]. split; [lia|]. split; [lia|lia].
  - pose proof (advance_bounds c curr ltac:(lia)) as Ha.
    destruct (Z.gtb_spec (advance c curr) rx) as [Hgt|Hle].
    + exists 0%nat. simpl. split; [lia|]. split; [lia|]. split; [lia|].
      intros _. unfold width_from. simpl. lia.
    + destruct (IH (cx + 1) (advance c curr) rx ltac:(lia))
        as (k & Hk & Hlen & Hlo & Hhi).
      exists (S k). split; [lia|]. split; [lia|].
      split; [exact Hlo|]. intros Hlt. apply Hhi. lia.
Qed.

(** X6: [editorRowRxToCx] finds the character under a render column.
    For [rx >= 0] the index [cx] it returns starts at or before [rx],
    and, unless [cx] is the end of the row, the next character starts
    after [rx]: a column inside the cells of a tab maps to that tab. *)
Theorem editorRowRxToCx_cell (r : erow) (rx : Z) :
  0 <= rx ->
  exists lo,
    editorRowCxToRx r (editorRowRxToCx r rx) = Some lo /\ lo <= rx /\
    (editorRowRxToCx r rx < size r ->
     exists hi,
       editorRowCxToRx r (editorRowRxToCx r rx + 1) = Some hi /\ rx < hi).
Proof.
  intros Hrx.
  destruct (editorRowRxToCx_loop_cell (chars r) 0 0 rx ltac:(lia))
    as (k & Hk & Hlen & Hlo & Hhi).
  unfold editorRowRxToCx. rewrite Hk.
  exists (width_from (take k (chars r)) 0).
  split.
  - rewrite editorRowCxToRx_width by (unfold size, len; lia).
    do 3 f_equal. lia.
  - split; [exact Hlo|]. unfold size, len. intros Hlt.
    exists (width_from (take (S k) (chars r)) 0). split.
    + rewrite editorRowCxToRx_width by (unfold size, len; lia).
      do 3 f_equal. lia.
    + apply Hhi. lia.
Qed.

Lemma editorRowRxToCx_cell_witness :
  editorRowRxToCx (blank_row [TAB; "a"%char]) 5 = 0 /\
  exists lo,
    editorRowCxToRx (blank_row [TAB; "a"%char])
      (editorRowRxToCx (blank_row [TAB; "a"%char]) 5) = Some lo /\ lo <= 5.
Proof.
  split; [reflexivity|].
  destruct (editorRowRxToCx_cell (blank_row [TAB; "a"%char]) 5 ltac:(lia))
    as (lo & Hlo & Hle & _).
  exists lo. split; [exact Hlo|exact Hle].
Defined.

Lemma tab_fill_spaces : forall fuel rnd,
  exists k : nat, tab_fill fuel rnd = rnd ++ replicate k SPACE.
Proof.
  induction fuel as [|fuel IH]; intros rnd; cbn [tab_fill].
  - exists 0%nat. by rewrite app_nil_r.
  - destruct (_ =? _).
    + exists 0%nat. by rewrite app_nil_r.
    + destruct (IH (rnd ++ [SPACE])) as (k & ->).
      exists (S k). by rewrite <- app_assoc.
Qed.

(** What the rendering loop appends: no tab, and first the image of the
    first byte. *)
Lemma editorUpdateRow_loop_appends cs : forall rnd,
  exists t,
    editorUpdateRow_loop cs rnd = rnd ++ t /\
    (TAB ∉ t) /\
    (forall c cs', cs = c :: cs' ->
       t !! 0%nat = Some (if Ascii.eqb c TAB then SPACE else c)).
Proof.
  induction cs as [|c cs IH]; intros rnd.
  - exists []. split; [by rewrite app_nil_r|].
    split; [apply not_elem_of_nil|]. intros ? ? [=].
  - cbn [editorUpdateRow_loop].
    destruct (Ascii.eqb_spec c TAB) as [->|Hc].
    + destruct (tab_fill_spaces (Z.to_nat (EDI_TAB_STOP - 1))
                  (rnd ++ [SPACE])) as (k & ->).
      destruct (IH ((rnd ++ [SPACE]) ++ replicate k SPACE)) as (t & -> & Ht & _).
      exists (SPACE :: replicate k SPACE ++ t).
      split; [by rewrite <- !app_assoc|]. split.
      * rewrite not_elem_of_cons, not_elem_of_app. split; [discriminate|].
        split; [|done]. intros [? _]%elem_of_replicate. discriminate.
      * intros c' cs' [= <- <-]. by rewrite Ascii.eqb_refl.
    + destruct (IH (rnd ++ [c])) as (t & -> & Ht & _).
      exists (c :: t). split; [by rewrite <- app_assoc|]. split.
      * rewrite not_elem_of_cons. split; [congruence|done].
      * intros c' cs' [= <- <-].
        destruct (Ascii.eqb_spec c TAB); [done|done].
Qed.

Lemma editorUpdateRow_loop_app cs1 cs2 : forall rnd,
  editorUpdateRow_loop (cs1 ++ cs2) rnd
  = editorUpdateRow_loop cs2 (editorUpdateRow_loop cs1 rnd).
Proof.
  induction cs1 as [|c cs1 IH]; intros rnd; [done|].
  cbn [app editorUpdateRow_loop]. destruct (Ascii.eqb c TAB); apply IH.
Qed.

(** X7: what [editorUpdateRow] renders.  It always succeeds and keeps
    the bytes of the row; the render string holds no tab; its length is
    the render column of the end of the row and fits the buffer of
    [size + 7 * tabs] bytes (plus terminator) the code allocates; and
    the cell at the render column of every byte holds that byte, or a
    space if the byte is a tab. *)
Theorem editorUpdateRow_render (syn : option editorSyntax) (r : erow) :
  exists r',
    editorUpdateRow syn r = Some r' /\
    chars r' = chars r /\
    (TAB ∉ render r') /\
    editorRowCxToRx r' (size r') = Some (rsize r') /\
    rsize r' <= size r + 7 * count_tabs (chars r) /\
    (forall (cx : nat) c, chars r !! cx = Some c ->
       exists rx,
         editorRowCxToRx r' (Z.of_nat cx) = Some rx /\
         load (render r') rx
         = Some (if Ascii.eqb c TAB then SPACE else c)).
Proof.
  destruct (editorUpdateRow_defined syn r) as (r' & Hr' & Hc & Hrnd & _).
  exists r'. split; [done|]. split; [done|].
  split.
  { rewrite Hrnd.
    destruct (editorUpdateRow_loop_appends (chars r) []) as (t & -> & Ht & _).
    done. }
  split.
  { rewrite editorRowCxToRx_width
      by (pose proof (len_nonneg (chars r')); unfold size; lia).
    unfold rsize, size. rewrite Hrnd, Hc, editorUpdateRow_loop_width.
    unfold len at 1. by rewrite Nat2Z.id, firstn_all. }
  split.
  { unfold rsize, size. rewrite Hrnd.
    pose proof (editorUpdateRow_loop_capacity (chars r) []) as H.
    unfold len at 2 in H. simpl in H. lia. }
  intros cx c Hcx.
  pose proof (lookup_lt_Some _ _ _ Hcx) as Hlt.
  exists (width_from (take cx (chars r)) 0). split.
  - rewrite editorRowCxToRx_width by (unfold size, len; rewrite Hc; lia).
    by rewrite Nat2Z.id, Hc.
  - rewrite Hrnd.
    replace (editorUpdateRow_loop (chars r) [])
      with (editorUpdateRow_loop (take cx (chars r) ++ drop cx (chars r)) [])
      by (by rewrite take_drop).
    rewrite editorUpdateRow_loop_app.
    destruct (editorUpdateRow_loop_appends (drop cx (chars r))
                (editorUpdateRow_loop (take cx (chars r)) []))
      as (t & -> & _ & Ht).
    pose proof (editorUpdateRow_loop_width (take cx (chars r)) []) as Hw.
    change (len []) with 0 in Hw. rewrite <- Hw.
    pose proof (len_nonneg (editorUpdateRow_loop (take cx (chars r)) [])).
    unfold load. destruct (Z.ltb_spec (len (editorUpdateRow_loop
                                         (take cx (chars r)) [])) 0); [lia|].
    unfold len. rewrite Nat2Z.id.
    rewrite lookup_app_r by lia. rewrite Nat.sub_diag.
    apply (Ht c (drop (S cx) (chars r))).
    by apply drop_S.
Qed.

(** ** Highlight classes *)

Lemma store_Forall {A} (P : A -> Prop) l i v l' :
  Forall P l -> P v -> store l i v = Some l' -> Forall P l'.
Proof.
  intros Hl Hv (_ & -> & _)%store_Some. by apply Forall_insert.
Qed.

Lemma memset_Forall {A} (P : A -> Prop) l off v n l' :
  Forall P l -> P v -> memset l off v n = Some l' -> Forall P l'.
Proof.
  intros Hl Hv. unfold memset. destruct (_ && _); [|done]. intros [= <-].
  rewrite !Forall_app. split; [by apply Forall_take|].
  split; [by apply Forall_replicate|by apply Forall_drop].
Qed.

Lemma editorUpdateSyntax_loop_classes s rnd :
  forall fuel i prev_sep in_string h h',
  Forall (hl_allowed (Some s)) h ->
  editorUpdateSyntax_loop fuel s rnd i prev_sep in_string h = Some h' ->
  Forall (hl_allowed (Some s)) h'.
Proof.
  induction fuel as [|fuel IH]; intros i ps ins h h' Hh;
    cbn [editorUpdateSyntax_loop];
    destruct (negb (i <? len rnd)); try (by intros [= <-]); try done.
  assert (forall c p h',
    (if has_flag s HL_HIGHLIGHT_NUMBERS
        && (isdigit (Z_of_char c)
            && (ps || editorHighlight_eqb p HL_NUMBER)
            || Ascii.eqb c DOT && editorHighlight_eqb p HL_NUMBER)
     then hl1 ← store h i HL_NUMBER;
          editorUpdateSyntax_loop fuel s rnd (i + 1) false ins hl1
     else editorUpdateSyntax_loop fuel s rnd (i + 1) (is_separator c) ins h)
    = Some h' -> Forall (hl_allowed (Some s)) h') as Hrest.
  { intros c p h''. destruct (has_flag s HL_HIGHLIGHT_NUMBERS) eqn:Hn; simpl.
    - destruct (_ && _ || _).
      + intros H'. apply bind_Some in H' as (h1 & Hh1 & H').
        eapply IH; [|exact H']. exact (store_Forall _ _ _ HL_NUMBER _ Hh Hn Hh1).
      + by apply IH.
    - by apply IH. }
  intros H. apply bind_Some in H as (c & _ & H).
  apply bind_Some in H as (p & _ & H). specialize (Hrest c p).
  destruct (negb (strlen (default [] (singleline_comment_start s)) =? 0))
    eqn:Hscs; simpl in H.
  - destruct (ins =? 0); simpl in H.
    + destruct (strncmp_eq _ _ _).
      * eapply memset_Forall; [done| |exact H]. simpl.
        apply negb_true_iff, Z.eqb_neq in Hscs. exact Hscs.
      * revert H. destruct (has_flag s HL_HIGHLIGHT_STRINGS) eqn:Hs;
          [|by apply Hrest].
        simpl. destruct (Ascii.eqb c DQUOTE || Ascii.eqb c SQUOTE); [|by apply Hrest].
        intros H. apply bind_Some in H as (h1 & Hh1 & H).
        eapply IH; [|exact H]. exact (store_Forall _ _ _ HL_STRING _ Hh Hs Hh1).
    + revert H. destruct (has_flag s HL_HIGHLIGHT_STRINGS) eqn:Hs;
        [|by apply Hrest].
      simpl. intros H. apply bind_Some in H as (h1 & Hh1 & H).
      pose proof (store_Forall _ _ _ HL_STRING _ Hh Hs Hh1) as Hf1.
      destruct (Ascii.eqb c BACKSLASH && _).
      * apply bind_Some in H as (h2 & Hh2 & H).
        eapply IH; [|exact H]. exact (store_Forall _ _ _ HL_STRING _ Hf1 Hs Hh2).
      * by eapply IH.
  - revert H. destruct (has_flag s HL_HIGHLIGHT_STRINGS) eqn:Hs;
      [|by apply Hrest].
    destruct (negb (ins =? 0)).
    + intros H. apply bind_Some in H as (h1 & Hh1 & H).
      pose proof (store_Forall _ _ _ HL_STRING _ Hh Hs Hh1) as Hf1.
      destruct (Ascii.eqb c BACKSLASH && _).
      * apply bind_Some in H as (h2 & Hh2 & H).
        eapply IH; [|exact H]. exact (store_Forall _ _ _ HL_STRING _ Hf1 Hs Hh2).
      * by eapply IH.
    + destruct (Ascii.eqb c DQUOTE || Ascii.eqb c SQUOTE); [|by apply Hrest].
      intros H. apply bind_Some in H as (h1 & Hh1 & H).
      eapply IH; [|exact H]. exact (store_Forall _ _ _ HL_STRING _ Hh Hs Hh1).
Qed.

(** X8: the classes [editorUpdateSyntax] hands out.  It always succeeds
    and never marks a cell as a search match; without a profile every
    cell is normal; with one, a number, string or comment cell appears
    only if the profile sets the matching flag or names a comment
    marker. *)
Theorem editorUpdateSyntax_classes (syn : option editorSyntax) (r : erow) :
  exists r',
    editorUpdateSyntax syn r = Some r' /\
    Forall (hl_allowed syn) (hl r').
Proof.
  destruct (editorUpdateSyntax_defined syn r) as (r' & Hr' & _).
  exists r'. split; [done|]. revert Hr'. unfold editorUpdateSyntax.
  destruct syn as [s|].
  - intros H. apply bind_Some in H as (h & Hh & [= <-]). simpl.
    eapply editorUpdateSyntax_loop_classes; [|exact Hh].
    by apply Forall_replicate.
  - intros [= <-]. simpl. by apply Forall_replicate.
Qed.

Lemma strncmp_eq_prefix m : forall rest tail,
  NUL ∉ m -> strncmp_eq (m ++ rest) (m ++ tail) (length m) = true.
Proof.
  induction m as [|a m IH]; intros rest tail Hm; [done|].
  apply not_elem_of_cons in Hm as [Ha Hm]. simpl.
  rewrite Ascii.eqb_refl. simpl.
  destruct (Ascii.eqb_spec a NUL); [congruence|]. by apply IH.
Qed.

Lemma c_str_prefix l : exists tail, l = c_str l ++ tail /\ (NUL ∉ c_str l).
Proof.
  induction l as [|a l (tail & Hl & Hn)]; simpl.
  - exists []. split; [done|apply not_elem_of_nil].
  - destruct (Ascii.eqb_spec a NUL) as [->|Ha].
    + exists (NUL :: l). split; [done|apply not_elem_of_nil].
    + exists tail. split; [simpl; congruence|].
      apply not_elem_of_cons. split; [congruence|done].
Qed.

Lemma editorUpdateSyntax_loop_comment s scs pre rest :
  singleline_comment_start s = Some scs -> 0 < strlen scs ->
  has_flag s HL_HIGHLIGHT_STRINGS = false \/ ((DQUOTE ∉ pre) /\ (SQUOTE ∉ pre)) ->
  forall fuel i prev_sep h,
  0 <= i <= len pre ->
  length h = length (pre ++ c_str scs ++ rest) ->
  len (pre ++ c_str scs ++ rest) - i <= Z.of_nat fuel ->
  exists h',
    editorUpdateSyntax_loop fuel s (pre ++ c_str scs ++ rest) i prev_sep 0 h
    = Some h' /\
    drop (length pre) h' = replicate (length (c_str scs ++ rest)) HL_COMMENT.
Proof.
  intros Hscs Hpos Hquote.
  set (rnd := pre ++ c_str scs ++ rest).
  assert (len rnd = len pre + len (c_str scs ++ rest)) as Hrnd
    by (unfold rnd; by rewrite len_app).
  assert (0 < len (c_str scs ++ rest)) as Hm.
  { rewrite len_app. pose proof (len_nonneg rest). unfold strlen in Hpos. lia. }
  induction fuel as [|fuel IH]; intros i ps h Hi Hlen Hf; [lia|].
  cbn [editorUpdateSyntax_loop].
  destruct (Z.ltb_spec i (len rnd)) as [Hlt|]; [|lia]. cbn [negb].
  assert (len h = len rnd) as Hlen' by (unfold len; lia).
  destruct (load_defined rnd i) as [c Hc]; [lia|]. rewrite Hc. simpl.
  assert (exists p, (if 0 <? i then load h (i - 1) else Some HL_NORMAL)
                    = Some p) as [p ->].
  { destruct (0 <? i) eqn:H0; [|eauto]. zbool. apply load_defined. lia. }
  simpl. rewrite Hscs. simpl.
  destruct (Z.eqb_spec (strlen scs) 0) as [|_]; [lia|]. simpl.
  destruct (strncmp_eq _ _ _) eqn:Hcmp.
  - unfold memset.
    destruct (Z.leb_spec 0 i); [|lia].
    destruct (Z.leb_spec 0 (len rnd - i)); [|lia].
    destruct (Z.leb_spec (i + (len rnd - i)) (len h)); [|lia].
    simpl. eexists. split; [done|].
    unfold len in *.
    rewrite drop_app_ge by (rewrite length_take; lia).
    rewrite length_take.
    rewrite drop_app_le by (rewrite length_replicate; lia).
    rewrite drop_replicate, (drop_ge h) by lia.
    rewrite app_nil_r. f_equal. lia.
  - assert (i < len pre) as Hip.
    { destruct (Z.eq_dec i (len pre)) as [->|]; [|lia]. exfalso.
      unfold len in Hcmp. rewrite Nat2Z.id in Hcmp. unfold rnd in Hcmp.
      rewrite drop_app_length in Hcmp.
      destruct (c_str_prefix scs) as (tail & Htail & Hnul).
      unfold strlen, len in Hcmp. rewrite Nat2Z.id in Hcmp.
      rewrite Htail in Hcmp at 2.
      rewrite strncmp_eq_prefix in Hcmp by done. done. }
    assert (forall prev,
      exists h',
        (if has_flag s HL_HIGHLIGHT_NUMBERS
            && (isdigit (Z_of_char c)
                && (ps || editorHighlight_eqb p HL_NUMBER)
                || Ascii.eqb c DOT && editorHighlight_eqb p HL_NUMBER)
         then hl1 ← store h i HL_NUMBER;
              editorUpdateSyntax_loop fuel s rnd (i + 1) false 0 hl1
         else editorUpdateSyntax_loop fuel s rnd (i + 1) prev 0 h)
        = Some h' /\
        drop (length pre) h'
        = replicate (length (c_str scs ++ rest)) HL_COMMENT) as Hrest.
    { intros prev. destruct (_ && _).
      - destruct (store_defined h i HL_NUMBER) as (h1 & -> & Hh1); [lia|].
        simpl. apply IH; [lia|congruence|lia].
      - apply IH; [lia|done|lia]. }
    destruct (has_flag s HL_HIGHLIGHT_STRINGS) eqn:Hs; [|apply Hrest].
    simpl. destruct Hquote as [|[Hdq Hsq]]; [done|].
    assert (c ∈ pre) as Hin.
    { apply load_Some in Hc as [_ Hc]. unfold rnd in Hc.
      rewrite lookup_app_l in Hc by (unfold len in Hip; lia).
      by eapply list_elem_of_lookup_2. }
    destruct (Ascii.eqb_spec c DQUOTE) as [->|_]; [done|].
    destruct (Ascii.eqb_spec c SQUOTE) as [->|_]; [done|].
    apply Hrest.
Qed.

(** X9: a comment runs to the end of the line.  With a profile that
    names a comment marker, a render string that holds the marker after
    a prefix which cannot open a string (the profile does not highlight
    strings, or the prefix holds no quote) is highlighted as a comment
    from the marker on. *)
Theorem editorUpdateSyntax_comment (s : editorSyntax)
    (scs pre rest : list ascii) (r : erow) :
  singleline_comment_start s = Some scs -> 0 < strlen scs ->
  has_flag s HL_HIGHLIGHT_STRINGS = false \/ ((DQUOTE ∉ pre) /\ (SQUOTE ∉ pre)) ->
  render r = pre ++ c_str scs ++ rest ->
  exists r',
    editorUpdateSyntax (Some s) r = Some r' /\
    drop (length pre) (hl r')
    = replicate (length (c_str scs ++ rest)) HL_COMMENT.
Proof.
  intros Hscs Hpos Hquote Hr. unfold editorUpdateSyntax. rewrite Hr.
  destruct (editorUpdateSyntax_loop_comment s scs pre rest Hscs Hpos Hquote
              (length (pre ++ c_str scs ++ rest)) 0 true
              (replicate (length (pre ++ c_str scs ++ rest)) HL_NORMAL))
    as (h' & -> & Hh').
  - pose proof (len_nonneg pre). lia.
  - by rewrite length_replicate.
  - unfold len. lia.
  - simpl. eauto.
Qed.

Lemma editorUpdateSyntax_comment_witness :
  exists r',
    editorUpdateSyntax (head HLDB)
      (set_render (blank_row []) (bytes "x = 1; // c")) = Some r' /\
    drop 7 (hl r') = replicate 4 HL_COMMENT.
Proof.
  apply (editorUpdateSyntax_comment
           {| file_type := bytes "c";
              file_match := C_HL_extensions;
              singleline_comment_start := Some (bytes "//");
              flags := Z.lor HL_HIGHLIGHT_NUMBERS HL_HIGHLIGHT_STRINGS |}
           (bytes "//") (bytes "x = 1; ") (bytes " c")
           (set_render (blank_row []) (bytes "x = 1; // c"))).
  - reflexivity.
  - reflexivity.
  - right. split; intros H; by vm_compute in H; repeat
      (apply elem_of_cons in H as [H|H]; [discriminate|]);
      apply elem_of_nil in H.
  - reflexivity.
Defined.

(** ** The search leaves the document alone *)








(** ** Opening and writing back a file *)





(** ** Choosing the syntax profile *)

Lemma strrchr_None s c : strrchr s c = None <-> c ∉ s.
Proof.
  induction s as [|a s IH]; simpl.
  - split; [intros _; apply not_elem_of_nil|done].
  - rewrite not_elem_of_cons. destruct (strrchr s c) as [t|].
    + split; [done|]. intros [_ H]. by apply IH in H.
    + destruct (Ascii.eqb_spec a c) as [->|Hac].
      * split; [done|]. by intros [? _].
      * split; [|done]. intros _. split; [congruence|by apply IH].
Qed.

Lemma strrchr_Some s c t :
  strrchr s c = Some t <->
  exists stem rest, s = stem ++ c :: rest /\ (c ∉ rest) /\ t = c :: rest.
Proof.
  revert t. induction s as [|a s IH]; intros t; simpl.
  - split; [done|]. intros (stem & rest & H & _). by destruct stem.
  - destruct (strrchr s c) as [t'|] eqn:Hs.
    + split.
      * intros [= <-]. destruct (proj1 (IH t') eq_refl)
          as (stem & rest & -> & Hn & ->).
        by exists (a :: stem), rest.
      * intros (stem & rest & Heq & Hn & ->).
        destruct stem as [|b stem]; simpl in Heq.
        -- injection Heq as -> ->. apply strrchr_None in Hn. congruence.
        -- injection Heq as -> ->. f_equal. symmetry.
           assert (Some t' = Some (c :: rest)) as [= ->]; [|done].
           apply IH. by exists stem, rest.
    + apply strrchr_None in Hs. destruct (Ascii.eqb_spec a c) as [->|Hac].
      * split.
        -- intros [= <-]. by exists [], s.
        -- intros (stem & rest & Heq & Hn & ->).
           destruct stem as [|b stem]; simpl in Heq.
           ++ by injection Heq as ->.
           ++ injection Heq as -> ->. exfalso. apply Hs.
              apply elem_of_app. right. apply elem_of_cons. by left.
      * split; [done|]. intros (stem & rest & Heq & Hn & ->).
        destruct stem as [|b stem]; simpl in Heq.
        -- injection Heq as ->. done.
        -- injection Heq as -> ->. exfalso. apply Hs.
           apply elem_of_app. right. apply elem_of_cons. by left.
Qed.

Lemma c_str_no_NUL l : NUL ∉ l -> c_str l = l.
Proof.
  induction l as [|a l IH]; [done|]. rewrite not_elem_of_cons.
  intros [Ha Hl]. simpl. destruct (Ascii.eqb_spec a NUL); [congruence|].
  by rewrite IH.
Qed.

(** The only profile applies exactly to the names with a C extension. *)
Lemma HLDB_find fname :
  List.find (fun s => existsb (pattern_matches fname
                                 (strrchr (c_str fname) DOT))
                        (file_match s)) HLDB
  = None
  <-> ~ has_C_extension fname.
Proof.
  destruct (c_str_prefix fname) as (_ & _ & Hnul).
  unfold HLDB, C_HL_extensions. cbn [List.find file_match existsb].
  unfold pattern_matches. cbn [hd bytes list_ascii_of_string].
  change (Ascii.eqb "."%char DOT) with true. cbn [andb negb orb].
  rewrite !orb_false_r.
  destruct (strrchr (c_str fname) DOT) as [x|] eqn:Hx.
  - apply strrchr_Some in Hx as (stem & rest & Hf & Hn & ->).
    assert (c_str (DOT :: rest) = DOT :: rest) as Hc.
    { apply c_str_no_NUL. intros Hin. apply Hnul. rewrite Hf.
      apply elem_of_app. by right. }
    assert (has_C_extension fname
            <-> rest = bytes "c" \/ rest = bytes "h" \/ rest = bytes "cpp")
      as ->.
    { split; [|intros Hext; by exists stem, rest].
      intros (stem' & ext & Hf' & Hext).
      assert (DOT ∉ ext) as Hd.
      { destruct Hext as [-> | [-> | ->]]; intros Hin; vm_compute in Hin;
          repeat (apply elem_of_cons in Hin as [Hin|Hin]; [discriminate|]);
          by apply elem_of_nil in Hin. }
      assert (strrchr (c_str fname) DOT = Some (DOT :: ext)) as H1
        by (apply strrchr_Some; by exists stem', ext).
      assert (strrchr (c_str fname) DOT = Some (DOT :: rest)) as H2
        by (apply strrchr_Some; by exists stem, rest).
      rewrite H1 in H2. by injection H2 as <-. }
    unfold strcmp_eq. rewrite Hc.
    repeat case_bool_decide; simpl; split; try done.
    1-7: intros Hno; exfalso; apply Hno;
      match goal with
      | H : DOT :: _ = _ |- _ => vm_compute in H; injection H as ->
      end; vm_compute; auto.
    intros _ [-> | [-> | ->]];
      match goal with
      | H : _ <> _ |- _ => solve [apply H; reflexivity]
      end.
  - simpl. split; [|done]. intros _ (stem & ext & Hf & _).
    apply strrchr_None in Hx. apply Hx. rewrite Hf.
    apply elem_of_app. right. apply elem_of_cons. by left.
Qed.

Lemma editorSelectSyntaxHighlight_profile e fname e' :
  E.filename e = Some fname ->
  editorSelectSyntaxHighlight e = Some e' ->
  E.filename e' = Some fname /\ E.dirty e' = E.dirty e /\
  (has_C_extension fname -> E.syntax e' = head HLDB) /\
  (~ has_C_extension fname -> E.syntax e' = None /\ E.row e' = E.row e).
Proof.
  intros Hfn. unfold editorSelectSyntaxHighlight. rewrite Hfn. cbv zeta.
  destruct (List.find _ _) as [s|] eqn:Hfind.
  - intros H. apply bind_Some in H as (rows & _ & [= <-]).
    split; [done|]. split; [done|]. split.
    + intros _. simpl. unfold HLDB in *. simpl in Hfind.
      destruct (_ || _); [|done]. by injection Hfind as <-.
    + intros Hno. apply HLDB_find in Hno. congruence.
  - intros [= <-]. split; [done|]. split; [done|]. split; [|done].
    intros Hext. by apply HLDB_find in Hfind.
Qed.

(** X12: the profile follows the extension.  [editorSelectSyntaxHighlight]
    always succeeds and keeps the file name.  It selects the C profile
    exactly when the name ends in [.c], [.h] or [.cpp] (the text from the
    last dot on); otherwise, and without a file name, it leaves no profile
    and does not touch the rows. *)
Theorem editorSelectSyntaxHighlight_by_extension (e : editorConfig) :
  exists e',
    editorSelectSyntaxHighlight e = Some e' /\
    E.filename e' = E.filename e /\
    match E.filename e with
    | None => E.syntax e' = None /\ E.row e' = E.row e
    | Some fname =>
        (has_C_extension fname -> E.syntax e' = head HLDB) /\
        (~ has_C_extension fname ->
         E.syntax e' = None /\ E.row e' = E.row e)
    end.
Proof.
  destruct (editorSelectSyntaxHighlight_defined e) as [e' He'].
  exists e'. split; [done|].
  destruct (E.filename e) as [fname|] eqn:Hfn.
  - destruct (editorSelectSyntaxHighlight_profile e fname e' Hfn He')
      as (Hfn' & _ & Hyes & Hno).
    by split.
  - revert He'. unfold editorSelectSyntaxHighlight. rewrite Hfn.
    by intros [= <-].
Qed.

(** ** Leaving the editor *)

Lemma editorRefreshScreen_quit e :
  editor_idle_ok e ->
  exists e1,
    editorRefreshScreen e = Some e1 /\ editor_idle_ok e1 /\
    E.row e1 = E.row e /\ E.dirty e1 = E.dirty e /\
    E.quit_times e1 = E.quit_times e.
Proof.
  intros Hidle.
  destruct (editorRefreshScreen_idle e Hidle) as (e1 & He1 & Hidle1 & _).
  destruct (editorScroll_ok e (proj1 Hidle))
    as (e1' & He1' & _ & _ & Hrow & Hd & _ & _ & _ & _ & Hqt & _).
  unfold editorRefreshScreen in He1. rewrite He1 in He1'.
  injection He1' as <-. by exists e1.
Qed.

Lemma main_loop_quit_exits file_write keys : forall (n : nat) e,
  editor_idle_ok e -> E.dirty e <> 0 -> E.quit_times e = Z.of_nat n ->
  exists e',
    main_loop file_write (S n) (replicate (S n) (CTRL_KEY "q") ++ keys) e
    = Exited e' /\
    E.row e' = E.row e /\ E.dirty e' = E.dirty e.
Proof.
  induction n as [|n IH]; intros e Hidle Hd Hqt;
    destruct (editorRefreshScreen_quit e Hidle)
      as (e1 & He1 & Hidle1 & Hrow1 & Hd1 & Hqt1);
    cbn [main_loop replicate app]; rewrite He1;
    cbn [editorProcessKeypress]; rewrite Z.eqb_refl;
    destruct (Z.eqb_spec (E.dirty e1) 0) as [|_]; try lia; cbn [negb andb].
  - destruct (Z.gtb_spec (E.quit_times e1) 0); [lia|]. by exists e1.
  - destruct (Z.gtb_spec (E.quit_times e1) 0); [|lia].
    destruct (IH (E.set_quit_times (E.quit_times e1 - 1) e1))
      as (e' & He' & Hrow' & Hd'); [by apply set_quit_times_idle| |
                                   |].
    + simpl. lia.
    + simpl. lia.
    + exists e'. split; [exact He'|]. simpl in Hrow', Hd'.
      split; congruence.
Qed.

Lemma main_loop_quit_absorbed file_write keys : forall (j : nat) e,
  editor_idle_ok e -> E.dirty e <> 0 -> Z.of_nat j <= E.quit_times e ->
  exists e',
    main_loop file_write j (replicate j (CTRL_KEY "q") ++ keys) e
    = Ret tt e' keys /\
    E.quit_times e' = E.quit_times e - Z.of_nat j /\
    E.row e' = E.row e /\ E.dirty e' = E.dirty e.
Proof.
  induction j as [|j IH]; intros e Hidle Hd Hqt.
  - exists e. split; [done|]. split; [lia|done].
  - destruct (editorRefreshScreen_quit e Hidle)
      as (e1 & He1 & Hidle1 & Hrow1 & Hd1 & Hqt1).
    cbn [main_loop replicate app]. rewrite He1.
    cbn [editorProcessKeypress]. rewrite Z.eqb_refl.
    destruct (Z.eqb_spec (E.dirty e1) 0) as [|_]; [lia|]. cbn [negb andb].
    destruct (Z.gtb_spec (E.quit_times e1) 0); [|lia].
    destruct (IH (E.set_quit_times (E.quit_times e1 - 1) e1))
      as (e' & He' & Hqt' & Hrow' & Hd'); [by apply set_quit_times_idle| |
                                          |].
    + simpl. lia.
    + simpl. lia.
    + exists e'. split; [exact He'|]. simpl in Hqt', Hrow', Hd'.
      split; [lia|]. split; congruence.
Qed.

(** X13: the guard on Ctrl-Q.  A clean document quits on the first
    Ctrl-Q.  With unsaved changes and [n] warnings left ([quit_times],
    3 after any other key), the first [n] consecutive presses are
    absorbed, each using up one warning, and the press after them quits;
    the document is not touched on the way. *)
Theorem main_loop_quit_guard (file_write : list ascii -> list ascii -> bool)
    (keys : list Z) (n : nat) (e : editorConfig) :
  editor_idle_ok e -> E.quit_times e = Z.of_nat n ->
  (E.dirty e = 0 ->
   exists e',
     main_loop file_write 1 (CTRL_KEY "q" :: keys) e = Exited e' /\
     E.row e' = E.row e) /\
  (E.dirty e <> 0 ->
   (forall j : nat, (j <= n)%nat ->
      exists e',
        main_loop file_write j (replicate j (CTRL_KEY "q") ++ keys) e
        = Ret tt e' keys /\
        E.quit_times e' = Z.of_nat (n - j) /\
        E.row e' = E.row e /\ E.dirty e' = E.dirty e) /\
   exists e',
     main_loop file_write (S n) (replicate (S n) (CTRL_KEY "q") ++ keys) e
     = Exited e' /\
     E.row e' = E.row e /\ E.dirty e' = E.dirty e).
Proof.
  intros Hidle Hqt. split.
  - intros Hd.
    destruct (editorRefreshScreen_quit e Hidle)
      as (e1 & He1 & _ & Hrow1 & Hd1 & _).
    cbn [main_loop]. rewrite He1. cbn [editorProcessKeypress].
    rewrite Z.eqb_refl, Hd1, Hd. simpl. by exists e1.
  - intros Hd. split.
    + intros j Hj.
      destruct (main_loop_quit_absorbed file_write keys j e Hidle Hd
                  ltac:(lia)) as (e' & He' & Hqt' & Hrow' & Hd').
      exists e'. split; [done|]. split; [lia|done].
    + by apply main_loop_quit_exits.
Qed.

Lemma main_loop_quit_guard_witness :
  exists e',
    main_loop (fun _ _ => true) 4
      (replicate 4 (CTRL_KEY "q") ++ [])
      (E.set_dirty 1 three_rows) = Exited e' /\
    E.row e' = E.row three_rows.
Proof.
  destruct (proj2 (main_loop_quit_guard (fun _ _ => true) [] 3
                     (E.set_dirty 1 three_rows)
                     ltac:(split; [by_evaluation|];
                           split; [by_evaluation|];
                           split; [repeat constructor|by_evaluation])
                     eq_refl) ltac:(discriminate))
    as (_ & e' & He' & Hrow' & _).
  exists e'. split; [exact He'|exact Hrow'].
Defined.

(** ** Deleting forward *)

(** X14: the Delete key removes the byte under the cursor.  On a row,
    with the cursor before its end, the byte at [cx] goes and the cursor
    stays; at the end of a row that has a successor the two rows are
    joined and the cursor stays; at the end of the last row nothing is
    deleted, but the cursor is left on the virtual row below it. *)
Theorem editorProcessKeypress_edit_DEL_KEY (e : editorConfig)
    (pre : list erow) (r : erow) (post : list erow) :
  E.row e = pre ++ r :: post -> E.cy e = len pre -> 0 <= E.cx e <= size r ->
  exists e',
    editorProcessKeypress_edit DEL_KEY e = Some e' /\
    (E.cx e < size r ->
     E.row e' = pre ++ make_row (E.syntax e)
                         (delete (Z.to_nat (E.cx e)) (chars r)) :: post /\
     E.cx e' = E.cx e /\ E.cy e' = E.cy e) /\
    (E.cx e = size r -> forall next post', post = next :: post' ->
     E.row e' = pre ++ make_row (E.syntax e) (chars r ++ chars next)
                :: post' /\
     E.cx e' = E.cx e /\ E.cy e' = E.cy e) /\
    (E.cx e = size r -> post = [] ->
     E.row e' = E.row e /\ E.dirty e' = E.dirty e /\
     E.cx e' = 0 /\ E.cy e' = E.cy e + 1).
Proof.
  intros Hrow Hcy Hcx.
  pose proof (row_at_middle _ _ _ _ Hrow) as Hr.
  pose proof (len_nonneg pre) as Hpre. pose proof (len_nonneg post) as Hpost.
  assert (E.num_rows e = len pre + 1 + len post) as Hn.
  { unfold E.num_rows. rewrite Hrow, len_app, len_cons. lia. }
  assert (row_len e (E.cy e) = size r) as Hrl
    by (unfold row_len; by rewrite Hcy, Hr).
  assert (cursor_ok e) as Hok by (unfold cursor_ok; lia).
  destruct (editorMoveCursor_horizontal ARROW_RIGHT e ltac:(by right) Hok)
    as (e1 & He1 & Hrow1 & Hd1 & Hfr1 & Hpos).
  assert (E.syntax e1 = E.syntax e) as Hsyn by apply Hfr1.
  simpl in Hpos. rewrite Hrl in Hpos.
  destruct (Z.geb_spec (E.cy e) (E.num_rows e)); [lia|].
  change (editorProcessKeypress_edit DEL_KEY e)
    with (e1 ← editorMoveCursor ARROW_RIGHT e; editorDelChar e1).
  rewrite He1. simpl.
  destruct (Z.ltb_spec (E.cx e) (size r)) as [Hlt|Hge].
  - injection Hpos as Hcy1 Hcx1.
    destruct (editorDelChar_left e1 pre r post) as (e' & He' & Hrow' & Hcx' & Hcy' & _);
      [congruence|congruence|lia|].
    exists e'. split; [done|]. split; [|split; intros; lia].
    intros _. rewrite Hrow', Hsyn, Hcx1.
    replace (E.cx e + 1 - 1) with (E.cx e) by lia.
    split; [done|]. split; [lia|congruence].
  - injection Hpos as Hcy1 Hcx1. destruct post as [|next post'].
    + exists e1. split.
      { apply editorDelChar_noop. left.
        rewrite (num_rows_rows _ _ Hrow1), Hn, Hcy1, Hcy.
        unfold len. simpl. lia. }
      split; [intros; lia|]. split; [by intros _ ? ? [=]|].
      intros _ _. split; [done|]. split; [done|]. split; [done|lia].
    + destruct (editorDelChar_merge e1 pre r next post')
        as (e' & He' & Hrow' & Hcx' & Hcy' & _);
        [congruence|lia|lia|].
      exists e'. split; [done|]. split; [intros; lia|].
      split; [|by intros _ [=]].
      intros _ ? ? [= <- <-]. rewrite Hrow', Hsyn.
      split; [done|]. split; [lia|congruence].
Qed.

Lemma editorProcessKeypress_edit_DEL_KEY_witness :
  exists e',
    editorProcessKeypress_edit DEL_KEY (E.set_cx 3 three_rows) = Some e' /\
    map chars (E.row e') = [bytes "foo"; bytes "barbaz"] /\
    E.cx e' = 3 /\ E.cy e' = 1.
Proof.
  destruct (editorProcessKeypress_edit_DEL_KEY (E.set_cx 3 three_rows)
              [make_row None (bytes "foo")] (make_row None (bytes "bar"))
              [make_row None (bytes "baz")] eq_refl eq_refl
              ltac:(by_evaluation))
    as (e' & He' & _ & H & _).
  destruct (H eq_refl _ _ eq_refl) as (Hrow & Hcx & Hcy).
  exists e'. split; [exact He'|]. rewrite Hrow.
  split; [reflexivity|]. split; [exact Hcx|exact Hcy].
Defined.

(** ** The prompt *)

Lemma same_document_trans e1 e2 e3 :
  same_document e1 e2 -> same_document e2 e3 -> same_document e1 e3.
Proof. unfold same_document. intuition congruence. Qed.

Lemma editorRefreshScreen_document e :
  editor_idle_ok e ->
  exists e1,
    editorRefreshScreen e = Some e1 /\ editor_idle_ok e1 /\
    same_document e e1.
Proof.
  intros Hidle.
  destruct (editorRefreshScreen_idle e Hidle) as (e1 & He1 & Hidle1 & _).
  destruct (editorScroll_ok e (proj1 Hidle))
    as (e1' & He1' & _ & _ & Hrow & Hd & _ & _ & Hsyn & Hfn & _).
  unfold editorRefreshScreen in He1. rewrite He1 in He1'.
  injection He1' as <-. by exists e1.
Qed.

Lemma char_of_Z_of_char c : char_of_Z (Z_of_char c) = c.
Proof.
  unfold char_of_Z, Z_of_char.
  pose proof (N_ascii_bounded c) as Hb.
  rewrite Z.mod_small by lia.
  by rewrite N2Z.id, ascii_N_embedding.
Qed.

Lemma editorPrompt_loop_typed keys : forall text buff e,
  editor_idle_ok e ->
  Forall (fun c => 32 <= Z_of_char c < 127) text ->
  exists e1,
    editorPrompt_loop None (map Z_of_char text ++ keys) buff e
    = editorPrompt_loop None keys (buff ++ text) e1 /\
    editor_idle_ok e1 /\ same_document e e1.
Proof.
  induction text as [|c text IH]; intros buff e Hidle Htext.
  - exists e. by rewrite app_nil_r.
  - apply Forall_cons in Htext as [Hc Htext].
    destruct (editorRefreshScreen_document e Hidle)
      as (e1 & He1 & Hidle1 & Hdoc1).
    destruct (IH (buff ++ [c]) e1 Hidle1 Htext)
      as (e2 & He2 & Hidle2 & Hdoc2).
    exists e2. split; [|split; [done|by eapply same_document_trans]].
    replace (buff ++ c :: text) with ((buff ++ [c]) ++ text)
      by (by rewrite <- app_assoc).
    rewrite <- He2.
    cbn [map app editorPrompt_loop]. rewrite He1.
    unfold DEL_KEY, BACKSPACE, ESC_KEY, ENTER_KEY, iscntrl.
    change (CTRL_KEY "h") with 8.
    destruct (Z.eqb_spec (Z_of_char c) 1004); [lia|].
    destruct (Z.eqb_spec (Z_of_char c) 8); [lia|].
    destruct (Z.eqb_spec (Z_of_char c) 127); [lia|].
    destruct (Z.eqb_spec (Z_of_char c) 27); [lia|].
    destruct (Z.eqb_spec (Z_of_char c) 13); [lia|].
    destruct (Z.ltb_spec (Z_of_char c) 32); [lia|].
    destruct (Z.ltb_spec (Z_of_char c) 128); [|lia].
    rewrite andb_false_r. cbn [orb negb andb run_callback].
    by rewrite char_of_Z_of_char.
Qed.

Lemma editorPrompt_loop_erased keys : forall (n : nat) buff e,
  editor_idle_ok e ->
  exists e1,
    editorPrompt_loop None (replicate n BACKSPACE ++ keys) buff e
    = editorPrompt_loop None keys (take (length buff - n) buff) e1 /\
    editor_idle_ok e1 /\ same_document e e1.
Proof.
  induction n as [|n IH]; intros buff e Hidle.
  - exists e. rewrite Nat.sub_0_r, firstn_all. done.
  - destruct (editorRefreshScreen_document e Hidle)
      as (e1 & He1 & Hidle1 & Hdoc1).
    destruct (IH (removelast buff) e1 Hidle1)
      as (e2 & He2 & Hidle2 & Hdoc2).
    exists e2. split; [|split; [done|by eapply same_document_trans]].
    cbn [replicate app editorPrompt_loop]. rewrite He1.
    change ((BACKSPACE =? DEL_KEY) || (BACKSPACE =? CTRL_KEY "h")
            || (BACKSPACE =? BACKSPACE)) with true.
    cbn [run_callback]. rewrite He2. f_equal.
    rewrite removelast_firstn_len, take_take.
    rewrite length_take. f_equal. lia.
Qed.

Lemma editorPrompt_loop_enter keys c text e :
  editor_idle_ok e ->
  exists e',
    editorPrompt_loop None (ENTER_KEY :: keys) (c :: text) e
    = Ret (Some (c :: text)) e' keys /\
    editor_idle_ok e' /\ same_document e e'.
Proof.
  intros Hidle.
  destruct (editorRefreshScreen_document e Hidle) as (e1 & He1 & Hidle1 & Hdoc1).
  cbn [editorPrompt_loop]. rewrite He1.
  change ((ENTER_KEY =? DEL_KEY) || (ENTER_KEY =? CTRL_KEY "h")
          || (ENTER_KEY =? BACKSPACE)) with false.
  change (ENTER_KEY =? ESC_KEY) with false.
  change (ENTER_KEY =? ENTER_KEY) with true. cbv iota.
  rewrite len_cons. pose proof (len_nonneg text).
  destruct (Z.eqb_spec (1 + len text) 0); [lia|]. cbn [negb run_callback].
  by exists e1.
Qed.

Lemma editorPrompt_loop_escape keys buff e :
  editor_idle_ok e ->
  exists e',
    editorPrompt_loop None (ESC_KEY :: keys) buff e = Ret None e' keys /\
    editor_idle_ok e' /\ same_document e e'.
Proof.
  intros Hidle.
  destruct (editorRefreshScreen_document e Hidle) as (e1 & He1 & Hidle1 & Hdoc1).
  cbn [editorPrompt_loop]. rewrite He1.
  change ((ESC_KEY =? DEL_KEY) || (ESC_KEY =? CTRL_KEY "h")
          || (ESC_KEY =? BACKSPACE)) with false.
  change (ESC_KEY =? ESC_KEY) with true. cbv iota. cbn [run_callback].
  by exists e1.
Qed.

(** X15: what a prompt returns.  Printable bytes typed into a prompt
    without callback are collected in order, each Backspace drops the
    last one, and Enter returns what is left when that is not empty;
    Escape returns no text whatever was typed.  The document is not
    touched. *)
Theorem editorPrompt_line_editing (text erased : list ascii)
    (keys : list Z) (e : editorConfig) :
  editor_idle_ok e ->
  Forall (fun c => 32 <= Z_of_char c < 127) (text ++ erased) ->
  (text <> [] ->
   exists e',
     editorPrompt None
       (map Z_of_char (text ++ erased)
        ++ replicate (length erased) BACKSPACE ++ ENTER_KEY :: keys) e
     = Ret (Some text) e' keys /\
     same_document e e') /\
  (exists e',
     editorPrompt None (map Z_of_char (text ++ erased) ++ ESC_KEY :: keys) e
     = Ret None e' keys /\
     same_document e e').
Proof.
  intros Hidle Htext. unfold editorPrompt. split.
  - intros Hne.
    destruct (editorPrompt_loop_typed
                (replicate (length erased) BACKSPACE ++ ENTER_KEY :: keys)
                (text ++ erased) [] e Hidle Htext)
      as (e1 & -> & Hidle1 & Hdoc1).
    destruct (editorPrompt_loop_erased (ENTER_KEY :: keys) (length erased)
                ([] ++ text ++ erased) e1 Hidle1)
      as (e2 & -> & Hidle2 & Hdoc2).
    cbn [app]. rewrite length_app, Nat.add_sub, take_app_length.
    destruct text as [|c text]; [done|].
    destruct (editorPrompt_loop_enter keys c text e2 Hidle2)
      as (e3 & -> & _ & Hdoc3).
    exists e3. split; [done|].
    eapply same_document_trans; [exact Hdoc1|].
    by eapply same_document_trans.
  - destruct (editorPrompt_loop_typed (ESC_KEY :: keys) (text ++ erased) [] e
                Hidle Htext) as (e1 & -> & Hidle1 & Hdoc1).
    destruct (editorPrompt_loop_escape keys ([] ++ text ++ erased) e1 Hidle1)
      as (e2 & -> & _ & Hdoc2).
    exists e2. split; [done|]. by eapply same_document_trans.
Qed.

Lemma editorPrompt_line_editing_witness :
  exists e',
    editorPrompt None
      (map Z_of_char (bytes "a.c" ++ bytes "x")
       ++ replicate 1 BACKSPACE ++ ENTER_KEY :: []) three_rows
    = Ret (Some (bytes "a.c")) e' [] /\
    same_document three_rows e'.
Proof.
  apply (proj1 (editorPrompt_line_editing (bytes "a.c") (bytes "x") []
                  three_rows
                  ltac:(split; [by_evaluation|];
                        split; [by_evaluation|];
                        split; [repeat constructor|by_evaluation])
                  ltac:(repeat constructor; by_evaluation))).
  discriminate.
Defined.

(** ** Saving *)

Lemma concat_lines_chars rows rows' :
  map chars rows' = map chars rows ->
  concat (map (fun r => chars r ++ [NEWLINE]) rows')
  = concat (map (fun r => chars r ++ [NEWLINE]) rows).
Proof.
  intros H.
  rewrite <- (map_map chars (fun cs => cs ++ [NEWLINE]) rows').
  rewrite <- (map_map chars (fun cs => cs ++ [NEWLINE]) rows).
  by rewrite H.
Qed.

Lemma editorSave_write_result file_write keys e :
  editorSave_write file_write keys e
  = Ret tt (if file_write (default [] (E.filename e))
                 (concat (map (fun r => chars r ++ [NEWLINE]) (E.row e)))
            then E.set_dirty 0 e else e) keys.
Proof.
  unfold editorSave_write, editorRowsToString.
  rewrite editorRowsToString_copy_concat. simpl. by destruct (file_write _ _).
Qed.

(** X16: saving.  With a file name, [editorSave] reads no key: it hands
    the rows, each followed by a newline, to the file and clears the
    dirty counter if the write succeeds; a failed write changes nothing.
    Without one it asks for a name: a name typed and confirmed with
    Enter becomes the file name, selects the profile by its extension and
    is written to in the same way; Escape leaves the document as it was,
    unnamed and as dirty as before. *)
Theorem editorSave_result (file_write : list ascii -> list ascii -> bool)
    (keys : list Z) (e : editorConfig) :
  editor_idle_ok e ->
  match E.filename e with
  | Some fname =>
      editorSave file_write keys e
      = Ret tt (if file_write fname
                     (concat (map (fun r => chars r ++ [NEWLINE]) (E.row e)))
                then E.set_dirty 0 e else e) keys
  | None =>
      forall name, name <> [] ->
        Forall (fun c => 32 <= Z_of_char c < 127) name ->
        (exists e',
           editorSave file_write (map Z_of_char name ++ ENTER_KEY :: keys) e
           = Ret tt e' keys /\
           E.filename e' = Some name /\
           map chars (E.row e') = map chars (E.row e) /\
           (has_C_extension name -> E.syntax e' = head HLDB) /\
           E.dirty e'
           = if file_write name
                  (concat (map (fun r => chars r ++ [NEWLINE]) (E.row e)))
             then 0 else E.dirty e) /\
        (exists e',
           editorSave file_write (map Z_of_char name ++ ESC_KEY :: keys) e
           = Ret tt e' keys /\
           same_document e e')
  end.
Proof.
  intros Hidle. unfold editorSave.
  destruct (E.filename e) as [fname|] eqn:Hfn.
  - by rewrite editorSave_write_result, Hfn.
  - intros name Hne Hname. unfold editorPrompt. split.
    + destruct (editorPrompt_loop_typed (ENTER_KEY :: keys) name [] e
                  Hidle Hname) as (e1 & -> & Hidle1 & Hdoc1).
      destruct name as [|c name]; [done|]. cbn [app].
      destruct (editorPrompt_loop_enter keys c name e1 Hidle1)
        as (e2 & -> & Hidle2 & Hdoc2).
      pose proof (same_document_trans _ _ _ Hdoc1 Hdoc2)
        as (Hrow & Hd & _ & _).
      assert (rows_hl_ok (E.set_filename (Some (c :: name)) e2)) as Hhl
        by apply Hidle2.
      destruct (editorSelectSyntaxHighlight_ok _ Hhl)
        as (e3 & He3 & _ & [Hst _] & _).
      rewrite He3.
      destruct (editorSelectSyntaxHighlight_profile
                  (E.set_filename (Some (c :: name)) e2) (c :: name) e3
                  eq_refl He3) as (Hfn3 & Hd3 & Hyes & _).
      simpl in Hst, Hd3.
      rewrite editorSave_write_result, Hfn3. simpl.
      rewrite (concat_lines_chars (E.row e) (E.row e3)) by congruence.
      eexists. split; [reflexivity|].
      destruct (file_write _ _); simpl;
        (split; [done|split; [congruence|split; [done|congruence]]]).
    + destruct (editorPrompt_loop_typed (ESC_KEY :: keys) name [] e
                  Hidle Hname) as (e1 & -> & Hidle1 & Hdoc1).
      destruct (editorPrompt_loop_escape keys ([] ++ name) e1 Hidle1)
        as (e2 & -> & _ & Hdoc2).
      exists e2. split; [done|]. by eapply same_document_trans.
Qed.

Lemma editorSave_result_witness :
  editorSave (fun _ _ => true) [] (E.set_filename (Some (bytes "a.c"))
                                     (E.set_dirty 2 two_rows))
  = Ret tt (E.set_dirty 0 (E.set_filename (Some (bytes "a.c"))
                             (E.set_dirty 2 two_rows))) [].
Proof.
  apply (editorSave_result (fun _ _ => true) []
           (E.set_filename (Some (bytes "a.c")) (E.set_dirty 2 two_rows))).
  split; [by_evaluation|]. split; [by_evaluation|].
  split; [repeat constructor|by_evaluation].
Defined.
(** ** The document as a byte buffer *)

Lemma file_bytes_app rows rows' :
  file_bytes (rows ++ rows') = file_bytes rows ++ file_bytes rows'.
Proof. unfold file_bytes. by rewrite map_app, concat_app. Qed.

Lemma file_bytes_cons r rows :
  file_bytes (r :: rows) = chars r ++ NEWLINE :: file_bytes rows.
Proof. unfold file_bytes. simpl. by rewrite <- app_assoc. Qed.

Lemma editorRowsToString_file_bytes e :
  (editorRowsToString e).1 = file_bytes (E.row e).
Proof.
  unfold editorRowsToString. simpl. by rewrite editorRowsToString_copy_concat.
Qed.

(** The bytes before and after the cursor, when it stands between the
    bytes [cs1] and [cs2] of the row after [pre]. *)
Lemma document_at_cursor e pre r cs1 cs2 post :
  E.row e = pre ++ r :: post -> chars r = cs1 ++ cs2 ->
  E.cy e = len pre -> E.cx e = len cs1 ->
  file_bytes (E.row e)
  = (file_bytes pre ++ cs1) ++ cs2 ++ NEWLINE :: file_bytes post /\
  cursor_offset e = len (file_bytes pre ++ cs1).
Proof.
  intros Hrow Hcs Hcy Hcx. split.
  - rewrite Hrow, file_bytes_app, file_bytes_cons, Hcs.
    by rewrite <- !app_assoc.
  - unfold cursor_offset. rewrite Hrow, Hcy, Hcx. unfold len at 1.
    rewrite Nat2Z.id, take_app_length, editorRowsToString_len_sum.
    rewrite <- len_concat_lines. fold (file_bytes pre).
    rewrite len_app. lia.
Qed.

Lemma take_drop_len {A} (l1 l2 : list A) :
  take (Z.to_nat (len l1)) (l1 ++ l2) = l1 /\
  drop (Z.to_nat (len l1)) (l1 ++ l2) = l2.
Proof.
  unfold len. rewrite Nat2Z.id. split.
  - apply take_app_length.
  - apply drop_app_length.
Qed.

Lemma take_len_pred {A} (l1 l2 : list A) x :
  take (Z.to_nat (len (l1 ++ [x])) - 1) ((l1 ++ [x]) ++ l2) = l1.
Proof.
  rewrite len_snoc. unfold len.
  replace (Z.to_nat (Z.of_nat (length l1) + 1) - 1)%nat with (length l1)
    by lia.
  rewrite <- app_assoc. apply take_app_length.
Qed.

(** X17: the editor edits the file's bytes at the cursor.  Take the
    document as the bytes [editorRowsToString] writes and the cursor as
    an offset into them.  With the cursor on a row, typing a byte
    inserts it at the offset, Enter inserts a newline there, and both
    move the offset one forward; Backspace removes the byte before the
    offset (a newline when the cursor is at the start of a row) and
    moves the offset one back, and does nothing at offset 0. *)
Theorem editing_at_cursor_offset (e : editorConfig) :
  cursor_ok e -> E.cy e < E.num_rows e ->
  (forall c, exists e',
     editorInsertChar c e = Some e' /\
     (editorRowsToString e').1
     = take (Z.to_nat (cursor_offset e)) (editorRowsToString e).1
       ++ char_of_Z c
       :: drop (Z.to_nat (cursor_offset e)) (editorRowsToString e).1 /\
     cursor_offset e' = cursor_offset e + 1) /\
  (exists e',
     editorInsertNewline e = Some e' /\
     (editorRowsToString e').1
     = take (Z.to_nat (cursor_offset e)) (editorRowsToString e).1
       ++ NEWLINE
       :: drop (Z.to_nat (cursor_offset e)) (editorRowsToString e).1 /\
     cursor_offset e' = cursor_offset e + 1) /\
  (exists e',
     editorDelChar e = Some e' /\
     (editorRowsToString e').1
     = take (Z.to_nat (cursor_offset e) - 1) (editorRowsToString e).1
       ++ drop (Z.to_nat (cursor_offset e)) (editorRowsToString e).1 /\
     cursor_offset e' = Z.max 0 (cursor_offset e - 1)).
Proof.
  intros Hok Hlt.
  destruct (cursor_ok_on_row e Hok Hlt) as (pre & r & post & Hrow & Hcy & Hcx).
  assert (chars r = take (Z.to_nat (E.cx e)) (chars r)
                    ++ drop (Z.to_nat (E.cx e)) (chars r)) as Hcs
    by (by rewrite take_drop).
  assert (E.cx e = len (take (Z.to_nat (E.cx e)) (chars r))) as Hlen
    by (unfold size, len in *; rewrite length_take; lia).
  split; [|split].
  - intros c.
    destruct (editorInsertChar_on_row c e pre r post Hrow Hcy Hcx)
      as (e' & He' & Hrow' & Hcx' & Hcy' & _).
    exists e'. split; [done|].
    revert Hcs Hlen Hrow'.
    generalize (take (Z.to_nat (E.cx e)) (chars r)) as cs1.
    generalize (drop (Z.to_nat (E.cx e)) (chars r)) as cs2.
    intros cs2 cs1 Hcs Hlen Hrow'.
    destruct (document_at_cursor e pre r cs1 cs2 post Hrow Hcs Hcy Hlen)
      as [Hbuf Hoff].
    destruct (document_at_cursor e' pre _ (cs1 ++ [char_of_Z c]) cs2 post
                Hrow') as [Hbuf' Hoff'];
      [rewrite chars_make_row; by rewrite <- app_assoc|done
      |rewrite len_snoc; lia|].
    rewrite !editorRowsToString_file_bytes, Hbuf, Hbuf', Hoff, Hoff'.
    destruct (take_drop_len (file_bytes pre ++ cs1)
                (cs2 ++ NEWLINE :: file_bytes post)) as [-> ->].
    split; [by rewrite <- !app_assoc|].
    rewrite app_assoc. apply len_snoc.
  - assert (exists e' m1 m2,
      editorInsertNewline e = Some e' /\
      E.row e' = pre ++ m1 :: m2 :: post /\
      chars m1 = take (Z.to_nat (E.cx e)) (chars r) /\
      chars m2 = drop (Z.to_nat (E.cx e)) (chars r) /\
      E.cx e' = 0 /\ E.cy e' = len pre + 1)
      as (e' & m1 & m2 & He' & Hrow' & Hm1 & Hm2 & Hcx' & Hcy').
    { destruct (Z.eq_dec (E.cx e) 0) as [Hz|Hnz].
      - destruct (editorInsertNewline_at_start e pre (r :: post) Hrow Hcy Hz)
          as (e' & He' & Hrow' & Hcx' & Hcy' & _).
        exists e', (make_row (E.syntax e) []), r. rewrite Hz.
        by rewrite chars_make_row.
      - destruct (editorInsertNewline_split e pre r post Hrow Hcy ltac:(lia))
          as (e' & He' & Hrow' & Hcx' & Hcy' & _).
        eexists e', _, _. split; [done|]. split; [exact Hrow'|].
        by rewrite !chars_make_row. }
    exists e'. split; [done|].
    revert Hcs Hlen Hm1 Hm2.
    generalize (take (Z.to_nat (E.cx e)) (chars r)) as cs1.
    generalize (drop (Z.to_nat (E.cx e)) (chars r)) as cs2.
    intros cs2 cs1 Hcs Hlen Hm1 Hm2.
    destruct (document_at_cursor e pre r cs1 cs2 post Hrow Hcs Hcy Hlen)
      as [Hbuf Hoff].
    destruct (document_at_cursor e' (pre ++ [m1]) m2 [] cs2 post)
      as [Hbuf' Hoff'];
      [by rewrite <- app_assoc|done|by rewrite len_snoc|done|].
    rewrite !editorRowsToString_file_bytes, Hbuf, Hbuf', Hoff, Hoff'.
    destruct (take_drop_len (file_bytes pre ++ cs1)
                (cs2 ++ NEWLINE :: file_bytes post)) as [-> ->].
    rewrite file_bytes_app, file_bytes_cons, Hm1, !app_nil_r.
    change (file_bytes []) with (@nil ascii).
    split; [by rewrite <- !app_assoc|].
    rewrite app_assoc. apply len_snoc.
  - destruct (Z.eq_dec (E.cx e) 0) as [Hz|Hnz].
    + destruct (document_at_cursor e pre r [] (chars r) post Hrow eq_refl
                  Hcy Hz) as [Hbuf Hoff].
      rewrite app_nil_r in Hbuf, Hoff.
      destruct pre as [|p pre0 _] using rev_ind.
      * exists e. split; [apply editorDelChar_noop; right; by split|].
        rewrite Hoff. by split.
      * rewrite <- app_assoc in Hrow. simpl in Hrow.
        rewrite len_snoc in Hcy.
        destruct (editorDelChar_merge e pre0 p r post Hrow Hcy ltac:(lia))
          as (e' & He' & Hrow' & Hcx' & Hcy' & _).
        exists e'. split; [done|].
        destruct (document_at_cursor e' pre0 _ (chars p) (chars r) post
                    Hrow') as [Hbuf' Hoff'];
          [by rewrite chars_make_row|done|done|].
        rewrite !editorRowsToString_file_bytes, Hbuf, Hbuf', Hoff, Hoff'.
        rewrite file_bytes_app, file_bytes_cons.
        change (file_bytes []) with (@nil ascii).
        rewrite (app_assoc (file_bytes pre0) (chars p) [NEWLINE]).
        rewrite take_len_pred.
        destruct (take_drop_len ((file_bytes pre0 ++ chars p) ++ [NEWLINE])
                    (chars r ++ NEWLINE :: file_bytes post)) as [_ ->].
        split; [done|]. rewrite len_snoc.
        pose proof (len_nonneg (file_bytes pre0 ++ chars p)). lia.
    + destruct (editorDelChar_left e pre r post Hrow Hcy ltac:(lia))
        as (e' & He' & Hrow' & Hcx' & Hcy' & _).
      exists e'. split; [done|].
      revert Hcs Hlen.
      generalize (take (Z.to_nat (E.cx e)) (chars r)) as cs1.
      generalize (drop (Z.to_nat (E.cx e)) (chars r)) as cs2.
      intros cs2 cs1 Hcs Hlen.
      destruct cs1 as [|x cs1 _] using rev_ind;
        [unfold len in Hlen; simpl in Hlen; lia|].
      rewrite len_snoc in Hlen.
      destruct (document_at_cursor e pre r (cs1 ++ [x]) cs2 post Hrow Hcs Hcy
                  ltac:(rewrite len_snoc; lia)) as [Hbuf Hoff].
      destruct (document_at_cursor e' pre _ cs1 cs2 post Hrow')
        as [Hbuf' Hoff']; [|done|lia|].
      { rewrite chars_make_row, Hcs.
        replace (Z.to_nat (E.cx e - 1)) with (length cs1)
          by (unfold len in Hlen; lia).
        rewrite <- app_assoc. apply delete_middle. }
      rewrite !editorRowsToString_file_bytes, Hbuf, Hbuf', Hoff, Hoff'.
      rewrite (app_assoc (file_bytes pre) cs1 [x]).
      rewrite take_len_pred.
      destruct (take_drop_len ((file_bytes pre ++ cs1) ++ [x])
                  (cs2 ++ NEWLINE :: file_bytes post)) as [_ ->].
      split; [done|]. rewrite len_snoc.
      pose proof (len_nonneg (file_bytes pre ++ cs1)). lia.
Qed.

Lemma editing_at_cursor_offset_witness :
  exists e',
    editorInsertNewline (E.set_cx 2 three_rows) = Some e' /\
    (editorRowsToString e').1
    = bytes "foo" ++ NEWLINE :: bytes "ba" ++ NEWLINE :: bytes "r"
      ++ NEWLINE :: bytes "baz" ++ [NEWLINE] /\
    cursor_offset e' = 7.
Proof.
  destruct (proj1 (proj2 (editing_at_cursor_offset (E.set_cx 2 three_rows)
                            ltac:(by_evaluation) ltac:(by_evaluation))))
    as (e' & He' & Hbuf & Hoff).
  exists e'. split; [exact He'|]. split; [exact Hbuf|exact Hoff].
Defined.

(** ** Drawing the text area *)

Lemma shown_color_sequence h rest color :
  h <> HL_NORMAL ->
  shown (color_sequence (editorSyntaxToColor h) ++ rest) color
  = shown rest (editorSyntaxToColor h).
Proof. destruct h; [done|reflexivity..]. Qed.

Lemma shown_default rest color :
  shown ((ESC :: bytes "[39m") ++ rest) color = shown rest 39.
Proof. reflexivity. Qed.

Lemma editorDrawRows_text_shown c hl : forall (n : nat) (j : nat) cur ab,
  (j + n <= length c)%nat -> (j + n <= length hl)%nat -> ESC ∉ c ->
  exists out,
    editorDrawRows_text n c hl (Z.of_nat j) cur ab = Some (ab ++ out) /\
    forall rest,
      cur = -1 \/ 30 <= cur <= 37 ->
      shown (out ++ (ESC :: bytes "[39m") ++ rest)
        (if cur =? -1 then 39 else cur)
      = zip (take n (drop j c)) (cell_color <$> take n (drop j hl))
        ++ shown rest 39.
Proof.
  induction n as [|n IH]; intros j cur ab Hc Hhl Hesc.
  - exists []. split; [by rewrite app_nil_r|]. intros rest _. reflexivity.
  - cbn [editorDrawRows_text].
    destruct (hl !! j) as [h|] eqn:Hh;
      [|apply lookup_ge_None in Hh; lia].
    destruct (c !! j) as [ch|] eqn:Hch;
      [|apply lookup_ge_None in Hch; lia].
    unfold load. destruct (Z.ltb_spec (Z.of_nat j) 0); [lia|].
    rewrite Nat2Z.id, Hh, Hch. cbn [mbind option_bind].
    assert (ch <> ESC) as Hne
      by (intros ->; apply Hesc; by eapply list_elem_of_lookup_2).
    rewrite (drop_S _ _ _ Hch), (drop_S _ _ _ Hh). cbn [take fmap list_fmap zip zip_with].
    replace (Z.of_nat j + 1) with (Z.of_nat (S j)) by lia.
    set (color := if editorHighlight_eqb h HL_NORMAL then -1
                  else editorSyntaxToColor h).
    set (seq := if editorHighlight_eqb h HL_NORMAL then ESC :: bytes "[39m"
                else color_sequence (editorSyntaxToColor h)).
    assert (forall ab0,
      (if editorHighlight_eqb h HL_NORMAL
       then editorDrawRows_text n c hl (Z.of_nat (S j)) (-1)
              (abuffAppend (if negb (cur =? -1)
                            then abuffAppend ab0 (ESC :: bytes "[39m")
                            else ab0) [ch])
       else editorDrawRows_text n c hl (Z.of_nat (S j)) (editorSyntaxToColor h)
              (abuffAppend (if negb (cur =? editorSyntaxToColor h)
                            then abuffAppend ab0
                                   (color_sequence (editorSyntaxToColor h))
                            else ab0) [ch]))
      = editorDrawRows_text n c hl (Z.of_nat (S j)) color
          ((ab0 ++ (if negb (cur =? color) then seq else [])) ++ [ch])) as ->.
    { intros ab0. subst color seq. unfold abuffAppend.
      destruct (editorHighlight_eqb h HL_NORMAL);
        destruct (negb _); by rewrite ?app_nil_r. }
    destruct (IH (S j) color
                ((ab ++ (if negb (cur =? color) then seq else [])) ++ [ch])
                ltac:(lia) ltac:(lia) Hesc) as (out & -> & Hout).
    exists ((if negb (cur =? color) then seq else []) ++ ch :: out).
    split; [by rewrite <- !app_assoc|].
    intros rest Hcur.
    assert (color = -1 \/ 30 <= color <= 37) as Hcolor
      by (subst color; destruct h; simpl; lia).
    specialize (Hout rest Hcolor).
    assert ((if color =? -1 then 39 else color) = cell_color h) as Hcell.
    { subst color. unfold cell_color. by destruct h. }
    rewrite Hcell in Hout.
    assert (forall tl col,
      shown (seq ++ tl) col = shown tl (cell_color h)) as Hseq.
    { intros tl col. subst seq. unfold cell_color.
      destruct (editorHighlight_eqb h HL_NORMAL) eqn:Hn; [reflexivity|].
      apply shown_color_sequence. by intros ->. }
    rewrite <- app_assoc.
    destruct (Z.eqb_spec cur color) as [->|Hdiff]; cbn [negb app].
    + rewrite Hcell. cbn [shown].
      destruct (Ascii.eqb_spec ch ESC); [done|]. f_equal. exact Hout.
    + rewrite Hseq. cbn [app shown].
      destruct (Ascii.eqb_spec ch ESC); [done|]. f_equal. exact Hout.
Qed.

Lemma take_window {A} (l : list A) (cols : Z) :
  take (Z.to_nat (if (if len l <? 0 then 0 else len l) >? cols then cols
                  else (if len l <? 0 then 0 else len l))) l
  = take (Z.to_nat cols) l.
Proof.
  pose proof (len_nonneg l).
  destruct (Z.ltb_spec (len l) 0); [lia|].
  destruct (Z.gtb_spec (len l) cols); [done|].
  unfold len in *. rewrite !take_ge by lia. done.
Qed.

(** X18: what a text line of the screen shows.  For a screen line that
    falls on a row whose render string holds no escape byte, the bytes
    [editorDrawRows] emits are, on a terminal that obeys the colour
    commands, the cells of the row inside the window, in order, each in
    the colour of its highlight class (the default colour for normal
    text); the line ends with the erase-line command and CR LF. *)
Theorem editorDrawRows_line_text (e : editorConfig) (y : Z) (r : erow)
    (ab : list ascii) :
  row_at e (y + E.row_offset e) = Some r -> row_hl_ok r ->
  ESC ∉ render r -> 0 <= E.col_offset e ->
  exists out,
    editorDrawRows_line e y ab
    = Some (ab ++ out ++ (ESC :: bytes "[K") ++ [CR; NEWLINE]) /\
    shown out 39
    = zip (visible e (render r)) (cell_color <$> visible e (hl r)).
Proof.
  intros Hr Hhl Hesc Hco. pose proof (proj1 (row_at_Some _ _ _) Hr) as [Hi _].
  unfold editorDrawRows_line. cbv zeta.
  destruct (Z.geb_spec (y + E.row_offset e) (E.num_rows e)); [lia|].
  rewrite Hr. cbn [mbind option_bind].
  destruct (Z.ltb_spec (E.col_offset e) 0); [lia|].
  set (c := drop (Z.to_nat (E.col_offset e)) (render r)).
  set (h := drop (Z.to_nat (E.col_offset e)) (hl r)).
  assert (length h = length c) as Hlen
    by (subst h c; rewrite !length_drop; unfold row_hl_ok in Hhl; lia).
  assert ((if rsize r - E.col_offset e <? 0 then 0
           else rsize r - E.col_offset e) = len c) as ->.
  { subst c. unfold rsize, len. rewrite length_drop.
    destruct (Z.ltb_spec (Z.of_nat (length (render r)) - E.col_offset e) 0);
      lia. }
  set (n := Z.to_nat (if len c >? E.screen_cols e then E.screen_cols e
                      else len c)).
  assert (n <= length c)%nat as Hn.
  { subst n. unfold len. destruct (Z.gtb_spec (Z.of_nat (length c))
                                     (E.screen_cols e)); lia. }
  assert (take n c = visible e (render r)) as Hvc.
  { unfold visible. fold c. subst n. pose proof (take_window c (E.screen_cols e)) as H'.
    pose proof (len_nonneg c). destruct (Z.ltb_spec (len c) 0); [lia|]. done. }
  assert (take n h = visible e (hl r)) as Hvh.
  { unfold visible. fold h. subst n.
    replace (len c) with (len h) by (unfold len; lia).
    pose proof (take_window h (E.screen_cols e)) as H'.
    pose proof (len_nonneg h). destruct (Z.ltb_spec (len h) 0); [lia|]. done. }
  destruct (editorDrawRows_text_shown c h n 0 (-1) ab ltac:(lia) ltac:(lia))
    as (out & Hout & Hshown).
  { intros Hin. apply Hesc.
    rewrite <- (take_drop (Z.to_nat (E.col_offset e)) (render r)).
    apply elem_of_app. by right. }
  change (Z.of_nat 0) with 0 in Hout. rewrite Hout. cbn [mbind option_bind].
  exists (out ++ ESC :: bytes "[39m"). split.
  - unfold abuffAppend. by rewrite <- !app_assoc.
  - specialize (Hshown [] ltac:(by left)). rewrite !drop_0 in Hshown.
    rewrite Hvc, Hvh in Hshown. cbn [shown] in Hshown.
    rewrite !app_nil_r in Hshown. exact Hshown.
Qed.

Lemma editorDrawRows_line_text_witness :
  exists out,
    editorDrawRows_line three_rows 0 []
    = Some ([] ++ out ++ (ESC :: bytes "[K") ++ [CR; NEWLINE]) /\
    shown out 39 = [("f"%char, 39); ("o"%char, 39); ("o"%char, 39)].
Proof.
  destruct (editorDrawRows_line_text three_rows 0
              (make_row None (bytes "foo")) [] eq_refl eq_refl)
    as (out & Hout & Hshown).
  - intros Hin. vm_compute in Hin.
    repeat (apply elem_of_cons in Hin as [Hin|Hin]; [discriminate|]).
    by apply elem_of_nil in Hin.
  - by_evaluation.
  - exists out. split; [exact Hout|exact Hshown].
Defined.

(** ** Drawing the status bar *)

Lemma editorDrawStatusBar_loop_pad e rstatus : forall fuel len_ ab,
  E.screen_cols e - len_ <= Z.of_nat fuel ->
  editorDrawStatusBar_loop fuel e rstatus len_ ab
  = ab ++ (if len rstatus <=? E.screen_cols e - len_
           then replicate (Z.to_nat (E.screen_cols e - len_ - len rstatus))
                  SPACE ++ rstatus
           else replicate (Z.to_nat (E.screen_cols e - len_)) SPACE).
Proof.
  pose proof (len_nonneg rstatus) as Hrs.
  induction fuel as [|fuel IH]; intros len_ ab Hf;
    cbn [editorDrawStatusBar_loop];
    destruct (Z.ltb_spec len_ (E.screen_cols e)) as [Hlt|Hge]; try lia.
  - destruct (Z.leb_spec (len rstatus) (E.screen_cols e - len_)).
    + assert (rstatus = []) as ->
        by (destruct rstatus; [done|rewrite len_cons in *;
                                    pose proof (len_nonneg rstatus); lia]).
      replace (Z.to_nat _) with 0%nat by (unfold len; simpl; lia).
      by rewrite !app_nil_r.
    + replace (Z.to_nat _) with 0%nat by lia. by rewrite app_nil_r.
  - destruct (Z.eqb_spec (E.screen_cols e - len_) (len rstatus)) as [Heq|Hne].
    + destruct (Z.leb_spec (len rstatus) (E.screen_cols e - len_)); [|lia].
      replace (Z.to_nat _) with 0%nat by lia. done.
    + rewrite IH by lia. unfold abuffAppend. rewrite <- app_assoc. f_equal.
      replace (E.screen_cols e - (len_ + 1) - len rstatus)
        with (E.screen_cols e - len_ - len rstatus - 1) by lia.
      replace (E.screen_cols e - (len_ + 1))
        with (E.screen_cols e - len_ - 1) by lia.
      destruct (Z.leb_spec (len rstatus) (E.screen_cols e - len_ - 1));
        destruct (Z.leb_spec (len rstatus) (E.screen_cols e - len_));
        try lia.
      * replace (Z.to_nat (E.screen_cols e - len_ - len rstatus))
          with (S (Z.to_nat (E.screen_cols e - len_ - len rstatus - 1)))
          by lia.
        done.
      * replace (Z.to_nat (E.screen_cols e - len_))
          with (S (Z.to_nat (E.screen_cols e - len_ - 1))) by lia.
        done.
  - destruct (Z.leb_spec (len rstatus) (E.screen_cols e - len_)).
    + assert (rstatus = []) as ->
        by (destruct rstatus; [done|rewrite len_cons in *;
                                    pose proof (len_nonneg rstatus); lia]).
      replace (Z.to_nat _) with 0%nat by (unfold len; simpl; lia).
      by rewrite !app_nil_r.
    + replace (Z.to_nat _) with 0%nat by lia. by rewrite app_nil_r.
Qed.

(** X19: the status bar is as wide as the screen.  When both texts fit
    their buffers and [screen_cols >= 0], the bar drawn between the
    inverse-video command and its reset holds exactly [screen_cols]
    bytes: the left text, cut at the screen width, then spaces, and,
    when there is room for it, the right text flush with the right
    edge. *)
Theorem editorDrawStatusBar_width (e : editorConfig) (ab : list ascii) :
  len (editorDrawStatusBar_status e) < 80 ->
  len (editorDrawStatusBar_rstatus e) < 80 ->
  0 <= E.screen_cols e ->
  exists body,
    editorDrawStatusBar e ab
    = Some (ab ++ (ESC :: bytes "[7m") ++ body ++ (ESC :: bytes "[m")
            ++ [CR; NEWLINE]) /\
    len body = E.screen_cols e /\
    (len (editorDrawStatusBar_status e) + len (editorDrawStatusBar_rstatus e)
     <= E.screen_cols e ->
     body = editorDrawStatusBar_status e
            ++ replicate (Z.to_nat (E.screen_cols e
                                    - len (editorDrawStatusBar_status e)
                                    - len (editorDrawStatusBar_rstatus e)))
                 SPACE
            ++ editorDrawStatusBar_rstatus e) /\
    (E.screen_cols e
     < len (editorDrawStatusBar_status e) + len (editorDrawStatusBar_rstatus e)
     -> body = take (Z.to_nat (E.screen_cols e)) (editorDrawStatusBar_status e)
               ++ replicate (Z.to_nat (E.screen_cols e
                                       - len (editorDrawStatusBar_status e)))
                    SPACE).
Proof.
  intros Hs Hrs Hcols. unfold editorDrawStatusBar. cbv zeta.
  set (status := editorDrawStatusBar_status e) in *.
  set (rstatus := editorDrawStatusBar_rstatus e) in *.
  pose proof (len_nonneg status) as Hs0.
  pose proof (len_nonneg rstatus) as Hrs0.
  destruct (Z.geb_spec (len status) 80); [lia|].
  destruct (Z.geb_spec (len rstatus) 80); [lia|].
  destruct (Z.ltb_spec (E.screen_cols e) 0); [lia|]. cbn [orb].
  set (len_ := if len status >? E.screen_cols e then E.screen_cols e
               else len status).
  assert (len_ = Z.min (len status) (E.screen_cols e)) as Hlen_
    by (subst len_; destruct (Z.gtb_spec (len status) (E.screen_cols e)); lia).
  rewrite editorDrawStatusBar_loop_pad by lia.
  set (pad := if len rstatus <=? E.screen_cols e - len_ then _ else _).
  exists (take (Z.to_nat len_) status ++ pad). split.
  { unfold abuffAppend. by rewrite <- !app_assoc. }
  assert (len (take (Z.to_nat len_) status) = len_) as Htake
    by (unfold len in *; rewrite length_take; lia).
  split; [|split].
  - rewrite len_app, Htake. subst pad.
    destruct (Z.leb_spec (len rstatus) (E.screen_cols e - len_)).
    + rewrite len_app. unfold len at 1. rewrite length_replicate. lia.
    + unfold len. rewrite length_replicate. lia.
  - intros Hfit. subst pad.
    destruct (Z.leb_spec (len rstatus) (E.screen_cols e - len_)); [|lia].
    replace len_ with (len status) by lia.
    unfold len at 1. by rewrite Nat2Z.id, firstn_all.
  - intros Hnofit. subst pad.
    destruct (Z.leb_spec (len rstatus) (E.screen_cols e - len_)).
    { assert (len rstatus = 0) as Hz by lia.
      assert (rstatus = []) as -> by (by destruct rstatus).
      replace len_ with (E.screen_cols e) by lia.
      replace (Z.to_nat (E.screen_cols e - len status)) with 0%nat by lia.
      by replace (Z.to_nat (E.screen_cols e - E.screen_cols e - len []))
        with 0%nat by lia. }
    destruct (Z.le_gt_cases (len status) (E.screen_cols e)).
    + replace len_ with (len status) by lia.
      unfold len at 1. rewrite Nat2Z.id, firstn_all.
      f_equal. unfold len in *. rewrite take_ge by lia. done.
    + replace len_ with (E.screen_cols e) by lia.
      replace (Z.to_nat (E.screen_cols e - len status)) with 0%nat by lia.
      by replace (Z.to_nat (E.screen_cols e - E.screen_cols e)) with 0%nat
        by lia.
Qed.

Lemma editorDrawStatusBar_width_witness :
  exists body,
    editorDrawStatusBar three_rows []
    = Some ([] ++ (ESC :: bytes "[7m") ++ body ++ (ESC :: bytes "[m")
            ++ [CR; NEWLINE]) /\
    len body = 80.
Proof.
  destruct (editorDrawStatusBar_width three_rows [])
    as (body & Hbody & Hlen & _).
  - by_evaluation.
  - by_evaluation.
  - by_evaluation.
  - exists body. split; [exact Hbody|exact Hlen].
Defined.

(** ** Drawing the whole text area *)

Lemma editorDrawRows_text_defined c hl : forall (n : nat) (j : nat) cur ab,
  (j + n <= length c)%nat -> (j + n <= length hl)%nat ->
  exists out, editorDrawRows_text n c hl (Z.of_nat j) cur ab = Some (ab ++ out).
Proof.
  induction n as [|n IH]; intros j cur ab Hc Hhl.
  - exists []. by rewrite app_nil_r.
  - cbn [editorDrawRows_text].
    destruct (hl !! j) as [h|] eqn:Hh;
      [|apply lookup_ge_None in Hh; lia].
    destruct (c !! j) as [ch|] eqn:Hch;
      [|apply lookup_ge_None in Hch; lia].
    unfold load. destruct (Z.ltb_spec (Z.of_nat j) 0); [lia|].
    rewrite Nat2Z.id, Hh, Hch. cbn [mbind option_bind].
    replace (Z.of_nat j + 1) with (Z.of_nat (S j)) by lia.
    unfold abuffAppend.
    destruct (editorHighlight_eqb h HL_NORMAL).
    + destruct (IH (S j) (-1)
                  ((if negb (cur =? -1) then ab ++ ESC :: bytes "[39m"
                    else ab) ++ [ch]) ltac:(lia) ltac:(lia)) as (out & ->).
      destruct (negb _);
        [exists ((ESC :: bytes "[39m") ++ ch :: out)|exists (ch :: out)];
        by rewrite <- !app_assoc.
    + destruct (IH (S j) (editorSyntaxToColor h)
                  ((if negb (cur =? editorSyntaxToColor h)
                    then ab ++ color_sequence (editorSyntaxToColor h)
                    else ab) ++ [ch]) ltac:(lia) ltac:(lia)) as (out & ->).
      destruct (negb _);
        [exists (color_sequence (editorSyntaxToColor h) ++ ch :: out)
        |exists (ch :: out)];
        by rewrite <- !app_assoc.
Qed.

Lemma editorDrawRows_line_defined e y ab :
  rows_hl_ok e -> 0 <= y + E.row_offset e -> 0 <= E.col_offset e ->
  0 <= E.screen_cols e ->
  exists body,
    editorDrawRows_line e y ab
    = Some (ab ++ body ++ (ESC :: bytes "[K") ++ [CR; NEWLINE]) /\
    (0 < E.num_rows e -> E.num_rows e <= y + E.row_offset e ->
     body = bytes "~").
Proof.
  intros Hhl Hy Hco Hcols. unfold editorDrawRows_line. cbv zeta.
  destruct (Z.geb_spec (y + E.row_offset e) (E.num_rows e)) as [Hge|Hlt].
  - destruct ((E.num_rows e =? 0) && (y =? Z.quot (E.screen_rows e) 3))
      eqn:Hw.
    + apply andb_true_iff in Hw as [Hn%Z.eqb_eq _].
      generalize welcome_message as w. intros w.
      set (wl := if len w >? E.screen_cols e then E.screen_cols e else len w).
      assert (0 <= wl) as Hwl
        by (subst wl; destruct (_ >? _); [lia|apply len_nonneg]).
      destruct (Z.ltb_spec wl 0); [lia|].
      destruct (negb (Z.quot (E.screen_cols e - wl) 2 =? 0));
        cbn [mbind option_bind]; unfold abuffAppend.
      * exists (bytes "~"
                ++ replicate (Z.to_nat (Z.quot (E.screen_cols e - wl) 2 - 1))
                     SPACE ++ take (Z.to_nat wl) w).
        split; [by rewrite <- !app_assoc|intros; lia].
      * exists (replicate (Z.to_nat (Z.quot (E.screen_cols e - wl) 2)) SPACE
                ++ take (Z.to_nat wl) w).
        split; [by rewrite <- !app_assoc|intros; lia].
    + cbn [mbind option_bind]. unfold abuffAppend.
      exists (bytes "~"). split; [by rewrite <- !app_assoc|done].
  - destruct (row_at_defined e (y + E.row_offset e) ltac:(lia)) as [r Hr].
    rewrite Hr. cbn [mbind option_bind].
    destruct (Z.ltb_spec (E.col_offset e) 0); [lia|].
    assert (row_hl_ok r) as Hrok.
    { unfold rows_hl_ok in Hhl. rewrite Forall_forall in Hhl. apply Hhl.
      apply row_at_Some in Hr as [_ Hr]. by eapply list_elem_of_lookup_2. }
    unfold row_hl_ok in Hrok.
    set (n := Z.to_nat _).
    assert (n <= length (drop (Z.to_nat (E.col_offset e)) (render r)))%nat
      as Hn.
    { subst n. rewrite length_drop. unfold rsize, len.
      destruct (Z.ltb_spec (Z.of_nat (length (render r)) - E.col_offset e) 0);
        match goal with
        | |- context [if ?b then _ else _] => destruct b eqn:?
        end; zbool; lia. }
    destruct (editorDrawRows_text_defined
                (drop (Z.to_nat (E.col_offset e)) (render r))
                (drop (Z.to_nat (E.col_offset e)) (hl r)) n 0 (-1) ab)
      as (out & Hout);
      [lia|rewrite length_drop in Hn; rewrite length_drop; lia|].
    change (Z.of_nat 0) with 0 in Hout. rewrite Hout.
    cbn [mbind option_bind]. unfold abuffAppend.
    exists (out ++ ESC :: bytes "[39m").
    split; [by rewrite <- !app_assoc|intros; lia].
Qed.

Lemma editorDrawRows_loop_lines e : forall (n : nat) (y : nat) ab,
  rows_hl_ok e -> 0 <= E.row_offset e -> 0 <= E.col_offset e ->
  0 <= E.screen_cols e ->
  exists lines,
    editorDrawRows_loop n e (Z.of_nat y) ab = Some (ab ++ concat lines) /\
    length lines = n /\
    Forall (fun l => exists body,
              l = body ++ (ESC :: bytes "[K") ++ [CR; NEWLINE]) lines /\
    (0 < E.num_rows e ->
     forall i : nat, (i < n)%nat ->
       E.num_rows e <= Z.of_nat (y + i) + E.row_offset e ->
       lines !! i = Some (bytes "~" ++ (ESC :: bytes "[K") ++ [CR; NEWLINE])).
Proof.
  induction n as [|n IH]; intros y ab Hhl Hro Hco Hcols.
  - exists []. split; [by rewrite app_nil_r|]. split; [done|].
    split; [done|]. intros _ i Hi. lia.
  - cbn [editorDrawRows_loop].
    destruct (editorDrawRows_line_defined e (Z.of_nat y) ab Hhl ltac:(lia)
                Hco Hcols) as (body & -> & Htilde).
    cbn [mbind option_bind].
    replace (Z.of_nat y + 1) with (Z.of_nat (S y)) by lia.
    destruct (IH (S y) (ab ++ body ++ (ESC :: bytes "[K") ++ [CR; NEWLINE])
                Hhl Hro Hco Hcols) as (lines & -> & Hlen & Hall & Hrest).
    exists ((body ++ (ESC :: bytes "[K") ++ [CR; NEWLINE]) :: lines).
    split; [by rewrite <- app_assoc|]. split; [simpl; lia|].
    split; [apply Forall_cons; split; [by exists body|done]|].
    intros Hn [|i] Hi Hpast.
    + simpl. rewrite Htilde; [done|done|lia].
    + simpl. apply Hrest; [done|lia|lia].
Qed.

(** X20: the text area.  With up-to-date highlight arrays and
    non-negative offsets and width, [editorDrawRows] succeeds and
    appends exactly [screen_rows] lines, each ending with the erase-line
    command and CR LF; in a document that has rows, every screen line
    below the last row is a single tilde. *)
Theorem editorDrawRows_lines (e : editorConfig) (ab : list ascii) :
  rows_hl_ok e -> 0 <= E.row_offset e -> 0 <= E.col_offset e ->
  0 <= E.screen_cols e ->
  exists lines,
    editorDrawRows e ab = Some (ab ++ concat lines) /\
    length lines = Z.to_nat (E.screen_rows e) /\
    Forall (fun l => exists body,
              l = body ++ (ESC :: bytes "[K") ++ [CR; NEWLINE]) lines /\
    (0 < E.num_rows e ->
     forall i : nat, Z.of_nat i < E.screen_rows e ->
       E.num_rows e <= Z.of_nat i + E.row_offset e ->
       lines !! i = Some (bytes "~" ++ (ESC :: bytes "[K") ++ [CR; NEWLINE])).
Proof.
  intros Hhl Hro Hco Hcols. unfold editorDrawRows.
  destruct (editorDrawRows_loop_lines e (Z.to_nat (E.screen_rows e)) 0 ab
              Hhl Hro Hco Hcols) as (lines & Hlines & Hlen & Hall & Htilde).
  exists lines. split; [exact Hlines|]. split; [done|]. split; [done|].
  intros Hn i Hi Hpast. apply Htilde; [done|lia|].
  by rewrite Nat.add_0_l.
Qed.

Lemma editorDrawRows_lines_witness :
  exists lines,
    editorDrawRows three_rows [] = Some ([] ++ concat lines) /\
    length lines = 22%nat /\
    lines !! 3%nat
    = Some (bytes "~" ++ (ESC :: bytes "[K") ++ [CR; NEWLINE]).
Proof.
  destruct (editorDrawRows_lines three_rows [])
    as (lines & Hlines & Hlen & _ & Htilde).
  - repeat constructor.
  - by_evaluation.
  - by_evaluation.
  - by_evaluation.
  - exists lines. split; [exact Hlines|]. split; [exact Hlen|].
    apply Htilde; by_evaluation.
Defined.

(** ** Showing a match *)







(** ** The rows stay up to date *)




Lemma same_frame_document e e' :
  same_frame e e' -> E.row e' = E.row e -> E.dirty e' = E.dirty e ->
  same_document e e'.
Proof. intros Hfr Hrow Hd. split; [done|]. split; [done|]. split; apply Hfr. Qed.















Section Fresh.

Variable file_write : list ascii -> list ascii -> bool.


End Fresh.






Section FreshLoop.

Variable file_write : list ascii -> list ascii -> bool.



End FreshLoop.




(** ** Up and Down *)

(** X23: Up and Down undo each other on the row, not on the column.
    From a valid cursor below the first row, Up then Down comes back to
    the same row; from one on a row, Down then Up does.  The column
    comes back too unless the row passed through was shorter, in which
    case it is that row's length (0 for the virtual row after the last
    one). *)
Theorem editorMoveCursor_up_down (e : editorConfig) :
  cursor_ok e ->
  (0 < E.cy e ->
   exists e1 e2,
     editorMoveCursor ARROW_UP e = Some e1 /\
     editorMoveCursor ARROW_DOWN e1 = Some e2 /\
     E.cy e1 = E.cy e - 1 /\ E.cy e2 = E.cy e /\
     E.cx e2 = Z.min (E.cx e) (row_len e (E.cy e - 1)) /\
     E.row e2 = E.row e) /\
  (E.cy e < E.num_rows e ->
   exists e1 e2,
     editorMoveCursor ARROW_DOWN e = Some e1 /\
     editorMoveCursor ARROW_UP e1 = Some e2 /\
     E.cy e1 = E.cy e + 1 /\ E.cy e2 = E.cy e /\
     E.cx e2 = Z.min (E.cx e) (row_len e (E.cy e + 1)) /\
     E.row e2 = E.row e).
Proof.
  intros [Hcy Hcx].
  pose proof (row_len_nonneg e (E.cy e - 1)) as Hup.
  pose proof (row_len_nonneg e (E.cy e + 1)) as Hdown.
  split; intros Hpos.
  - destruct (editorMoveCursor_vertical ARROW_UP e ltac:(by left) Hcy
                ltac:(lia))
      as (e1 & He1 & Hrow1 & _ & _ & Hcy1 & Hcx1).
    simpl in Hcy1. rewrite Z.max_r in Hcy1 by lia. rewrite Hcy1 in Hcx1.
    destruct (editorMoveCursor_vertical ARROW_DOWN e1 ltac:(by right))
      as (e2 & He2 & Hrow2 & _ & _ & Hcy2 & Hcx2).
    { rewrite (num_rows_rows _ _ Hrow1). lia. }
    { lia. }
    simpl in Hcy2. rewrite (num_rows_rows _ _ Hrow1), Hcy1 in Hcy2.
    rewrite Z.min_r in Hcy2 by lia.
    rewrite (row_len_rows _ _ _ Hrow1), Hcy2, Hcx1 in Hcx2.
    exists e1, e2. split; [done|]. split; [done|]. split; [done|].
    split; [lia|]. split; [|congruence].
    replace (E.cy e - 1 + 1) with (E.cy e) in Hcx2 by lia. lia.
  - destruct (editorMoveCursor_vertical ARROW_DOWN e ltac:(by right) Hcy
                ltac:(lia))
      as (e1 & He1 & Hrow1 & _ & _ & Hcy1 & Hcx1).
    simpl in Hcy1. rewrite Z.min_r in Hcy1 by lia. rewrite Hcy1 in Hcx1.
    destruct (editorMoveCursor_vertical ARROW_UP e1 ltac:(by left))
      as (e2 & He2 & Hrow2 & _ & _ & Hcy2 & Hcx2).
    { rewrite (num_rows_rows _ _ Hrow1). lia. }
    { lia. }
    simpl in Hcy2. rewrite Hcy1 in Hcy2. rewrite Z.max_r in Hcy2 by lia.
    rewrite (row_len_rows _ _ _ Hrow1), Hcy2, Hcx1 in Hcx2.
    exists e1, e2. split; [done|]. split; [done|]. split; [done|].
    split; [lia|]. split; [|congruence].
    replace (E.cy e + 1 - 1) with (E.cy e) in Hcx2 by lia. lia.
Qed.

Lemma editorMoveCursor_up_down_witness :
  exists e1 e2,
    editorMoveCursor ARROW_UP (E.set_cx 2 three_rows) = Some e1 /\
    editorMoveCursor ARROW_DOWN e1 = Some e2 /\
    E.cy e2 = 1 /\ E.cx e2 = 2.
Proof.
  destruct (proj1 (editorMoveCursor_up_down (E.set_cx 2 three_rows)
                     ltac:(by_evaluation)) ltac:(by_evaluation))
    as (e1 & e2 & He1 & He2 & _ & Hcy2 & Hcx2 & _).
  exists e1, e2. split; [exact He1|]. split; [exact He2|].
  split; [exact Hcy2|exact Hcx2].
Defined.

(** ** A typed byte *)

Lemma char_of_int_of_char b : char_of_Z (int_of_char b) = b.
Proof.
  unfold int_of_char, char_of_Z, Z_of_char.
  pose proof (N_ascii_bounded b) as Hb.
  destruct (Z.ltb_spec (Z.of_N (N_of_ascii b)) 128).
  - rewrite Z.mod_small by lia. by rewrite N2Z.id, ascii_N_embedding.
  - replace ((Z.of_N (N_of_ascii b) - 256) mod 256)
      with (Z.of_N (N_of_ascii b)).
    + by rewrite N2Z.id, ascii_N_embedding.
    + apply Z.mod_unique with (q := -1); lia.
Qed.

(** X24: a typed byte reaches the document unchanged.  Every byte other
    than the eight the editor reads as commands (Ctrl-F, Ctrl-H, Ctrl-L,
    Enter, Ctrl-Q, Ctrl-S, Escape and Backspace), bytes above 127
    included, is decoded by [editorReadKey] to a key that
    [editorProcessKeypress] inserts as that very byte at the cursor; the
    cursor moves one to the right and the quit counter is reset. *)
Theorem typed_byte_inserted
    (file_write : list ascii -> list ascii -> bool) (b : ascii)
    (inp : list read_result) (keys : list Z) (e : editorConfig)
    (pre : list erow) (r : erow) (post : list erow) :
  ~ In (Z_of_char b) [6; 8; 12; 13; 17; 19; 27; 127] ->
  E.row e = pre ++ r :: post -> E.cy e = len pre -> 0 <= E.cx e <= size r ->
  editorReadKey (ReadByte b :: inp) = Key (int_of_char b) inp /\
  exists e',
    editorProcessKeypress file_write (int_of_char b :: keys) e
    = Ret tt e' keys /\
    E.row e'
    = pre ++ make_row (E.syntax e)
               (take (Z.to_nat (E.cx e)) (chars r) ++ b
                :: drop (Z.to_nat (E.cx e)) (chars r)) :: post /\
    E.cx e' = E.cx e + 1 /\ E.cy e' = E.cy e /\
    E.quit_times e' = EDI_QUIT_TIMES.
Proof.
  intros Hb Hrow Hcy Hcx.
  assert (0 <= Z_of_char b < 256) as Hrange
    by (unfold Z_of_char; pose proof (N_ascii_bounded b); lia).
  assert (Z_of_char b <> 6 /\ Z_of_char b <> 8 /\ Z_of_char b <> 12 /\
          Z_of_char b <> 13 /\ Z_of_char b <> 17 /\ Z_of_char b <> 19 /\
          Z_of_char b <> 27 /\ Z_of_char b <> 127)
    as (H6 & H8 & H12 & H13 & H17 & H19 & H27 & H127).
  { repeat split; intros Heq; apply Hb; rewrite Heq; simpl; tauto. }
  split.
  - cbn [editorReadKey].
    destruct (Ascii.eqb_spec b ESC) as [->|_]; [|done].
    exfalso. apply H27. reflexivity.
  - assert (int_of_char b = Z_of_char b \/ int_of_char b = Z_of_char b - 256
                                           /\ 128 <= Z_of_char b)
      as Hk.
    { unfold int_of_char. destruct (Z.ltb_spec (Z_of_char b) 128);
        [by left|right; lia]. }
    destruct (editorInsertChar_on_row (int_of_char b) e pre r post Hrow Hcy
                Hcx) as (e' & He' & Hrow' & Hcx' & Hcy' & _).
    rewrite char_of_int_of_char in Hrow'.
    exists (E.set_quit_times EDI_QUIT_TIMES e').
    split; [|split; [done|split; [done|split; [simpl; congruence|done]]]].
    unfold editorProcessKeypress, editorProcessKeypress_edit.
    change (CTRL_KEY "q") with 17. change (CTRL_KEY "s") with 19.
    change (CTRL_KEY "f") with 6. change (CTRL_KEY "h") with 8.
    change (CTRL_KEY "l") with 12.
    unfold ENTER_KEY, HOME_KEY, END_KEY, BACKSPACE, DEL_KEY, PAGE_UP,
      PAGE_DOWN, ARROW_UP, ARROW_DOWN, ARROW_LEFT, ARROW_RIGHT, ESC_KEY.
    repeat match goal with
    | |- context [int_of_char b =? ?k] =>
        destruct (Z.eqb_spec (int_of_char b) k); [lia|]
    end.
    cbn [orb]. by rewrite He'.
Qed.

Lemma typed_byte_inserted_witness :
  exists e',
    editorProcessKeypress (fun _ _ => true)
      (int_of_char "233" :: []) (E.set_cx 1 three_rows)
    = Ret tt e' [] /\
    map chars (E.row e')
    = [bytes "foo"; ["b"; "233"; "a"; "r"]%char; bytes "baz"].
Proof.
  destruct (typed_byte_inserted (fun _ _ => true) "233" [] []
              (E.set_cx 1 three_rows)
              [make_row None (bytes "foo")] (make_row None (bytes "bar"))
              [make_row None (bytes "baz")])
    as (_ & e' & He' & Hrow' & _).
  - vm_compute. intros H.
    repeat (destruct H as [H|H]; [discriminate|]). exact H.
  - reflexivity.
  - reflexivity.
  - by_evaluation.
  - exists e'. split; [exact He'|]. rewrite Hrow'. reflexivity.
Defined.

(** ** The welcome line *)

(** X25: the empty document.  With no rows, the screen line a third of
    the way down shows the welcome message, centred when the screen is
    wide enough for it: a tilde and spaces fill the left margin of
    [(screen_cols - 23) / 2] cells, and the right margin is as wide or
    one cell wider; every other line is a single tilde. *)
Theorem editorDrawRows_line_welcome (e : editorConfig) (y : Z)
    (ab : list ascii) :
  E.num_rows e = 0 -> 0 <= y + E.row_offset e ->
  len welcome_message <= E.screen_cols e ->
  (y = Z.quot (E.screen_rows e) 3 ->
   exists left,
     editorDrawRows_line e y ab
     = Some (ab ++ (left ++ welcome_message) ++ (ESC :: bytes "[K")
             ++ [CR; NEWLINE]) /\
     len left = Z.quot (E.screen_cols e - len welcome_message) 2 /\
     (left = [] \/
      left = bytes "~" ++ replicate (Z.to_nat (len left - 1)) SPACE) /\
     0 <= E.screen_cols e - len (left ++ welcome_message) - len left <= 1) /\
  (y <> Z.quot (E.screen_rows e) 3 ->
   editorDrawRows_line e y ab
   = Some (ab ++ bytes "~" ++ (ESC :: bytes "[K") ++ [CR; NEWLINE])).
Proof.
  intros Hn Hy Hfit. unfold editorDrawRows_line. cbv zeta. rewrite Hn.
  destruct (Z.geb_spec (y + E.row_offset e) 0); [|lia].
  change (0 =? 0) with true. cbn [andb].
  split.
  - intros ->. rewrite Z.eqb_refl.
    revert Hfit. generalize welcome_message as w. intros w Hfit.
    pose proof (len_nonneg w) as Hw.
    destruct (Z.gtb_spec (len w) (E.screen_cols e)); [lia|].
    set (margin := Z.quot (E.screen_cols e - len w) 2).
    assert (0 <= margin /\ 0 <= E.screen_cols e - len w - 2 * margin <= 1)
      as [Hm Hc].
    { subst margin. pose proof (Z.quot_rem' (E.screen_cols e - len w) 2).
      pose proof (Z.rem_bound_pos (E.screen_cols e - len w) 2).
      pose proof (Z.quot_pos (E.screen_cols e - len w) 2). lia. }
    destruct (Z.ltb_spec (len w) 0); [lia|].
    assert (take (Z.to_nat (len w)) w = w) as ->
      by (unfold len; by rewrite Nat2Z.id, firstn_all).
    destruct (Z.eqb_spec margin 0) as [Hz|Hnz]; cbn [negb];
      cbn [mbind option_bind]; unfold abuffAppend.
    + exists []. rewrite Hz. simpl. split; [by rewrite <- !app_assoc|].
      split; [done|]. split; [by left|].
      change (len (@nil ascii)) with 0. lia.
    + exists (bytes "~" ++ replicate (Z.to_nat (margin - 1)) SPACE).
      assert (len (bytes "~" ++ replicate (Z.to_nat (margin - 1)) SPACE)
              = margin) as Hlen.
      { rewrite len_app. unfold len. rewrite length_replicate. simpl. lia. }
      split; [by rewrite <- !app_assoc|]. split; [done|].
      split; [right; by rewrite Hlen|].
      rewrite len_app, Hlen. lia.
  - intros Hne. destruct (Z.eqb_spec y (Z.quot (E.screen_rows e) 3)); [done|].
    cbn [mbind option_bind]. unfold abuffAppend. by rewrite <- !app_assoc.
Qed.

Lemma editorDrawRows_line_welcome_witness :
  exists left,
    editorDrawRows_line (initEditor 24 80) 7 []
    = Some ([] ++ (left ++ welcome_message) ++ (ESC :: bytes "[K")
            ++ [CR; NEWLINE]) /\
    len left = 28.
Proof.
  destruct (proj1 (editorDrawRows_line_welcome (initEditor 24 80) 7 []
                     eq_refl ltac:(by_evaluation) ltac:(by_evaluation))
              eq_refl)
    as (left & Hline & Hlen & _).
  exists left. split; [exact Hline|exact Hlen].
Defined.
